(** * Merchant document pipeline: a shallow embedding and its properties

    The development follows the Python sources of the pipeline:
    [src/validator.py] (business rules), [src/llm.py] (field extraction),
    [src/crm_submit.py] (submission), [src/pipeline.py] (orchestration) and
    the worker thread of [src/gui/premium_gui.py].

    Modelling conventions.
    - A Python [str] is a [string]; its characters are the code points
      0..255.  Character classes ([str.isspace], regex [\s] and [\d]) are
      Python's Unicode classes on that range; [str.upper] and [str.lower]
      are Python's on ASCII, and properties of the two are stated for
      ASCII strings.
    - A Python [float] that the program computes with (the confidence
      score) is a binary64 number, the primitive [float] of the kernel,
      with Python's comparisons and its two-argument [min] and [max].
      Numbers that only come from outside (readings of the clock, random
      draws) and the shares of the statistics are rationals ([Q]).
    - A [dict] with a fixed schema is a record whose fields are [option]s:
      [None] is an absent key and [get] is [dict.get(key, default)].
    - Code with effects (clock, OCR, text generation, file output, random
      numbers, progress reporting) runs in the monad [M]: the state of the
      outside world is passed along, and a Python exception ([Exception]
      and its subclasses, with its message) is the outcome [Raise].  The
      outside world is a parameter: what is proved holds whatever the
      clock, the OCR, the text generator and the file system do. *)

From Stdlib Require Import Bool Arith List String Ascii ZArith QArith Lia Lqa.
From Stdlib Require Import Floats.
From Stdlib Require Import DecimalString.
From Stdlib Require Import Sorted Permutation.
Import ListNotations.
Open Scope string_scope.
Set Warnings "-inexact-float".

(** ** Python string operations *)

Module PyStr.

Definition code (c : ascii) : nat := nat_of_ascii c.

Definition between (lo hi : nat) (c : ascii) : bool :=
  (lo <=? code c)%nat && (code c <=? hi)%nat.

(** [str.isspace] on one character, which is also the regex class [\s]:
    TAB..CR, FS..US, SPACE, NEL and NBSP. *)
Definition is_space (c : ascii) : bool :=
  between 9 13 c || between 28 32 c || (code c =? 133)%nat || (code c =? 160)%nat.

(** The regex class [\d]. *)
Definition is_digit (c : ascii) : bool := between 48 57 c.

Definition nonspace (c : ascii) : bool := negb (is_space c).

Definition is_upper_az (c : ascii) : bool := between 65 90 c.
Definition is_lower_az (c : ascii) : bool := between 97 122 c.
Definition is_alpha_az (c : ascii) : bool := is_upper_az c || is_lower_az c.

(** Truth value of a string: [bool(s)]. *)
Definition truthy (s : string) : bool :=
  match s with EmptyString => false | String _ _ => true end.

Fixpoint lstrip (s : string) : string :=
  match s with
  | EmptyString => EmptyString
  | String c s' => if is_space c then lstrip s' else s
  end.

Fixpoint rstrip (s : string) : string :=
  match s with
  | EmptyString => EmptyString
  | String c s' =>
      let r := rstrip s' in
      if is_space c && negb (truthy r) then EmptyString else String c r
  end.

(** [s.strip()] *)
Definition strip (s : string) : string := rstrip (lstrip s).

(** [re.sub(r'[^...]', '', s)] keeps the characters of the class. *)
Fixpoint keep (p : ascii -> bool) (s : string) : string :=
  match s with
  | EmptyString => EmptyString
  | String c s' => if p c then String c (keep p s') else keep p s'
  end.

Fixpoint forallb_str (p : ascii -> bool) (s : string) : bool :=
  match s with
  | EmptyString => true
  | String c s' => p c && forallb_str p s'
  end.

Fixpoint existsb_str (p : ascii -> bool) (s : string) : bool :=
  match s with
  | EmptyString => false
  | String c s' => p c || existsb_str p s'
  end.

(** [c in s] for a one-character [c]. *)
Definition contains (c : ascii) (s : string) : bool :=
  existsb_str (Ascii.eqb c) s.

(** [re.sub(r'\s+', ' ', s)]: every maximal run of white space becomes one
    space.  [in_run] tells that the previous character was white space. *)
Fixpoint collapse_from (in_run : bool) (s : string) : string :=
  match s with
  | EmptyString => EmptyString
  | String c s' =>
      if is_space c
      then if in_run then collapse_from true s'
           else String " " (collapse_from true s')
      else String c (collapse_from false s')
  end.

Definition collapse_ws (s : string) : string := collapse_from false s.

(** [s.split(sep)] for a non-empty [sep]: the scan goes left to right and
    the occurrences of [sep] do not overlap.  [split_from sep skip s] is
    the piece being read and the pieces after it; [skip] characters of a
    separator found earlier are still to be passed. *)
Fixpoint split_from (sep : string) (skip : nat) (s : string)
  : string * list string :=
  match s with
  | EmptyString => (EmptyString, [])
  | String c s' =>
      match skip with
      | S k => split_from sep k s'
      | O =>
          if prefix sep s
          then (EmptyString,
                let (p, ps) := split_from sep (String.length sep - 1) s' in
                p :: ps)
          else let (p, ps) := split_from sep 0 s' in (String c p, ps)
      end
  end.

Definition split (sep s : string) : list string :=
  let (p, ps) := split_from sep 0 s in p :: ps.

(** [s.split()]: the maximal runs of characters that are not white space. *)
Definition cons_word (w : string) (ws : list string) : list string :=
  if truthy w then w :: ws else ws.

Fixpoint words_from (s : string) : string * list string :=
  match s with
  | EmptyString => (EmptyString, [])
  | String c s' =>
      let (w, ws) := words_from s' in
      if is_space c then (EmptyString, cons_word w ws) else (String c w, ws)
  end.

Definition split_ws (s : string) : list string :=
  let (w, ws) := words_from s in cons_word w ws.

(** [sep.join(l)] *)
Definition join (sep : string) (l : list string) : string := String.concat sep l.

(** [s.upper()] on the characters 0..255; on ASCII it is Python's
    [str.upper] itself.  Sharp s becomes SS; micro sign and y-diaeresis
    have their capitals outside the range and are kept, where Python gives
    those capitals.  Properties that rest on the mapping of the case are
    stated for ASCII strings. *)
Definition upper_char (c : ascii) : string :=
  if is_lower_az c then String (ascii_of_nat (code c - 32)) EmptyString
  else if (code c =? 223)%nat then "SS"
  else if between 224 254 c && negb (code c =? 247)%nat
       then String (ascii_of_nat (code c - 32)) EmptyString
  else String c EmptyString.

Fixpoint upper (s : string) : string :=
  match s with
  | EmptyString => EmptyString
  | String c s' => upper_char c ++ upper s'
  end.

(** [s.lower()] on the characters 0..255, where the lower-case form of
    every character is in the range again; on ASCII it is Python's
    [str.lower] itself.  A character beyond the range can have its
    lower-case form in it (the Kelvin sign becomes k), and is not a
    character of this model: a property of [lower] is stated for ASCII
    strings. *)
Definition lower_char (c : ascii) : ascii :=
  if is_upper_az c then ascii_of_nat (code c + 32)
  else if between 192 222 c && negb (code c =? 215)%nat
       then ascii_of_nat (code c + 32)
  else c.

Fixpoint lower (s : string) : string :=
  match s with
  | EmptyString => EmptyString
  | String c s' => String (lower_char c) (lower s')
  end.

(** [s.endswith(suffix)] *)
Fixpoint endswith (s suffix : string) : bool :=
  String.eqb s suffix
  || match s with
     | EmptyString => false
     | String _ s' => endswith s' suffix
     end.

(** [str(n)] for an integer. *)
Definition of_Z (n : Z) : string := NilZero.string_of_int (Z.to_int n).

(** [os.path.basename] (POSIX): what follows the last slash. *)
Fixpoint basename (p : string) : string :=
  match p with
  | EmptyString => EmptyString
  | String c p' =>
      if contains "/" p' then basename p'
      else if Ascii.eqb c "/" then p' else p
  end.

(** [os.path.join(dir, name)] (POSIX) *)
Definition path_join (dir name : string) : string :=
  if prefix "/" name then name
  else if negb (truthy dir) || endswith dir "/" then dir ++ name
  else dir ++ "/" ++ name.

End PyStr.


(** ** Regular expressions, matched by derivatives *)

Module Regex.

Inductive re : Type :=
| Void
| Eps
| Class (p : ascii -> bool)
| Seq (a b : re)
| Alt (a b : re)
| Star (a : re).

Fixpoint nullable (r : re) : bool :=
  match r with
  | Void => false
  | Eps => true
  | Class _ => false
  | Seq a b => nullable a && nullable b
  | Alt a b => nullable a || nullable b
  | Star _ => true
  end.

Fixpoint deriv (c : ascii) (r : re) : re :=
  match r with
  | Void => Void
  | Eps => Void
  | Class p => if p c then Eps else Void
  | Seq a b =>
      if nullable a then Alt (Seq (deriv c a) b) (deriv c b)
      else Seq (deriv c a) b
  | Alt a b => Alt (deriv c a) (deriv c b)
  | Star a => Seq (deriv c a) (Star a)
  end.

(** The whole string is in the language of [r]: [^r$] where the string
    does not end with a line feed. *)
Fixpoint fullmatch (r : re) (s : string) : bool :=
  match s with
  | EmptyString => nullable r
  | String c s' => fullmatch (deriv c r) s'
  end.

Definition plus (r : re) : re := Seq r (Star r).
Definition at_least_2 (r : re) : re := Seq r (Seq r (Star r)).
Definition lit (c : ascii) : re := Class (Ascii.eqb c).

End Regex.

(** ** Effects: the outside world and Python exceptions *)

Definition Time : Type := Q.

(** The result of running a piece of code: a value, or an exception
    ([Exception] and its subclasses) with its message [str(e)]. *)
Inductive Outcome (A : Type) : Type :=
| Ok (a : A)
| Raise (message : string).
Arguments Ok {A} a.
Arguments Raise {A} message.

(** A computation over a world of type [W]. *)
Definition M (W A : Type) : Type := W -> Outcome A * W.

Definition ret {W A} (a : A) : M W A := fun w => (Ok a, w).

Definition raise {W A} (message : string) : M W A := fun w => (Raise message, w).

Definition bind {W A B} (m : M W A) (k : A -> M W B) : M W B :=
  fun w =>
    match m w with
    | (Ok a, w') => k a w'
    | (Raise e, w') => (Raise e, w')
    end.

(** [try: m except Exception as e: handler(str(e))] *)
Definition try_except {W A} (m : M W A) (handler : string -> M W A) : M W A :=
  fun w =>
    match m w with
    | (Ok a, w') => (Ok a, w')
    | (Raise e, w') => handler e w'
    end.

(** A call that cannot raise. *)
Definition total {W A} (f : W -> A * W) : M W A :=
  fun w => let (a, w') := f w in (Ok a, w').

(** A call made for its effect only. *)
Definition effect {W} (f : W -> W) : M W unit := fun w => (Ok tt, f w).

Declare Scope py_scope.
Delimit Scope py_scope with py.
Notation "x <- m ;; k" := (bind m (fun x => k))
  (at level 61, m at next level, right associativity) : py_scope.
Notation "m ;;; k" := (bind m (fun _ => k))
  (at level 61, right associativity) : py_scope.
Open Scope py_scope.

(** [for x in l: acc = body(acc, x)] *)
Fixpoint for_each {W A B} (body : B -> A -> M W B) (l : list A) (acc : B) : M W B :=
  match l with
  | [] => ret acc
  | x :: l' => acc' <- body acc x ;; for_each body l' acc'
  end.

(** [dict.get(key, default)] on a field that may be absent. *)
Definition get {A} (field : option A) (default : A) : A :=
  match field with Some v => v | None => default end.

(** [float(n)] for the length of a list. *)
Definition float_of_nat (n : nat) : float :=
  PrimFloat.of_uint63 (Uint63.of_Z (Z.of_nat n)).

(** Python's two-argument [min] and [max] on floats: the second argument
    is taken when it compares below (above) the first, and the first is
    kept otherwise, on a tie and when one of the two is not a number. *)
Definition py_min (a b : float) : float := if PrimFloat.ltb b a then b else a.
Definition py_max (a b : float) : float := if PrimFloat.ltb a b then b else a.

(** ** Data model: the dictionaries passed between the stages *)

(** [structured_data["address"]] *)
Record Address : Type := mkAddress {
  street : option string;
  city : option string;
  state : option string;
  zip : option string
}.

(** [structured_data["contact_info"]] *)
Record ContactInfo : Type := mkContactInfo {
  phone : option string;
  email : option string
}.

(** [structured_data["business_info"]] *)
Record BusinessInfo : Type := mkBusinessInfo {
  business_type : option string;
  annual_revenue : option string;
  years_in_business : option string;
  processing_volume : option string
}.

(** The empty dictionary [{}] used as a default for the nested ones. *)
Definition no_address : Address := mkAddress None None None None.
Definition no_contact_info : ContactInfo := mkContactInfo None None.

(** [parsed_data['validation_status']] is ['passed'] or ['failed']. *)
Inductive ValidationStatus : Type := passed | failed.

(** The document dictionary: a candidate record when it leaves the parser,
    a validated record once the last four keys are set. *)
Record Document : Type := mkDocument {
  merchant_name : option string;
  ein_or_ssn : option string;
  document_type : option string;
  address : option Address;
  contact_info : option ContactInfo;
  business_info : option BusinessInfo;
  requested_amount : option string;
  source_file : option string;
  confidence_score : option float;
  flagged_issues : option (list string);
  validation_status : option ValidationStatus;
  requires_human_review : option bool;
  validation_timestamp : option Time
}.

(** ** [validator.py]: class [DocumentValidator] *)

Module Validator.
Import PyStr.

(** [str.isdigit] on a string; the superscripts 1, 2, 3 count as digits. *)
Definition isdigit (s : string) : bool :=
  truthy s
  && forallb_str (fun c => is_digit c || (code c =? 178)%nat
                           || (code c =? 179)%nat || (code c =? 185)%nat) s.

Definition _validate_ein_ssn (ein_ssn : string) : bool :=
  if negb (truthy ein_ssn) then false
  else
    let clean_ein := keep is_digit ein_ssn in
    (String.length clean_ein =? 9)%nat && isdigit clean_ein.

Definition _validate_zip (zip_code : string) : bool :=
  if negb (truthy zip_code) then false
  else
    let clean_zip := keep is_digit zip_code in
    (String.length clean_zip =? 5)%nat && isdigit clean_zip.

(** The leading digits of a string are counted and dropped. *)
Fixpoint span_digits (s : string) : nat * string :=
  match s with
  | EmptyString => (O, EmptyString)
  | String c s' =>
      if is_digit c
      then let (n, r) := span_digits s' in (S n, r)
      else (O, s)
  end.

(** [float(s)] does not raise [ValueError], for an [s] made of digits and
    dots, which is all that the substitution of [_validate_amount]
    leaves: digits with at most one dot, and at least one digit. *)
Definition float_accepts (s : string) : bool :=
  let (n1, r1) := span_digits s in
  match r1 with
  | EmptyString => (0 <? n1)%nat
  | String c r2 =>
      Ascii.eqb c "."
      && (let (n2, r3) := span_digits r2 in
          negb (truthy r3) && (0 <? n1 + n2)%nat)
  end.

Definition _validate_amount (amount : string) : bool :=
  if negb (truthy amount) then true
  else
    let clean_amount := keep (fun c => is_digit c || Ascii.eqb c ".") amount in
    if negb (truthy clean_amount) then false
    else float_accepts clean_amount.

Definition _validate_phone (phone : string) : bool :=
  if negb (truthy phone) then false
  else
    let clean_phone := keep is_digit phone in
    (String.length clean_phone =? 10)%nat && isdigit clean_phone.

(** [[a-zA-Z0-9._%+-]] and [[a-zA-Z0-9.-]] *)
Definition local_char (c : ascii) : bool :=
  is_alpha_az c || is_digit c || contains c "._%+-".
Definition domain_char (c : ascii) : bool :=
  is_alpha_az c || is_digit c || contains c ".-".

(** [^[a-zA-Z0-9._%+-]+@[a-zA-Z0-9.-]+\.[a-zA-Z]{2,}$] *)
Definition email_pattern : Regex.re :=
  Regex.Seq (Regex.plus (Regex.Class local_char))
    (Regex.Seq (Regex.lit "@")
       (Regex.Seq (Regex.plus (Regex.Class domain_char))
          (Regex.Seq (Regex.lit ".")
             (Regex.at_least_2 (Regex.Class is_alpha_az))))).

Definition _validate_email (email : string) : bool :=
  if negb (truthy email) then false
  else Regex.fullmatch email_pattern (strip email).

Definition valid_states : list string :=
  [ "AL"; "AK"; "AZ"; "AR"; "CA"; "CO"; "CT"; "DE"; "FL"; "GA";
    "HI"; "ID"; "IL"; "IN"; "IA"; "KS"; "KY"; "LA"; "ME"; "MD";
    "MA"; "MI"; "MN"; "MS"; "MO"; "MT"; "NE"; "NV"; "NH"; "NJ";
    "NM"; "NY"; "NC"; "ND"; "OH"; "OK"; "OR"; "PA"; "RI"; "SC";
    "SD"; "TN"; "TX"; "UT"; "VT"; "VA"; "WA"; "WV"; "WI"; "WY";
    "DC" ].

Definition _validate_state (state : string) : bool :=
  if negb (truthy state) then false
  else existsb (String.eqb (strip (upper state))) valid_states.

(** [bool(d.get(key))]: an absent key gives [None], which is false. *)
Definition present (field : option string) : bool :=
  match field with Some s => truthy s | None => false end.

(** [any(address.values())] *)
Definition any_value (a : Address) : bool :=
  present (street a) || present (city a) || present (state a) || present (zip a).

(** [all([address.get('street'), address.get('city'),
          address.get('state'), address.get('zip')])] *)
Definition all_values (a : Address) : bool :=
  present (street a) && present (city a) && present (state a) && present (zip a).

(** One rule: its message is appended when the rule is broken. *)
Definition issue_if (broken : bool) (message : string) : list string :=
  if broken then [message] else [].

(** The list [validation_issues] at the end of the rules. *)
Definition validation_issues (parsed_data : Document) : list string :=
  let ein_ssn := get (ein_or_ssn parsed_data) "" in
  let zip_code := get (zip (get (address parsed_data) no_address)) "" in
  let amount := get (requested_amount parsed_data) "" in
  let phone := get (phone (get (contact_info parsed_data) no_contact_info)) "" in
  let email := get (email (get (contact_info parsed_data) no_contact_info)) "" in
  let state := get (state (get (address parsed_data) no_address)) "" in
  let required_fields :=
    [ ("merchant_name", merchant_name parsed_data);
      ("document_type", document_type parsed_data) ] in
  let address := get (address parsed_data) no_address in
  issue_if (negb (_validate_ein_ssn ein_ssn))
    ("Invalid EIN/SSN format: '" ++ ein_ssn ++ "' (must be exactly 9 digits)")
  ++ issue_if (negb (_validate_zip zip_code))
    ("Invalid ZIP code: '" ++ zip_code ++ "' (must be exactly 5 digits)")
  ++ issue_if (truthy amount && negb (_validate_amount amount))
    ("Invalid requested amount: '" ++ amount ++ "' (must be numeric)")
  ++ issue_if (truthy phone && negb (_validate_phone phone))
    ("Invalid phone format: '" ++ phone ++ "' (must be 10 digits)")
  ++ issue_if (truthy email && negb (_validate_email email))
    ("Invalid email format: '" ++ email ++ "'")
  ++ issue_if (truthy state && negb (_validate_state state))
    ("Invalid state: '" ++ state ++ "' (must be 2-letter abbreviation)")
  ++ flat_map
       (fun field : string * option string =>
          issue_if (negb (truthy (strip (get (snd field) ""))))
            ("Missing required field: " ++ fst field))
       required_fields
  ++ issue_if (any_value address && negb (all_values address))
    "Incomplete address information".

(** The confidence score after the penalty, when there are issues. *)
Definition penalised (current_confidence : float) (issues : list string)
  : float :=
  let penalty :=
    py_min (0.2 * float_of_nat (List.length issues))%float 0.4%float in
  py_max (current_confidence - penalty)%float 0.1%float.

(** The dictionary as [validate_document] leaves it, [timestamp] being
    the reading of the clock.  The function updates [parsed_data] in
    place and returns it. *)
Definition validated (parsed_data : Document) (timestamp : Time) : Document :=
  let validation_issues := validation_issues parsed_data in
  let existing_issues := get (flagged_issues parsed_data) [] in
  let all_issues := (existing_issues ++ validation_issues)%list in
  {| merchant_name := merchant_name parsed_data;
     ein_or_ssn := ein_or_ssn parsed_data;
     document_type := document_type parsed_data;
     address := address parsed_data;
     contact_info := contact_info parsed_data;
     business_info := business_info parsed_data;
     requested_amount := requested_amount parsed_data;
     source_file := source_file parsed_data;
     confidence_score :=
       match validation_issues with
       | [] => confidence_score parsed_data
       | _ :: _ =>
           Some (penalised (get (confidence_score parsed_data) 0.5%float)
                   validation_issues)
       end;
     flagged_issues := Some all_issues;
     validation_status :=
       Some (match validation_issues with [] => passed | _ :: _ => failed end);
     requires_human_review := Some (0 <? List.length all_issues)%nat;
     validation_timestamp := Some timestamp |}.

Section WithClock.
Context {W : Type}.
(** [datetime.now()] *)
Variable now : W -> Time * W.

Definition validate_document (parsed_data : Document) : M W Document :=
  timestamp <- total now ;;
  ret (validated parsed_data timestamp).
End WithClock.

End Validator.

(** Assignments [d[key] = v] on the document dictionary. *)
Definition with_merchant_name (v : string) (d : Document) : Document :=
  mkDocument (Some v) (ein_or_ssn d) (document_type d) (address d)
    (contact_info d) (business_info d) (requested_amount d) (source_file d)
    (confidence_score d) (flagged_issues d) (validation_status d)
    (requires_human_review d) (validation_timestamp d).

Definition with_ein_or_ssn (v : string) (d : Document) : Document :=
  mkDocument (merchant_name d) (Some v) (document_type d) (address d)
    (contact_info d) (business_info d) (requested_amount d) (source_file d)
    (confidence_score d) (flagged_issues d) (validation_status d)
    (requires_human_review d) (validation_timestamp d).

Definition with_document_type (v : string) (d : Document) : Document :=
  mkDocument (merchant_name d) (ein_or_ssn d) (Some v) (address d)
    (contact_info d) (business_info d) (requested_amount d) (source_file d)
    (confidence_score d) (flagged_issues d) (validation_status d)
    (requires_human_review d) (validation_timestamp d).

Definition with_requested_amount (v : string) (d : Document) : Document :=
  mkDocument (merchant_name d) (ein_or_ssn d) (document_type d) (address d)
    (contact_info d) (business_info d) (Some v) (source_file d)
    (confidence_score d) (flagged_issues d) (validation_status d)
    (requires_human_review d) (validation_timestamp d).

(** Assignments [d["address"][key] = v] and the like: the nested
    dictionary is updated where it is. *)
Definition update_address (f : Address -> Address) (d : Document) : Document :=
  mkDocument (merchant_name d) (ein_or_ssn d) (document_type d)
    (option_map f (address d))
    (contact_info d) (business_info d) (requested_amount d) (source_file d)
    (confidence_score d) (flagged_issues d) (validation_status d)
    (requires_human_review d) (validation_timestamp d).

Definition update_contact_info (f : ContactInfo -> ContactInfo) (d : Document)
  : Document :=
  mkDocument (merchant_name d) (ein_or_ssn d) (document_type d) (address d)
    (option_map f (contact_info d))
    (business_info d) (requested_amount d) (source_file d)
    (confidence_score d) (flagged_issues d) (validation_status d)
    (requires_human_review d) (validation_timestamp d).

Definition update_business_info (f : BusinessInfo -> BusinessInfo) (d : Document)
  : Document :=
  mkDocument (merchant_name d) (ein_or_ssn d) (document_type d) (address d)
    (contact_info d)
    (option_map f (business_info d))
    (requested_amount d) (source_file d)
    (confidence_score d) (flagged_issues d) (validation_status d)
    (requires_human_review d) (validation_timestamp d).

(** ** [llm.py]: class [LLMParser] *)

Module LLM.
Import PyStr.

Definition LF : ascii := ascii_of_nat 10.

(** The separator ['\n\n'] of paragraphs. *)
Definition blank_line : string := String LF (String LF EmptyString).

(** What the text generator returns.  The parser looks at the first
    element of a list only: a dictionary with the key ['generated_text'],
    or any other object, of which it takes [str()]. *)
Inductive Item : Type :=
| GeneratedText (generated_text : string)
| Other (str : string).

Inductive Response : Type :=
| Items (items : list Item)
| NotAList.

(** The loop of [_chunk_text], with its three variables. *)
Fixpoint chunk_loop (max_length : nat) (paragraphs : list string)
    (chunks current_chunk : list string) (current_length : nat) : list string :=
  match paragraphs with
  | [] =>
      match current_chunk with
      | [] => chunks
      | _ :: _ => chunks ++ [join " " current_chunk]
      end
  | para :: rest =>
      let para_length := List.length (split_ws para) in
      if (max_length <? current_length + para_length)%nat
      then chunk_loop max_length rest
             (chunks ++ [join " " current_chunk]) [para] para_length
      else chunk_loop max_length rest
             chunks (current_chunk ++ [para]) (current_length + para_length)
  end.

Definition _chunk_text_with (text : string) (max_length : nat) : list string :=
  chunk_loop max_length (split blank_line text) [] [] 0.

(** [max_length] has the default 512. *)
Definition _chunk_text (text : string) : list string := _chunk_text_with text 512.

(** [s.replace(a, b)] for one-character [a] and [b]. *)
Fixpoint replace_char (a b : ascii) (s : string) : string :=
  match s with
  | EmptyString => EmptyString
  | String c s' => String (if Ascii.eqb c a then b else c) (replace_char a b s')
  end.

Definition prompts (text : string) : list (string * string) :=
  [ ("merchant_name", "Extract the merchant or business name from this text: " ++ text);
    ("ein_or_ssn", "Find the tax ID, EIN number, or SSN from this text: " ++ text);
    ("document_type", "What type of document is this (application, statement, invoice, etc.): " ++ text);
    ("requested_amount", "Extract the requested loan or funding amount from this text: " ++ text);
    ("address_street", "Extract only the street address (no city/state/zip) from this text: " ++ text);
    ("address_city", "Extract only the city name from this address information: " ++ text);
    ("address_state", "Extract only the state (2-letter abbreviation preferred) from this address: " ++ text);
    ("address_zip", "Extract only the ZIP code from this address: " ++ text);
    ("contact_phone", "Find the phone number from this text: " ++ text);
    ("contact_email", "Find the email address from this text: " ++ text);
    ("business_type", "What type of business is described in this text: " ++ text);
    ("annual_revenue", "Extract the annual revenue amount from this text: " ++ text);
    ("years_in_business", "How many years has this business been operating according to the text: " ++ text);
    ("processing_volume", "Find the credit card processing volume from this text: " ++ text) ].

Fixpoint lookup (key : string) (l : list (string * string)) : option string :=
  match l with
  | [] => None
  | (k, v) :: l' => if String.eqb k key then Some v else lookup key l'
  end.

Definition _get_field_prompt (field text : string) : string :=
  get (lookup field (prompts text))
    ("Extract the " ++ replace_char "_" " " field ++ " from this text: " ++ text).

Definition _clean_response (text : string) : string :=
  let text := if contains ":" text then List.last (split ":" text) text else text in
  let text := strip text in
  collapse_ws text.

(** [structured_data[field] = v] for the direct fields. *)
Definition set_item (field v : string) (d : Document) : Document :=
  if String.eqb field "merchant_name" then with_merchant_name v d
  else if String.eqb field "ein_or_ssn" then with_ein_or_ssn v d
  else if String.eqb field "document_type" then with_document_type v d
  else if String.eqb field "requested_amount" then with_requested_amount v d
  else d.

Definition set_address_item (field v : string) (a : Address) : Address :=
  if String.eqb field "street" then mkAddress (Some v) (city a) (state a) (zip a)
  else if String.eqb field "city" then mkAddress (street a) (Some v) (state a) (zip a)
  else if String.eqb field "state" then mkAddress (street a) (city a) (Some v) (zip a)
  else if String.eqb field "zip" then mkAddress (street a) (city a) (state a) (Some v)
  else a.

Definition set_contact_item (field v : string) (c : ContactInfo) : ContactInfo :=
  if String.eqb field "phone" then mkContactInfo (Some v) (email c)
  else if String.eqb field "email" then mkContactInfo (phone c) (Some v)
  else c.

Definition set_business_item (field v : string) (b : BusinessInfo) : BusinessInfo :=
  if String.eqb field "business_type"
  then mkBusinessInfo (Some v) (annual_revenue b) (years_in_business b) (processing_volume b)
  else if String.eqb field "annual_revenue"
  then mkBusinessInfo (business_type b) (Some v) (years_in_business b) (processing_volume b)
  else if String.eqb field "years_in_business"
  then mkBusinessInfo (business_type b) (annual_revenue b) (Some v) (processing_volume b)
  else if String.eqb field "processing_volume"
  then mkBusinessInfo (business_type b) (annual_revenue b) (years_in_business b) (Some v)
  else b.

(** The text taken from a response: the cleaned first element of a
    non-empty list, and nothing otherwise. *)
Definition extracted (response : Response) : option string :=
  match response with
  | Items (GeneratedText generated_text :: _) => Some (_clean_response generated_text)
  | Items (Other str :: _) => Some (_clean_response str)
  | Items [] => None
  | NotAList => None
  end.

(** [structured_data] as it is initialised. *)
Definition initial_data (filename : option string) : Document :=
  {| merchant_name := Some "";
     ein_or_ssn := Some "";
     document_type := Some "application";
     address := Some (mkAddress (Some "") (Some "") (Some "") (Some ""));
     contact_info := Some (mkContactInfo (Some "") (Some ""));
     business_info := Some (mkBusinessInfo (Some "") (Some "") (Some "") (Some ""));
     requested_amount := Some "";
     source_file :=
       Some (match filename with
             | Some f => if truthy f then f else "unknown"
             | None => "unknown"
             end);
     confidence_score := Some 0.7%float;
     flagged_issues := Some [];
     validation_status := None;
     requires_human_review := None;
     validation_timestamp := None |}.

Definition direct_fields : list string :=
  ["merchant_name"; "ein_or_ssn"; "document_type"; "requested_amount"].
Definition address_fields : list string := ["street"; "city"; "state"; "zip"].
Definition contact_fields : list string := ["phone"; "email"].
Definition business_fields : list string :=
  ["business_type"; "annual_revenue"; "years_in_business"; "processing_volume"].

Section WithGenerator.
Context {W : Type}.
(** [self.generator(prompt, max_length=100, num_return_sequences=1)] *)
Variable generator : string -> M W Response.

(** [chunks[0]] *)
Definition first_chunk (chunks : list string) : M W string :=
  match chunks with
  | chunk :: _ => ret chunk
  | [] => raise "list index out of range"
  end.

Definition parse_document (text : string) (filename : option string)
  : M W Document :=
  try_except
    (let chunks := _chunk_text text in
     let structured_data := initial_data filename in
     structured_data <-
       for_each (fun structured_data field =>
         chunk <- first_chunk chunks ;;
         response <- generator (_get_field_prompt field chunk) ;;
         ret (set_item field (get (extracted response) "") structured_data))
       direct_fields structured_data ;;
     structured_data <-
       for_each (fun structured_data field =>
         chunk <- first_chunk chunks ;;
         response <- generator (_get_field_prompt ("address_" ++ field) chunk) ;;
         ret (match extracted response with
              | Some v => update_address (set_address_item field v) structured_data
              | None => structured_data
              end))
       address_fields structured_data ;;
     structured_data <-
       for_each (fun structured_data field =>
         chunk <- first_chunk chunks ;;
         response <- generator (_get_field_prompt ("contact_" ++ field) chunk) ;;
         ret (match extracted response with
              | Some v => update_contact_info (set_contact_item field v) structured_data
              | None => structured_data
              end))
       contact_fields structured_data ;;
     structured_data <-
       for_each (fun structured_data field =>
         chunk <- first_chunk chunks ;;
         response <- generator (_get_field_prompt field chunk) ;;
         ret (match extracted response with
              | Some v => update_business_info (set_business_item field v) structured_data
              | None => structured_data
              end))
       business_fields structured_data ;;
     ret structured_data)
    (fun e => raise e).
End WithGenerator.

End LLM.

(** ** [crm_submit.py]: class [CRMSubmitter] *)

Module CRM.

(** The dictionary returned by [_mock_crm_submit].  A [crm_id] that is
    [None] in Python is [None] here. *)
Module Response.
Record t : Type := make {
  status : string;
  reason : option string;
  crm_id : option string;
  timestamp : option Time;
  submission_time : option Time;
  processing_notes : option string;
  retry_suggested : option bool
}.
End Response.

(** The dictionary returned by [submit_document]. *)
Record SubmissionResult : Type := mkSubmissionResult {
  status : string;
  json_file : option string;
  crm_response : option Response.t;
  error : option string
}.

(** [a < b] on numbers. *)
Definition lt (a b : Q) : bool := negb (Qle_bool b a).

Section WithOutside.
Context {W : Type}.
(** [datetime.now()] *)
Variable now : W -> Time * W.
(** [time.sleep], [random.uniform], [random.randint], [random.random] *)
Variable sleep : Q -> W -> W.
Variable random_uniform : Q -> Q -> W -> Q * W.
Variable random_randint : Z -> Z -> W -> Z * W.
Variable random_random : W -> Q * W.
(** [_generate_json_file] writes the JSON file and returns its name;
    the file system may raise. *)
Variable _generate_json_file : Document -> M W string.
(** [_log_submission] appends a line to the log file; it reports an
    exception of the file system to the logger and does not raise.  Its
    second argument is the response of the CRM or, after a failure,
    the error message. *)
Variable _log_submission : Document -> Response.t + string -> W -> W.

Definition _mock_crm_submit (parsed_data : Document) : M W Response.t :=
  delay <- total (random_uniform 0.5 1.5) ;;
  effect (sleep delay) ;;;
  match validation_status parsed_data with
  | Some failed =>
      timestamp <- total now ;;
      ret (Response.make "rejected"
             (Some "Document failed validation checks")
             None (Some timestamp) None None None)
  | _ =>
      let confidence := get (confidence_score parsed_data) 0.5%float in
      if PrimFloat.ltb confidence 0.3%float
      then
        n <- total (random_randint 10000 99999) ;;
        timestamp <- total now ;;
        ret (Response.make "pending_review"
               (Some "Low confidence score requires manual review")
               (Some ("PENDING-" ++ PyStr.of_Z n)) (Some timestamp)
               None None None)
      else
        r <- total random_random ;;
        if lt r 0.9
        then
          n <- total (random_randint 100000 999999) ;;
          submission_time <- total now ;;
          ret (Response.make "accepted" None
                 (Some ("CRM-" ++ PyStr.of_Z n)) None (Some submission_time)
                 (Some "Document successfully processed and entered into CRM")
                 None)
        else
          timestamp <- total now ;;
          ret (Response.make "failed"
                 (Some "CRM system temporarily unavailable")
                 None (Some timestamp) None None (Some true))
  end.

Definition submit_document (parsed_data : Document) : M W SubmissionResult :=
  try_except
    (json_filename <- _generate_json_file parsed_data ;;
     submission_result <- _mock_crm_submit parsed_data ;;
     effect (_log_submission parsed_data (inl submission_result)) ;;;
     ret (mkSubmissionResult "success" (Some json_filename)
            (Some submission_result) None))
    (fun error_msg =>
       effect (_log_submission parsed_data (inr error_msg)) ;;;
       ret (mkSubmissionResult "failed" None None (Some error_msg))).
End WithOutside.

End CRM.

(** ** [pipeline.py]: class [DocumentPipeline] *)

Module Pipeline.
Import PyStr.

(** The result dictionary of one document: the validated data with the
    submission result and the processing time, or the error record.  The
    error record made by [process_directory] has no processing time. *)
Inductive DocumentResult : Type :=
| Completed (validated_data : Document)
            (submission_result : CRM.SubmissionResult)
            (processing_time_seconds : Time)
| Failed (source_file error : string)
         (processing_timestamp : Time)
         (processing_time_seconds : option Time).

Definition processing_status (r : DocumentResult) : string :=
  match r with
  | Completed _ _ _ => "completed"
  | Failed _ _ _ _ => "failed"
  end.

(** The components held by the pipeline: [self.ocr], [self.llm],
    [self.validator] and [self.crm]. *)
Record Components (W : Type) : Type := mkComponents {
  ocr_extract_text : string -> M W string;
  llm_parse_document : string -> option string -> M W Document;
  validator_validate_document : Document -> M W Document;
  crm_submit_document : Document -> M W CRM.SubmissionResult;
  crm_generate_csv_summary : list DocumentResult -> M W string
}.
Arguments mkComponents {W}.
Arguments ocr_extract_text {W}.
Arguments llm_parse_document {W}.
Arguments validator_validate_document {W}.
Arguments crm_submit_document {W}.
Arguments crm_generate_csv_summary {W}.


(** One call of the progress callback: [(current, total, message)]. *)
Definition ProgressCall : Type := (nat * nat * string)%type.

Section WithOutside.
Context {W : Type}.
Variable self : Components W.
(** [datetime.now()] *)
Variable now : W -> Time * W.
(** [os.path.exists] and [os.listdir] *)
Variable path_exists : string -> W -> bool * W.
Variable listdir : string -> M W (list string).

Definition process_single_document (file_path : string) : M W DocumentResult :=
  let filename := basename file_path in
  start_time <- total now ;;
  try_except
    (extracted_text <- ocr_extract_text self file_path ;;
     (if negb (truthy (strip extracted_text))
      then raise "No text could be extracted from document"
      else ret tt) ;;;
     parsed_data <- llm_parse_document self extracted_text (Some filename) ;;
     validated_data <- validator_validate_document self parsed_data ;;
     submission_result <- crm_submit_document self validated_data ;;
     end_time <- total now ;;
     ret (Completed validated_data submission_result (end_time - start_time)))
    (fun error_msg =>
       processing_timestamp <- total now ;;
       end_time <- total now ;;
       ret (Failed filename error_msg processing_timestamp
              (Some (end_time - start_time)))).

(** The body of the loop of [process_directory], for the file at index
    [i] of the [count] files. *)
Definition process_one_file
    (progress_callback : option (nat -> nat -> string -> M W unit))
    (count : nat) (processed_documents : list DocumentResult)
    (item : nat * string) : M W (list DocumentResult) :=
  let (i, file_path) := item in
  try_except
    (match progress_callback with
     | Some callback =>
         callback i count ("Processing " ++ basename file_path)
     | None => ret tt
     end ;;;
     result <- process_single_document file_path ;;
     ret (processed_documents ++ [result])%list)
    (fun e =>
       processing_timestamp <- total now ;;
       ret (processed_documents
            ++ [Failed (basename file_path) e processing_timestamp None])%list).

(** The loop of [process_directory] over [enumerate(files)]. *)
Definition process_files
    (progress_callback : option (nat -> nat -> string -> M W unit))
    (files : list string) : M W (list DocumentResult) :=
  for_each (process_one_file progress_callback (List.length files))
    (combine (seq 0 (List.length files)) files) [].

End WithOutside.

End Pipeline.

(** ** [gui/premium_gui.py]: class [DocumentProcessorWorker] *)

Module Worker.
Import PyStr.
Import Pipeline.

(** The signals of the worker thread and its interruption flag. *)
Record Signals (W : Type) : Type := mkSignals {
  progress_updated_emit : nat -> nat -> string -> W -> W;
  document_processed_emit : DocumentResult -> W -> W;
  processing_completed_emit : list DocumentResult -> W -> W;
  error_occurred_emit : string -> W -> W;
  isInterruptionRequested : W -> bool * W
}.
Arguments mkSignals {W}.
Arguments progress_updated_emit {W}.
Arguments document_processed_emit {W}.
Arguments processing_completed_emit {W}.
Arguments error_occurred_emit {W}.
Arguments isInterruptionRequested {W}.

Section WithPipeline.
Context {W : Type}.
Variable signals : Signals W.
(** [self.pipeline.process_single_document] *)
Variable pipeline_process_single_document : string -> M W DocumentResult.

(** The loop of [run] from index [i] on.  It returns
    [self.processed_documents] and the exception that ended the loop,
    if one did. *)
Fixpoint run_loop (count : nat) (i : nat) (files : list string)
    (processed_documents : list DocumentResult) (w : W)
  : list DocumentResult * option string * W :=
  match files with
  | [] => (processed_documents, None, w)
  | file_path :: rest =>
      let w := progress_updated_emit signals i count
                 ("Processing " ++ basename file_path) w in
      match pipeline_process_single_document file_path w with
      | (Raise e, w) => (processed_documents, Some e, w)
      | (Ok result, w) =>
          let processed_documents := (processed_documents ++ [result])%list in
          let w := document_processed_emit signals result w in
          let (stop, w) := isInterruptionRequested signals w in
          if stop then (processed_documents, None, w)
          else run_loop count (S i) rest processed_documents w
      end
  end.

(** [run]: the value is [self.processed_documents] when the thread ends. *)
Definition run (files : list string) (w : W) : list DocumentResult * W :=
  match run_loop (List.length files) 0 files [] w with
  | (processed_documents, None, w) =>
      (processed_documents, processing_completed_emit signals processed_documents w)
  | (processed_documents, Some e, w) =>
      (processed_documents, error_occurred_emit signals e w)
  end.
End WithPipeline.

End Worker.

(** ** Concrete worlds and inputs used in the examples *)

Module Samples.
Import Validator.

(** A world with nothing in it, where the clock always reads 0. *)
Definition frozen_clock : unit -> Time * unit := fun w => (0, w).

(** A candidate record whose text fields are all the empty string. *)
Definition blank : Document :=
  {| merchant_name := Some "";
     ein_or_ssn := Some "";
     document_type := Some "";
     address := Some (mkAddress (Some "") (Some "") (Some "") (Some ""));
     contact_info := Some (mkContactInfo (Some "") (Some ""));
     business_info := Some (mkBusinessInfo (Some "") (Some "") (Some "") (Some ""));
     requested_amount := Some "";
     source_file := Some "scan.pdf";
     confidence_score := Some 0.7%float;
     flagged_issues := Some [];
     validation_status := None;
     requires_human_review := None;
     validation_timestamp := None |}.

(** A record that breaks no rule. *)
Definition acme : Document :=
  {| merchant_name := Some "Acme";
     ein_or_ssn := Some "123-45-6789";
     document_type := Some "application";
     address := Some (mkAddress (Some "1 Main St") (Some "Boston") (Some "MA") (Some "02134"));
     contact_info := Some (mkContactInfo (Some "") (Some ""));
     business_info := Some (mkBusinessInfo (Some "") (Some "") (Some "") (Some ""));
     requested_amount := Some "";
     source_file := Some "acme.pdf";
     confidence_score := Some 0.7%float;
     flagged_issues := Some [];
     validation_status := None;
     requires_human_review := None;
     validation_timestamp := None |}.

(** The same record, arriving with one issue already flagged. *)
Definition acme_flagged : Document :=
  {| merchant_name := merchant_name acme;
     ein_or_ssn := ein_or_ssn acme;
     document_type := document_type acme;
     address := address acme;
     contact_info := contact_info acme;
     business_info := business_info acme;
     requested_amount := requested_amount acme;
     source_file := source_file acme;
     confidence_score := confidence_score acme;
     flagged_issues := Some ["Low OCR quality"];
     validation_status := None;
     requires_human_review := None;
     validation_timestamp := None |}.

(** The record of the five-rule example: a short EIN, a short ZIP code, an
    unknown state, no merchant name and no document type; every other
    field is empty and the confidence is [confidence]. *)
Definition five_rules (confidence : float) : Document :=
  {| merchant_name := Some "";
     ein_or_ssn := Some "12345";
     document_type := Some "";
     address := Some (mkAddress (Some "") (Some "") (Some "ZZ") (Some "1234"));
     contact_info := Some (mkContactInfo (Some "") (Some ""));
     business_info := Some (mkBusinessInfo (Some "") (Some "") (Some "") (Some ""));
     requested_amount := Some "";
     source_file := Some "scan.pdf";
     confidence_score := Some confidence;
     flagged_issues := Some [];
     validation_status := None;
     requires_human_review := None;
     validation_timestamp := None |}.

Definition five_issues : list string :=
  [ "Invalid EIN/SSN format: '12345' (must be exactly 9 digits)";
    "Invalid ZIP code: '1234' (must be exactly 5 digits)";
    "Invalid state: 'ZZ' (must be 2-letter abbreviation)";
    "Missing required field: merchant_name";
    "Missing required field: document_type" ].

End Samples.

(** ** The post-processing of a completion as the specification words it *)

Module AsSpecified.
Import PyStr.

(** What follows the first colon. *)
Fixpoint after_first_colon (s : string) : string :=
  match s with
  | EmptyString => EmptyString
  | String c s' => if Ascii.eqb c ":" then s' else after_first_colon s'
  end.

(** Split on the first colon and keep the remainder, collapse the white
    space, trim. *)
Definition clean_first_colon (text : string) : string :=
  let text := if contains ":" text then after_first_colon text else text in
  strip (collapse_ws text).

End AsSpecified.

(** ** Observers: what the properties below look at *)

Module Observers.
Import PyStr LLM.

(** [len(s.split())] *)
Definition word_count (s : string) : nat := List.length (split_ws s).

Definition total_words (paragraphs : list string) : nat :=
  list_sum (map word_count paragraphs).

(** [chunk_loop] where every chunk is kept as the list of its paragraphs,
    before they are joined. *)
Fixpoint group_loop (max_length : nat) (paragraphs : list string)
    (groups : list (list string)) (current_chunk : list string)
    (current_length : nat) : list (list string) :=
  match paragraphs with
  | [] =>
      match current_chunk with
      | [] => groups
      | _ :: _ => groups ++ [current_chunk]
      end
  | para :: rest =>
      let para_length := word_count para in
      if (max_length <? current_length + para_length)%nat
      then group_loop max_length rest (groups ++ [current_chunk]) [para] para_length
      else group_loop max_length rest groups (current_chunk ++ [para])
             (current_length + para_length)
  end.

(** A chunk respects the budget, or it is one paragraph. *)
Definition within_budget (max_length : nat) (group : list string) : Prop :=
  (total_words group <= max_length)%nat \/ exists para, group = [para].


(** The keys of the fourteen prompts, in the order of the calls. *)
Definition prompt_keys : list string :=
  direct_fields
  ++ map (append "address_") address_fields
  ++ map (append "contact_") contact_fields
  ++ business_fields.


(** The generator called on the prompts in a row, up to the first call
    that raises: the responses so far and the exception, if any. *)
Fixpoint ask_all {W : Type} (generator : string -> M W Response)
    (prompts : list string) (w : W) : list Response * option string * W :=
  match prompts with
  | [] => ([], None, w)
  | prompt :: rest =>
      match generator prompt w with
      | (Raise e, w') => ([], Some e, w')
      | (Ok r, w') =>
          let '(rs, e, w'') := ask_all generator rest w' in
          (r :: rs, e, w'')
      end
  end.

(** The candidate record with the given texts in its fourteen fields. *)
Definition candidate (filename : option string)
    (merchant ein doctype amount street city state zip phone email
     business revenue years volume : string) : Document :=
  {| merchant_name := Some merchant;
     ein_or_ssn := Some ein;
     document_type := Some doctype;
     address := Some (mkAddress (Some street) (Some city) (Some state) (Some zip));
     contact_info := Some (mkContactInfo (Some phone) (Some email));
     business_info :=
       Some (mkBusinessInfo (Some business) (Some revenue) (Some years) (Some volume));
     requested_amount := Some amount;
     source_file := source_file (initial_data filename);
     confidence_score := Some 0.7%float;
     flagged_issues := Some [];
     validation_status := None;
     requires_human_review := None;
     validation_timestamp := None |}.

(** The text recorded for a response: its cleaned text, or the empty
    string when it has none. *)
Definition recorded (r : Response) : string := get (extracted r) "".

(** The record made of fourteen responses, in the order of the calls. *)
Definition assemble (filename : option string) (rs : list Response) : Document :=
  let field i := recorded (nth i rs NotAList) in
  candidate filename
    (field 0%nat) (field 1%nat) (field 2%nat) (field 3%nat)
    (field 4%nat) (field 5%nat) (field 6%nat) (field 7%nat)
    (field 8%nat) (field 9%nat)
    (field 10%nat) (field 11%nat) (field 12%nat) (field 13%nat).

(** A record with every key of the candidate schema. *)
Definition complete (d : Document) : Prop :=
  (exists a b c e, merchant_name d = Some a /\ ein_or_ssn d = Some b
                   /\ document_type d = Some c /\ requested_amount d = Some e)
  /\ (exists a b c e, address d = Some (mkAddress (Some a) (Some b) (Some c) (Some e)))
  /\ (exists a b, contact_info d = Some (mkContactInfo (Some a) (Some b)))
  /\ (exists a b c e,
        business_info d = Some (mkBusinessInfo (Some a) (Some b) (Some c) (Some e)))
  /\ (exists f, source_file d = Some f)
  /\ confidence_score d = Some 0.7%float
  /\ flagged_issues d = Some [].

End Observers.

(** ** Text generators used in the examples *)

Module Generators.
Import LLM.

(** A generator that answers every prompt. *)
Definition answering {W : Type} : string -> M W Response :=
  fun _ => ret (Items [GeneratedText "Answer: Acme Corp"]).

(** A generator whose call for the merchant name fails, and which answers
    every other prompt. *)
Definition merchant_call_fails {W : Type} : string -> M W Response :=
  fun prompt =>
    if prefix "Extract the merchant" prompt
    then raise "backend unreachable"
    else ret (Items [GeneratedText "Answer: 42"]).

Definition sample_text : string := "Acme Corp merchant application".

End Generators.

(** ** Observing the progress reports *)

Module Instrumented.
Import PyStr Pipeline Worker.

(** A computation run in a world that carries a log beside it. *)
Definition lift {W L A : Type} (m : M W A) : M (W * L) A :=
  fun wl => let (w, log) := wl in let (r, w') := m w in (r, (w', log)).

Definition lift_total {W L A : Type} (f : W -> A * W) : W * L -> A * (W * L) :=
  fun wl => let (w, log) := wl in let (a, w') := f w in (a, (w', log)).

Definition lift_effect {W L : Type} (f : W -> W) : W * L -> W * L :=
  fun wl => let (w, log) := wl in (f w, log).

Definition lift_components {W L : Type} (self : Components W) : Components (W * L) :=
  {| ocr_extract_text := fun file_path => lift (ocr_extract_text self file_path);
     llm_parse_document := fun text filename =>
       lift (llm_parse_document self text filename);
     validator_validate_document := fun d => lift (validator_validate_document self d);
     crm_submit_document := fun d => lift (crm_submit_document self d);
     crm_generate_csv_summary := fun docs => lift (crm_generate_csv_summary self docs) |}.

(** A progress callback that also notes every call made to it. *)
Definition recording_callback {W : Type} (callback : nat -> nat -> string -> M W unit)
  : nat -> nat -> string -> M (W * list ProgressCall) unit :=
  fun current count message wl =>
    let (w, calls) := wl in
    let (r, w') := callback current count message w in
    (r, (w', (calls ++ [(current, count, message)])%list)).

(** Signals whose progress signal also notes every emission. *)
Definition recording_signals {W : Type} (signals : Signals W)
  : Signals (W * list ProgressCall) :=
  {| progress_updated_emit := fun current count message (wl : W * list ProgressCall) =>
       let (w, calls) := wl in
       (progress_updated_emit signals current count message w,
        (calls ++ [(current, count, message)])%list);
     document_processed_emit := fun r => lift_effect (document_processed_emit signals r);
     processing_completed_emit := fun docs =>
       lift_effect (processing_completed_emit signals docs);
     error_occurred_emit := fun e => lift_effect (error_occurred_emit signals e);
     isInterruptionRequested := lift_total (isInterruptionRequested signals) |}.

(** The progress reports of a whole batch: for the file at index [i] of
    [n], the call [(i, n, "Processing <name>")]. *)
Definition reports_from (count i : nat) (files : list string) : list ProgressCall :=
  map (fun item : nat * string =>
         (fst item, count, "Processing " ++ basename (snd item)))
    (combine (seq i (List.length files)) files).

Definition expected_reports (files : list string) : list ProgressCall :=
  reports_from (List.length files) 0 files.

(** The failed result made by [process_single_document] when the
    exception [e] reaches its handler in the world [w]. *)
Definition failure {W : Type} (now : W -> Time * W) (file_path : string)
    (start_time : Time) (e : string) (w : W) : Outcome DocumentResult * W :=
  let (processing_timestamp, w1) := now w in
  let (end_time, w2) := now w1 in
  (Ok (Failed (basename file_path) e processing_timestamp
         (Some (end_time - start_time))), w2).

(** A failed result is filed under the name of its file. *)
Definition filed_under (file_path : string) (r : DocumentResult) : Prop :=
  match r with
  | Failed source_file _ _ _ => source_file = basename file_path
  | Completed _ _ _ => True
  end.

(** The report made before the file at index [i] of [count], when there
    is a progress callback. *)
Definition report {W : Type}
    (callback : option (nat -> nat -> string -> M W unit))
    (i count : nat) (file_path : string) : M W unit :=
  match callback with
  | Some callback => callback i count ("Processing " ++ basename file_path)
  | None => ret tt
  end.

(** The files of a batch taken in turn from the index [i], and their
    results: every file is reported and then processed by
    [process_single_document], in the world left by the file before it,
    whatever the results before it are; a file whose report raises is not
    processed, and its result is the error record with the message of the
    exception and the reading of the clock. *)
Inductive in_turn {W : Type} (self : Components W) (now : W -> Time * W)
    (callback : option (nat -> nat -> string -> M W unit)) (count : nat)
  : nat -> list string -> W -> list DocumentResult -> W -> Prop :=
| in_turn_done (i : nat) (w : W) : in_turn self now callback count i [] w [] w
| in_turn_processed (i : nat) (file_path : string) (files : list string)
    (w w1 w2 w3 : W) (r : DocumentResult) (results : list DocumentResult) :
    report callback i count file_path w = (Ok tt, w1) ->
    process_single_document self now file_path w1 = (Ok r, w2) ->
    in_turn self now callback count (S i) files w2 results w3 ->
    in_turn self now callback count i (file_path :: files) w (r :: results) w3
| in_turn_not_reported (i : nat) (file_path : string) (files : list string)
    (w w1 w3 : W) (e : string) (results : list DocumentResult) :
    report callback i count file_path w = (Raise e, w1) ->
    in_turn self now callback count (S i) files (snd (now w1)) results w3 ->
    in_turn self now callback count i (file_path :: files) w
      (Failed (basename file_path) e (fst (now w1)) None :: results) w3.

End Instrumented.

(** ** A pipeline used in the examples *)

Module Stubs.
Import PyStr Pipeline Worker Generators.

(** The world is the time of its clock, which every reading advances by
    one second. *)
Definition ticking : Q -> Time * Q := fun t => (t, t + 1).

Definition no_sleep : Q -> Q -> Q := fun _ w => w.
Definition uniform_low : Q -> Q -> Q -> Q * Q := fun a _ w => (a, w).
Definition randint_low : Z -> Z -> Q -> Z * Q := fun a _ w => (a, w).
Definition random_half : Q -> Q * Q := fun w => (0.5, w).
Definition json_written : Document -> M Q string :=
  fun _ => ret "output/scan_processed.json".
Definition json_disk_full : Document -> M Q string :=
  fun _ => raise "No space left on device".
Definition log_dropped : Document -> CRM.Response.t + string -> Q -> Q :=
  fun _ _ w => w.

Definition submit : Document -> M Q CRM.SubmissionResult :=
  CRM.submit_document ticking no_sleep uniform_low randint_low random_half
    json_written log_dropped.

(** A pipeline whose stage number [broken] fails: 0 the OCR, 1 the OCR
    text is blank, 2 the parser, 3 the validator, 4 the submission; any
    other number and every stage works. *)
Definition pipeline (broken : nat) : Components Q :=
  {| ocr_extract_text := fun _ =>
       if (broken =? 0)%nat then raise "cannot read file"
       else if (broken =? 1)%nat then ret "   "
       else ret sample_text;
     llm_parse_document := fun text filename =>
       if (broken =? 2)%nat then raise "backend unreachable"
       else LLM.parse_document answering text filename;
     validator_validate_document := fun d =>
       if (broken =? 3)%nat then raise "validator crashed"
       else Validator.validate_document ticking d;
     crm_submit_document := fun d =>
       if (broken =? 4)%nat then raise "submission crashed"
       else submit d;
     crm_generate_csv_summary := fun _ => ret "output/submission_summary.csv" |}.

(** A pipeline whose OCR fails on [bad.png] only. *)
Definition picky_pipeline : Components Q :=
  {| ocr_extract_text := fun file_path =>
       if String.eqb (basename file_path) "bad.png" then raise "cannot read file"
       else ret sample_text;
     llm_parse_document := LLM.parse_document answering;
     validator_validate_document := Validator.validate_document ticking;
     crm_submit_document := submit;
     crm_generate_csv_summary := fun _ => ret "output/submission_summary.csv" |}.

(** The four statuses of a submission outcome in the specification. *)
Definition crm_statuses : list string :=
  ["accepted"; "rejected"; "pending_review"; "failed"].

Definition silent_callback : nat -> nat -> string -> M Q unit :=
  fun _ _ _ => ret tt.

Definition three_files : list string := ["in/a.pdf"; "in/bad.png"; "in/c.jpg"].

End Stubs.

(** ** The fields that the validation rules read *)

Module Fields.
Import PyStr.

(** The text fields as the rules read them: an absent key reads as the
    empty string. *)
Definition ein_of (d : Document) : string := get (ein_or_ssn d) "".
Definition amount_of (d : Document) : string := get (requested_amount d) "".
Definition merchant_of (d : Document) : string := get (merchant_name d) "".
Definition doctype_of (d : Document) : string := get (document_type d) "".
Definition street_of (d : Document) : string :=
  get (street (get (address d) no_address)) "".
Definition city_of (d : Document) : string :=
  get (city (get (address d) no_address)) "".
Definition state_of (d : Document) : string :=
  get (state (get (address d) no_address)) "".
Definition zip_of (d : Document) : string :=
  get (zip (get (address d) no_address)) "".
Definition phone_of (d : Document) : string :=
  get (phone (get (contact_info d) no_contact_info)) "".
Definition email_of (d : Document) : string :=
  get (email (get (contact_info d) no_contact_info)) "".

(** The number of decimal digits and of dots in a string. *)
Definition digit_count (s : string) : nat := String.length (keep is_digit s).
Definition dot_count (s : string) : nat := String.length (keep (Ascii.eqb ".") s).

(** The characters left by [re.sub(r'[^\d.]', '', s)]. *)
Definition digit_or_dot (c : ascii) : bool := is_digit c || Ascii.eqb c ".".

(** [s.isascii()]: every character is below 128. *)
Definition is_ascii (c : ascii) : bool := (code c <? 128)%nat.
Definition isascii (s : string) : bool := forallb_str is_ascii s.

(** The record with every absent key of the candidate schema set to its
    empty default: the empty string, and for a nested dictionary the
    dictionary of empty strings. *)
Definition filled (field : option string) : option string :=
  Some (get field "").

Definition with_defaults (d : Document) : Document :=
  let a := get (address d) no_address in
  let c := get (contact_info d) no_contact_info in
  {| merchant_name := filled (merchant_name d);
     ein_or_ssn := filled (ein_or_ssn d);
     document_type := filled (document_type d);
     address :=
       Some (mkAddress (filled (street a)) (filled (city a))
               (filled (state a)) (filled (zip a)));
     contact_info := Some (mkContactInfo (filled (phone c)) (filled (email c)));
     business_info := business_info d;
     requested_amount := filled (requested_amount d);
     source_file := source_file d;
     confidence_score := confidence_score d;
     flagged_issues := Some (get (flagged_issues d) []);
     validation_status := validation_status d;
     requires_human_review := requires_human_review d;
     validation_timestamp := validation_timestamp d |}.

End Fields.

(** ** The rules as a function of the fields they read *)

Module Rules.
Import PyStr Validator.

(** The issues raised for given values of the ten fields, in the order of
    the rules. *)
Definition issues_of (ein zip amount phone email state merchant doctype
                      street city : string) : list string :=
  (issue_if (negb (_validate_ein_ssn ein))
     ("Invalid EIN/SSN format: '" ++ ein ++ "' (must be exactly 9 digits)")
   ++ issue_if (negb (_validate_zip zip))
        ("Invalid ZIP code: '" ++ zip ++ "' (must be exactly 5 digits)")
   ++ issue_if (truthy amount && negb (_validate_amount amount))
        ("Invalid requested amount: '" ++ amount ++ "' (must be numeric)")
   ++ issue_if (truthy phone && negb (_validate_phone phone))
        ("Invalid phone format: '" ++ phone ++ "' (must be 10 digits)")
   ++ issue_if (truthy email && negb (_validate_email email))
        ("Invalid email format: '" ++ email ++ "'")
   ++ issue_if (truthy state && negb (_validate_state state))
        ("Invalid state: '" ++ state ++ "' (must be 2-letter abbreviation)")
   ++ issue_if (negb (truthy (strip merchant)))
        "Missing required field: merchant_name"
   ++ issue_if (negb (truthy (strip doctype)))
        "Missing required field: document_type"
   ++ issue_if ((truthy street || truthy city || truthy state || truthy zip)
                && negb (truthy street && truthy city && truthy state && truthy zip))
        "Incomplete address information")%list.

End Rules.

(** ** The language of a regular expression *)

Module RegexLanguage.
Import Regex.

(** [matches r s]: the string [s] is in the language of [r]. *)
Inductive matches : re -> string -> Prop :=
| MEps : matches Eps EmptyString
| MClass (p : ascii -> bool) (c : ascii) :
    p c = true -> matches (Class p) (String c EmptyString)
| MSeq (a b : re) (s t : string) :
    matches a s -> matches b t -> matches (Seq a b) (s ++ t)
| MAltL (a b : re) (s : string) : matches a s -> matches (Alt a b) s
| MAltR (a b : re) (s : string) : matches b s -> matches (Alt a b) s
| MStarNil (a : re) : matches (Star a) EmptyString
| MStarApp (a : re) (s t : string) :
    matches a s -> matches (Star a) t -> matches (Star a) (s ++ t).

End RegexLanguage.

(** ** The shape of an email address *)

Module EmailShape.
Import PyStr Validator.

(** [s] reads [local@domain.tld], with the characters that the pattern of
    [_validate_email] allows in each part. *)
Definition well_formed (s local domain tld : string) : Prop :=
  s = local ++ "@" ++ domain ++ "." ++ tld
  /\ local <> "" /\ forallb_str local_char local = true
  /\ domain <> "" /\ forallb_str domain_char domain = true
  /\ (2 <= String.length tld)%nat /\ forallb_str is_alpha_az tld = true.

End EmailShape.

(** ** [validator.py]: [get_validation_summary] *)

Module Summary.

(** The dictionary returned for a non-empty list of documents. *)
Record ValidationSummary : Type := mkValidationSummary {
  total_documents : nat;
  validation_passed : nat;
  validation_failed : nat;
  needs_review : nat;
  pass_rate : Q;
  average_confidence : float;
  common_issues : list (string * nat)
}.

(** [n / m] on numbers. *)
Definition ratio (n : Q) (m : nat) : Q := n / inject_Z (Z.of_nat m).

Definition of_nat (n : nat) : Q := inject_Z (Z.of_nat n).

(** [sum(1 for doc in docs if test(doc))] *)
Definition count_if {A : Type} (test : A -> bool) (docs : list A) : nat :=
  List.length (filter test docs).

(** [sum(values)] on numbers, from 0. *)
Definition total_of (values : list Q) : Q := fold_left Qplus values 0.

(** [common_issues[issue] = common_issues.get(issue, 0) + 1] on a
    dictionary kept in the order in which its keys were first set. *)
Fixpoint bump (issue : string) (counts : list (string * nat)) : list (string * nat) :=
  match counts with
  | [] => [(issue, 1%nat)]
  | (key, n) :: rest =>
      if String.eqb key issue then (key, S n) :: rest
      else (key, n) :: bump issue rest
  end.

(** The dictionary [common_issues] after the two loops. *)
Definition tally (docs : list Document) : list (string * nat) :=
  fold_left (fun counts issue => bump issue counts)
    (flat_map (fun doc => get (flagged_issues doc) []) docs) [].

(** [sorted(items, key=lambda x: x[1], reverse=True)]: the sort is stable,
    items with equal counts keep their order. *)
Fixpoint insert_by_count (item : string * nat) (sorted : list (string * nat))
  : list (string * nat) :=
  match sorted with
  | [] => [item]
  | other :: rest =>
      if (snd item <? snd other)%nat then other :: insert_by_count item rest
      else item :: other :: rest
  end.

Definition sorted_by_count (items : list (string * nat)) : list (string * nat) :=
  fold_right insert_by_count [] items.

Section WithSum.
(** The built-in [sum] on the confidence scores: the summation of floats of
    the interpreter, which runs from the left, starting from 0, and is
    compensated from Python 3.12 on. *)
Variable sum_floats : list float -> float.

Definition get_validation_summary (processed_documents : list Document)
  : option ValidationSummary :=
  let total_docs := List.length processed_documents in
  if (total_docs =? 0)%nat then None
  else
    let passed :=
      count_if (fun doc => match validation_status doc with
                           | Some passed => true
                           | _ => false
                           end) processed_documents in
    let failed := (total_docs - passed)%nat in
    let needs_review :=
      count_if (fun doc => get (requires_human_review doc) false)
        processed_documents in
    let avg_confidence :=
      (sum_floats (map (fun doc => get (confidence_score doc) 0%float)
                     processed_documents)
       / float_of_nat total_docs)%float in
    let common_issues := tally processed_documents in
    Some {| total_documents := total_docs;
            validation_passed := passed;
            validation_failed := failed;
            needs_review := needs_review;
            pass_rate := if (0 <? total_docs)%nat
                         then ratio (of_nat passed) total_docs else 0;
            average_confidence := avg_confidence;
            common_issues := firstn 5 (sorted_by_count common_issues) |}.
End WithSum.

End Summary.

(** ** [crm_submit.py]: [get_submission_stats] *)

Module SubmissionLog.

(** One line of the log file, as the loop meets it: a line that is not
    JSON; an entry, with the status of its submission result (["unknown"]
    when it has none); a JSON value of another shape, on which the lookup
    of the status raises; or the failure of the read itself. *)
Inductive LogLine : Type :=
| Malformed
| Entry (status : string)
| Unexpected
| ReadError.

Record Stats : Type := mkStats {
  total : nat;
  accepted : nat;
  rejected : nat;
  failed : nat;
  pending : nat
}.

Definition no_stats : Stats := mkStats 0 0 0 0 0.

(** [stats["total"] += 1] *)
Definition counted (s : Stats) : Stats :=
  mkStats (S (total s)) (accepted s) (rejected s) (failed s) (pending s).

(** The chain of tests on the status. *)
Definition filed (status : string) (s : Stats) : Stats :=
  if String.eqb status "accepted"
  then mkStats (total s) (S (accepted s)) (rejected s) (failed s) (pending s)
  else if String.eqb status "rejected"
  then mkStats (total s) (accepted s) (S (rejected s)) (failed s) (pending s)
  else if String.eqb status "pending_review"
  then mkStats (total s) (accepted s) (rejected s) (failed s) (S (pending s))
  else mkStats (total s) (accepted s) (rejected s) (S (failed s)) (pending s).

(** The loop over the lines: a line that is not JSON is skipped; any other
    exception ends the loop, and the counts so far are returned. *)
Fixpoint read_lines (lines : list LogLine) (stats : Stats) : Stats :=
  match lines with
  | [] => stats
  | Malformed :: rest => read_lines rest stats
  | Entry status :: rest => read_lines rest (filed status (counted stats))
  | Unexpected :: _ => counted stats
  | ReadError :: _ => stats
  end.

(** [log] is [None] when the log file does not exist. *)
Definition get_submission_stats (log : option (list LogLine)) : Stats :=
  match log with
  | None => no_stats
  | Some lines => read_lines lines no_stats
  end.

End SubmissionLog.

(** ** [pipeline.py]: [get_processing_statistics] *)

Module Statistics.
Import Pipeline.

Record Processing : Type := mkProcessing {
  total_documents : nat;
  successful : nat;
  failed : nat;
  success_rate : Q;
  average_processing_time : Q
}.

Record Report : Type := mkReport {
  processing : Processing;
  validation : option Summary.ValidationSummary;
  submission : SubmissionLog.Stats
}.

(** [doc.get('processing_status') == 'completed'] *)
Definition is_completed (doc : DocumentResult) : bool :=
  String.eqb (processing_status doc) "completed".

(** The validated data of the completed documents, which are the
    dictionaries given to [get_validation_summary]. *)
Definition completed_data (docs : list DocumentResult) : list Document :=
  flat_map (fun doc =>
              match doc with
              | Completed validated_data _ _ => [validated_data]
              | Failed _ _ _ _ => []
              end)
    (filter is_completed docs).

(** [doc.get('processing_time_seconds', 0)] *)
Definition time_of (doc : DocumentResult) : Q :=
  match doc with
  | Completed _ _ seconds => seconds
  | Failed _ _ _ seconds => get seconds 0
  end.

Section WithLog.
Context {W : Type}.
(** The built-in [sum] on floats, for the validation summary. *)
Variable sum_floats : list float -> float.
(** [self.crm.get_submission_stats()], which reads the log file. *)
Variable crm_get_submission_stats : W -> SubmissionLog.Stats * W.

Definition get_processing_statistics (processed_documents : list DocumentResult)
  : M W (option Report) :=
  match processed_documents with
  | [] => ret None
  | _ :: _ =>
      let total_count := List.length processed_documents in
      let successful := Summary.count_if is_completed processed_documents in
      let failed := (total_count - successful)%nat in
      let validation_stats :=
        Summary.get_validation_summary sum_floats
          (completed_data processed_documents) in
      submission_stats <- total crm_get_submission_stats ;;
      let avg_processing_time :=
        if (0 <? total_count)%nat
        then Summary.ratio (Summary.total_of (map time_of processed_documents))
               total_count
        else 0 in
      ret (Some {| processing :=
                     {| total_documents := total_count;
                        successful := successful;
                        failed := failed;
                        success_rate :=
                          if (0 <? total_count)%nat
                          then Summary.ratio (Summary.of_nat successful) total_count
                          else 0;
                        average_processing_time := avg_processing_time |};
                   validation := validation_stats;
                   submission := submission_stats |})
  end.
End WithLog.

End Statistics.

(** ** Counting the issues of a list of documents *)

Module Issues.

(** Every issue flagged on the documents, in order. *)
Definition all_issues (docs : list Document) : list string :=
  flat_map (fun doc => get (flagged_issues doc) []) docs.

(** How many times an issue is flagged on the documents. *)
Definition occurrences (issue : string) (docs : list Document) : nat :=
  Summary.count_if (String.eqb issue) (all_issues docs).

(** The count held for a key in a dictionary of counts. *)
Definition count_for (key : string) (counts : list (string * nat)) : nat :=
  list_sum (map snd (filter (fun e => String.eqb (fst e) key) counts)).

(** The order of the listing: the larger count first. *)
Definition by_count (a b : string * nat) : Prop := (snd b <= snd a)%nat.

End Issues.

(** ** The response of the mock CRM against the record *)

Module Decision.

(** How the response depends on the record. *)
Definition decided (parsed_data : Document) (resp : CRM.Response.t) : Prop :=
  let confidence := get (confidence_score parsed_data) 0.5%float in
  (CRM.Response.status resp = "rejected"
   <-> validation_status parsed_data = Some failed)
  /\ (CRM.Response.status resp = "pending_review"
      <-> validation_status parsed_data <> Some failed
          /\ PrimFloat.ltb confidence 0.3%float = true)
  /\ (CRM.Response.status resp = "accepted" \/ CRM.Response.status resp = "failed"
      <-> validation_status parsed_data <> Some failed
          /\ PrimFloat.ltb confidence 0.3%float = false)
  /\ (CRM.Response.crm_id resp <> None
      <-> CRM.Response.status resp = "accepted"
          \/ CRM.Response.status resp = "pending_review")
  /\ (CRM.Response.retry_suggested resp = Some true
      <-> CRM.Response.status resp = "failed")
  /\ (CRM.Response.reason resp = None <-> CRM.Response.status resp = "accepted").

End Decision.

(** ** The pipeline with its own components *)

Module Assembly.
Import Pipeline.

Section WithOutside.
Context {W : Type}.
(** [OCRProcessor.extract_text] and the text generator of the parser *)
Variable extract_text : string -> M W string.
Variable generator : string -> M W LLM.Response.
(** [datetime.now()], [time.sleep] and the random draws *)
Variable now : W -> Time * W.
Variable sleep : Q -> W -> W.
Variable random_uniform : Q -> Q -> W -> Q * W.
Variable random_randint : Z -> Z -> W -> Z * W.
Variable random_random : W -> Q * W.
(** The files written by the submitter *)
Variable _generate_json_file : Document -> M W string.
Variable _log_submission : Document -> CRM.Response.t + string -> W -> W.
Variable generate_csv_summary : list DocumentResult -> M W string.

(** The components as [DocumentPipeline.__init__] sets them: the parser,
    the validator and the submitter of this program, around the OCR. *)
Definition components : Components W :=
  {| ocr_extract_text := extract_text;
     llm_parse_document := LLM.parse_document generator;
     validator_validate_document := Validator.validate_document now;
     crm_submit_document :=
       CRM.submit_document now sleep random_uniform random_randint
         random_random _generate_json_file _log_submission;
     crm_generate_csv_summary := generate_csv_summary |}.
End WithOutside.

End Assembly.

(** ** Results against the names of their files *)

Module Named.
Import PyStr Pipeline.



End Named.

(** ** A paragraph over the budget of a chunk *)

Module LongText.
Import PyStr.

(** 513 words. *)
Definition long_paragraph : string := join " " (repeat "word" 513).

(** The long paragraph, a blank line, and a short paragraph. *)
Definition long_then_short : string :=
  long_paragraph ++ LLM.blank_line ++ "Acme Corp".

End LongText.

(** ** [crm_submit.py]: the submitter with its log file *)

Module LogFile.
Import CRM SubmissionLog Instrumented.

(** The log file as the lines it holds, each as the loop of
    [get_submission_stats] meets it; [None] when the file does not exist. *)
Definition File : Type := option (list LogLine).

(** The status under the key ["submission_result"] of a log entry: that of
    the response of the CRM, or ["failed"] in the entry written after an
    exception. *)
Definition logged_status (result : Response.t + string) : string :=
  match result with
  | inl response => Response.status response
  | inr _ => "failed"
  end.

Section WithOutside.
Context {W : Type}.
Variable now : W -> Time * W.
Variable sleep : Q -> W -> W.
Variable random_uniform : Q -> Q -> W -> Q * W.
Variable random_randint : Z -> Z -> W -> Z * W.
Variable random_random : W -> Q * W.
Variable _generate_json_file : Document -> M W string.
(** Whether the log file can be opened and written. *)
Variable writable : W -> bool.

(** [_log_submission]: the entry is appended to the file, which is made
    when it does not exist; when the file cannot be written the exception
    is reported and the file is left as it was. *)
Definition _log_submission (parsed_data : Document)
    (result : Response.t + string) (world : W * File) : W * File :=
  let (w, file) := world in
  let (timestamp, w) := now w in
  if writable w
  then (w, Some (get file [] ++ [Entry (logged_status result)])%list)
  else (w, file).

(** [submit_document] in a world that holds the log file. *)
Definition submit_and_log : Document -> M (W * File) SubmissionResult :=
  CRM.submit_document (lift_total now)
    (fun seconds => lift_effect (sleep seconds))
    (fun a b => lift_total (random_uniform a b))
    (fun a b => lift_total (random_randint a b))
    (lift_total random_random)
    (fun parsed_data => lift (_generate_json_file parsed_data))
    _log_submission.
End WithOutside.

(** The status under which a result is logged. *)
Definition counted_status (r : SubmissionResult) : string :=
  match crm_response r with
  | Some response => Response.status response
  | None => "failed"
  end.

(** A log that is read to its end: no line stops the loop. *)
Definition read_through (file : File) : bool :=
  forallb (fun line => match line with
                       | Unexpected | ReadError => false
                       | Malformed | Entry _ => true
                       end)
    (get file []).

(** A log with a line that is not JSON between two entries. *)
Definition sample_log : File :=
  Some [Entry "accepted"; Malformed; Entry "rejected"].

(** The example submitter with the log always writable. *)
Definition sample_submit : Document -> M (Q * File) SubmissionResult :=
  submit_and_log Stubs.ticking Stubs.no_sleep Stubs.uniform_low Stubs.randint_low
    Stubs.random_half Stubs.json_written (fun _ => true).

End LogFile.

(** ** Summaries of validated documents *)

Module Batch.

(** The records of a batch after validation, each with the reading of the
    clock at its validation. *)
Definition validated_all (batch : list (Document * Time)) : list Document :=
  map (fun item => Validator.validated (fst item) (snd item)) batch.

(** A record that arrives without issues, as the parser makes it. *)
Definition fresh (d : Document) : bool :=
  match get (flagged_issues d) [] with
  | [] => true
  | _ :: _ => false
  end.

End Batch.

(** * Properties *)

(** ** The models on small inputs *)

Module Examples.
Import PyStr Validator LLM Samples.

Example strip_both_ends : strip "  a b  " = "a b".
Proof. reflexivity. Qed.

Example collapse_runs :
  collapse_ws (String "a" (String " " (String LF (String "b" " ")))) = "a b ".
Proof. reflexivity. Qed.

Example split_on_colon : split ":" "a:b::c" = ["a"; "b"; ""; "c"].
Proof. reflexivity. Qed.

Example split_no_overlap : split "aa" "aaa" = [""; "a"].
Proof. reflexivity. Qed.

Example split_empty : split blank_line "" = [""].
Proof. reflexivity. Qed.

Example split_words : split_ws "  ab  c d " = ["ab"; "c"; "d"].
Proof. reflexivity. Qed.

Example upper_then_strip : strip (upper " ma ") = "MA".
Proof. reflexivity. Qed.

Example basename_of_path : basename "in/a/scan.pdf" = "scan.pdf".
Proof. reflexivity. Qed.

Example two_paragraphs :
  _chunk_text (String "a" (String " " (String "b" (blank_line ++ "c")))) = ["a b c"].
Proof. reflexivity. Qed.

Example ein_with_dashes : _validate_ein_ssn "123-45-6789" = true.
Proof. reflexivity. Qed.

Example amount_with_two_dots : _validate_amount "1.2.3" = false.
Proof. reflexivity. Qed.

Example amount_with_currency : _validate_amount "$1,234.50" = true.
Proof. reflexivity. Qed.

Example email_ok : _validate_email "a.b@c-d.com" = true.
Proof. reflexivity. Qed.

Example email_short_tld : _validate_email "a.b@c-d.c" = false.
Proof. reflexivity. Qed.

Example state_lower_case : _validate_state "ma" = true.
Proof. reflexivity. Qed.

(** A record that breaks no rule raises no issue. *)
Example acme_passes : validation_issues acme = [].
Proof. reflexivity. Qed.

(** City, state and ZIP code without a street: the address is incomplete. *)
Example address_without_street :
  any_value (mkAddress (Some "") (Some "Boston") (Some "MA") (Some "02134"))
  && negb (all_values (mkAddress (Some "") (Some "Boston") (Some "MA") (Some "02134")))
  = true.
Proof. reflexivity. Qed.

(** When the JSON file cannot be written the submission is reported as
    failed, with the message of the file system. *)
Example submit_with_disk_full :
  fst (CRM.submit_document Stubs.ticking Stubs.no_sleep Stubs.uniform_low
         Stubs.randint_low Stubs.random_half Stubs.json_disk_full
         Stubs.log_dropped acme 0)
  = Ok (CRM.mkSubmissionResult "failed" None None (Some "No space left on device")).
Proof. reflexivity. Qed.

(** An address with nothing in it is not incomplete. *)
Example address_all_empty :
  any_value (mkAddress (Some "") (Some "") (Some "") (Some "")) = false.
Proof. reflexivity. Qed.

End Examples.

(** ** Comparisons of floats *)

Module FloatFacts.




End FloatFacts.

(** ** The validation engine *)

Module ValidatorFacts.
Import Validator Samples.

Lemma validate_document_runs {W} (now : W -> Time * W) (d : Document) (w : W) :
  validate_document now d w = (Ok (validated d (fst (now w))), snd (now w)).
Proof.
  unfold validate_document, bind, total, ret.
  destruct (now w) as [t w']; reflexivity.
Qed.

Lemma length_app_lt {A} (l new : list A) :
  (List.length l < List.length (l ++ new))%nat <-> new <> [].
Proof.
  rewrite length_app. destruct new as [|x new]; simpl; split; intro H.
  - lia.
  - congruence.
  - discriminate.
  - lia.
Qed.

(** C2, as the code has it: validation always returns a record; the issues
    that came with the record stay in front and the issues of this pass
    follow; the status is [failed] exactly when this pass added an issue,
    that is when the list of issues grew; and the review flag tells
    whether the resulting list is non-empty. *)
Theorem C2_status_follows_new_issues :
  forall (W : Type) (now : W -> Time * W) (d : Document) (w : W),
  exists (r : Document) (w' : W),
    validate_document now d w = (Ok r, w')
    /\ flagged_issues r = Some (get (flagged_issues d) [] ++ validation_issues d)%list
    /\ (validation_status r = Some failed
        <-> (List.length (get (flagged_issues d) [])
             < List.length (get (flagged_issues r) []))%nat)
    /\ (validation_status r = Some passed
        <-> get (flagged_issues r) [] = get (flagged_issues d) [])
    /\ requires_human_review r
       = Some (0 <? List.length (get (flagged_issues r) []))%nat.
Proof.
  intros W now d w.
  exists (validated d (fst (now w))), (snd (now w)).
  split; [apply validate_document_runs|].
  split; [reflexivity|].
  cbn [validated flagged_issues validation_status requires_human_review get].
  rewrite length_app_lt.
  destruct (validation_issues d) as [|issue rest] eqn:E.
  - rewrite app_nil_r. repeat split; try reflexivity; intros; congruence.
  - repeat split; try reflexivity; intros H; try congruence.
    exfalso. apply (f_equal (@List.length string)) in H.
    rewrite length_app in H. simpl in H. lia.
Qed.

(** C2, the claim as stated fails: a record that breaks no rule but
    arrives with an issue already flagged leaves validation with a
    non-empty list of issues and the status [passed]. *)
Lemma C2_counterexample :
  exists r : Document,
    validate_document frozen_clock acme_flagged tt = (Ok r, tt)
    /\ ~ (validation_status r = Some failed
          <-> get (flagged_issues r) [] <> []).
Proof.
  eexists. split; [reflexivity|].
  cbn. intros [_ H].
  assert (Hne : ["Low OCR quality"] <> @nil string) by discriminate.
  specialize (H Hne). discriminate.
Qed.






(** C4, as the code has it: on the record of the example, whatever its
    confidence, validation raises six issues, the five of the example in
    the order of the rules and then the incomplete address (state and ZIP
    code are given, street and city are not); the status is [failed], the
    record goes to review and the confidence is the input less 0.4, and
    at least 0.1. *)
Theorem C4_example_raises_six_issues :
  forall (W : Type) (now : W -> Time * W) (w : W) (confidence : float),
  exists (r : Document) (w' : W),
    validate_document now (five_rules confidence) w = (Ok r, w')
    /\ flagged_issues r
       = Some (five_issues ++ ["Incomplete address information"])%list
    /\ validation_status r = Some failed
    /\ requires_human_review r = Some true
    /\ confidence_score r
       = Some (py_max (confidence - 0.4)%float 0.1%float).
Proof.
  intros W now w confidence.
  exists (validated (five_rules confidence) (fst (now w))), (snd (now w)).
  split; [apply validate_document_runs|].
  repeat split; reflexivity.
Qed.

(** C4, the claim as stated fails: with confidence 0.7 the example does
    not end with exactly the five issues of the claim; a sixth one, the
    incomplete address, follows them. *)
Lemma C4_counterexample :
  exists r : Document,
    validate_document frozen_clock (five_rules 0.7%float) tt = (Ok r, tt)
    /\ flagged_issues r <> Some five_issues
    /\ List.length (get (flagged_issues r) []) = 6%nat.
Proof.
  eexists. split; [reflexivity|]. split; [discriminate|reflexivity].
Qed.




(** C10: two validations of equal records, in any two worlds and at any
    two times, both return, with the same list of issues in the same
    order and the same confidence. *)
Theorem C10_validate_deterministic :
  forall (W1 W2 : Type) (now1 : W1 -> Time * W1) (now2 : W2 -> Time * W2)
         (d : Document) (w1 : W1) (w2 : W2),
  exists (r1 r2 : Document) (w1' : W1) (w2' : W2),
    validate_document now1 d w1 = (Ok r1, w1')
    /\ validate_document now2 d w2 = (Ok r2, w2')
    /\ flagged_issues r1 = flagged_issues r2
    /\ confidence_score r1 = confidence_score r2
    /\ validation_status r1 = validation_status r2
    /\ requires_human_review r1 = requires_human_review r2.
Proof.
  intros W1 W2 now1 now2 d w1 w2.
  exists (validated d (fst (now1 w1))), (validated d (fst (now2 w2))),
    (snd (now1 w1)), (snd (now2 w2)).
  split; [apply validate_document_runs|].
  split; [apply validate_document_runs|].
  repeat split; reflexivity.
Qed.

End ValidatorFacts.

(** ** Strings: white space, colons and words *)

Module PyStrFacts.
Import PyStr.

Lemma truthy_rstrip (s : string) : truthy (rstrip s) = existsb_str nonspace s.
Proof.
  induction s as [|c s IH]; [reflexivity|].
  cbn [rstrip existsb_str]. unfold nonspace at 1.
  destruct (is_space c); cbn [negb andb orb].
  - rewrite <- IH. destruct (rstrip s); reflexivity.
  - reflexivity.
Qed.

Lemma truthy_collapse_true (s : string) :
  truthy (collapse_from true s) = existsb_str nonspace s.
Proof.
  induction s as [|c s IH]; [reflexivity|].
  cbn [collapse_from existsb_str]. unfold nonspace at 1.
  destruct (is_space c); cbn [negb orb truthy]; [exact IH | reflexivity].
Qed.

Lemma existsb_rstrip (s : string) :
  existsb_str nonspace (rstrip s) = existsb_str nonspace s.
Proof.
  induction s as [|c s IH]; [reflexivity|].
  cbn [rstrip]. destruct (is_space c) eqn:Ec; cbn [andb].
  - destruct (truthy (rstrip s)) eqn:Et; cbn [negb].
    + cbn [existsb_str]. now rewrite IH.
    + cbn [existsb_str]. change (nonspace c) with (negb (is_space c)).
      rewrite Ec. cbn [negb orb].
      rewrite <- truthy_rstrip. now rewrite Et.
  - cbn [existsb_str]. now rewrite IH.
Qed.

(** After a run of white space, the run that opens the rest is dropped
    either way. *)
Lemma lstrip_collapse_run (b : bool) (s : string) :
  lstrip (collapse_from b s) = lstrip (collapse_from true s).
Proof.
  destruct b; [reflexivity|].
  destruct s as [|c s]; [reflexivity|].
  cbn [collapse_from]. destruct (is_space c) eqn:Ec; [|reflexivity].
  reflexivity.
Qed.

Lemma collapse_lstrip (s : string) :
  collapse_ws (lstrip s) = lstrip (collapse_ws s).
Proof.
  unfold collapse_ws.
  induction s as [|c s IH]; [reflexivity|].
  cbn [lstrip collapse_from]. destruct (is_space c) eqn:Ec.
  - rewrite IH. cbn [lstrip]. change (is_space " ") with true. cbn iota.
    now rewrite lstrip_collapse_run.
  - cbn [collapse_from lstrip]. now rewrite Ec.
Qed.

Lemma collapse_rstrip (b : bool) (s : string) :
  collapse_from b (rstrip s) = rstrip (collapse_from b s).
Proof.
  revert b. induction s as [|c s IH]; intro b; [reflexivity|].
  cbn [rstrip collapse_from]. destruct (is_space c) eqn:Ec; cbn [andb].
  - destruct (truthy (rstrip s)) eqn:Et; cbn [negb].
    + cbn [collapse_from]. rewrite Ec. destruct b.
      * apply IH.
      * cbn [rstrip]. change (is_space " ") with true. cbn [andb].
        rewrite <- IH.
        assert (Hne : truthy (collapse_from true (rstrip s)) = true).
        { rewrite truthy_collapse_true, existsb_rstrip, <- truthy_rstrip.
          exact Et. }
        rewrite Hne. reflexivity.
    + cbn [collapse_from]. destruct b.
      * rewrite <- IH. destruct (rstrip s); [reflexivity | discriminate].
      * cbn [rstrip]. change (is_space " ") with true. cbn [andb].
        rewrite <- IH. destruct (rstrip s); [reflexivity | discriminate].
  - cbn [collapse_from rstrip]. rewrite Ec. cbn [andb]. now rewrite IH.
Qed.

(** Trimming and then collapsing the runs of white space is collapsing
    and then trimming. *)
Lemma collapse_strip (s : string) :
  collapse_ws (strip s) = strip (collapse_ws s).
Proof.
  unfold strip, collapse_ws.
  rewrite collapse_rstrip. f_equal. apply collapse_lstrip.
Qed.

Lemma contains_lstrip (c : ascii) (s : string) :
  contains c s = false -> contains c (lstrip s) = false.
Proof.
  unfold contains. induction s as [|a s IH]; [reflexivity|].
  cbn [existsb_str lstrip]. intro H. apply orb_false_iff in H as [Ha Hs].
  destruct (is_space a); [auto|].
  cbn [existsb_str]. now rewrite Ha, Hs.
Qed.

Lemma contains_rstrip (c : ascii) (s : string) :
  contains c s = false -> contains c (rstrip s) = false.
Proof.
  unfold contains. induction s as [|a s IH]; [reflexivity|].
  cbn [existsb_str rstrip]. intro H. apply orb_false_iff in H as [Ha Hs].
  destruct (is_space a && negb (truthy (rstrip s))); [reflexivity|].
  cbn [existsb_str]. rewrite Ha. cbn [orb]. auto.
Qed.

Lemma contains_collapse (c : ascii) (b : bool) (s : string) :
  Ascii.eqb c " " = false ->
  contains c s = false -> contains c (collapse_from b s) = false.
Proof.
  unfold contains. intros Hsp. revert b.
  induction s as [|a s IH]; intros b H; [reflexivity|].
  cbn [existsb_str] in H. apply orb_false_iff in H as [Ha Hs].
  cbn [collapse_from]. destruct (is_space a).
  - destruct b; [auto|]. cbn [existsb_str]. rewrite Hsp. cbn [orb]. auto.
  - cbn [existsb_str]. rewrite Ha. cbn [orb]. auto.
Qed.

(** Splitting on a colon: the first piece has no colon; with no further
    piece the string is that piece, otherwise the string ends with a
    colon and the last piece, which has no colon. *)
Lemma split_colon (s : string) :
  let (p, ps) := split_from ":" 0 s in
  contains ":" p = false
  /\ match ps with
     | [] => s = p
     | _ :: _ =>
         forall d, exists before,
           s = before ++ ":" ++ List.last ps d
           /\ contains ":" (List.last ps d) = false
     end.
Proof.
  induction s as [|c s IH]; [split; reflexivity|].
  cbn [split_from prefix String.length Nat.sub].
  destruct (split_from ":" 0 s) as [p ps].
  destruct IH as [Hp Hps].
  assert (Hpre : prefix EmptyString s = true) by (destruct s; reflexivity).
  destruct (ascii_dec ":" c) as [<-|Hc].
  - rewrite Hpre. split; [reflexivity|].
    intro d. destruct ps as [|q qs].
    + exists EmptyString. subst s. split; [reflexivity | exact Hp].
    + destruct (Hps d) as (before & Hs & Hlast).
      exists (String ":" before). split; [|exact Hlast].
      change (List.last (p :: q :: qs) d) with (List.last (q :: qs) d).
      rewrite Hs at 1. reflexivity.
  - split.
    + unfold contains. cbn [existsb_str].
      apply Ascii.eqb_neq in Hc. rewrite Hc. exact Hp.
    + destruct ps as [|q qs]; [now subst s|].
      intro d. destruct (Hps d) as (before & Hs & Hlast).
      exists (String c before). split; [|exact Hlast].
      rewrite Hs at 1. reflexivity.
Qed.

End PyStrFacts.

(** ** The field extractor *)

Module CleanFacts.
Import PyStr PyStrFacts LLM AsSpecified.

(** C9, as the code has it: the post-processing keeps what follows the
    last colon of the completion (the whole completion when it has no
    colon), a text [rest] without colon; the result is [rest] with its
    runs of white space collapsed to one space and trimmed, in either
    order. *)
Theorem C9_clean_keeps_after_last_colon :
  forall text : string,
  exists rest : string,
    (text = rest \/ exists before, text = before ++ ":" ++ rest)
    /\ contains ":" rest = false
    /\ _clean_response text = strip (collapse_ws rest)
    /\ _clean_response text = collapse_ws (strip rest)
    /\ contains ":" (_clean_response text) = false.
Proof.
  intro text. unfold _clean_response.
  assert (Hclean : forall rest, contains ":" rest = false ->
            contains ":" (collapse_ws (strip rest)) = false).
  { intros rest H. apply contains_collapse; [reflexivity|].
    apply contains_rstrip, contains_lstrip, H. }
  destruct (contains ":" text) eqn:Ecolon.
  - unfold split. pose proof (split_colon text) as H.
    destruct (split_from ":" 0 text) as [p ps]. destruct H as [Hp Hps].
    destruct ps as [|q qs].
    + subst p. congruence.
    + destruct (Hps text) as (before & Htext & Hlast).
      change (List.last (p :: q :: qs) text) with (List.last (q :: qs) text).
      exists (List.last (q :: qs) text).
      split; [right; exists before; exact Htext|].
      split; [exact Hlast|].
      split; [apply collapse_strip|].
      split; [reflexivity | apply Hclean, Hlast].
  - exists text. split; [left; reflexivity|].
    split; [exact Ecolon|].
    split; [apply collapse_strip|].
    split; [reflexivity | apply Hclean, Ecolon].
Qed.

(** C9, the claim as stated fails: of a completion with two colons the
    code keeps what follows the second one, not what follows the first. *)
Lemma C9_counterexample :
  _clean_response "Name: Acme: Inc" = "Inc"
  /\ clean_first_colon "Name: Acme: Inc" = "Acme: Inc"
  /\ _clean_response "Name: Acme: Inc" <> clean_first_colon "Name: Acme: Inc".
Proof.
  split; [reflexivity|]. split; [reflexivity|]. discriminate.
Qed.

End CleanFacts.

Module ChunkFacts.
Import PyStr PyStrFacts LLM Observers.

Lemma cons_word_app (w : string) (ws more : list string) :
  (cons_word w ws ++ more = cons_word w (ws ++ more))%list.
Proof. unfold cons_word. destruct (truthy w); reflexivity. Qed.

Lemma words_from_space (a b : string) :
  words_from (a ++ String " " b)
  = (fst (words_from a), (snd (words_from a) ++ split_ws b)%list).
Proof.
  induction a as [|c a IH].
  - cbn. unfold split_ws. destruct (words_from b); reflexivity.
  - cbn [append words_from]. rewrite IH.
    destruct (words_from a) as [w ws]. cbn [fst snd].
    destruct (is_space c); cbn [fst snd]; [|reflexivity].
    now rewrite cons_word_app.
Qed.

(** The words of two texts joined by a space are the words of the one
    and then the words of the other. *)
Lemma split_ws_space (a b : string) :
  split_ws (a ++ String " " b) = (split_ws a ++ split_ws b)%list.
Proof.
  unfold split_ws at 1 2. rewrite words_from_space.
  destruct (words_from a) as [w ws]. cbn [fst snd].
  now rewrite cons_word_app.
Qed.


Lemma total_words_app (g h : list string) :
  total_words (g ++ h) = (total_words g + total_words h)%nat.
Proof. unfold total_words. now rewrite map_app, list_sum_app. Qed.

(** The loop keeps the paragraphs whole and in order, every chunk it
    closes respects the budget or is one paragraph, and the chunks are
    the groups joined by spaces. *)
Lemma group_loop_spec (max_length : nat) (paragraphs : list string) :
  forall (groups : list (list string)) (current : list string) (len : nat),
    len = total_words current ->
    within_budget max_length current ->
    let gs := group_loop max_length paragraphs groups current len in
    List.concat gs = (List.concat groups ++ current ++ paragraphs)%list
    /\ (Forall (within_budget max_length) groups ->
        Forall (within_budget max_length) gs)
    /\ chunk_loop max_length paragraphs (map (join " ") groups) current len
       = map (join " ") gs.
Proof.
  induction paragraphs as [|para rest IH]; intros groups current len Hlen Hcur.
  - cbn [group_loop chunk_loop]. destruct current as [|p current].
    + rewrite !app_nil_r. auto.
    + rewrite concat_app. cbn [List.concat]. rewrite !app_nil_r.
      split; [reflexivity|]. split.
      * intro H. apply Forall_app. split; [exact H|]. now constructor.
      * now rewrite map_app.
  - cbn [group_loop chunk_loop]. fold (word_count para).
    destruct (max_length <? len + word_count para)%nat eqn:Eover.
    + specialize (IH (groups ++ [current])%list [para] (word_count para)).
      destruct IH as (Hcat & Hall & Hchunks).
      * unfold total_words. cbn. lia.
      * right. now exists para.
      * split; [|split].
        -- rewrite Hcat, concat_app. cbn [List.concat]. rewrite app_nil_r.
           now rewrite <- !app_assoc.
        -- intro H. apply Hall, Forall_app. split; [exact H|]. now constructor.
        -- rewrite <- Hchunks, map_app. reflexivity.
    + apply Nat.ltb_ge in Eover.
      specialize (IH groups (current ++ [para])%list (len + word_count para)%nat).
      destruct IH as (Hcat & Hall & Hchunks).
      * rewrite total_words_app. unfold total_words at 2. cbn. lia.
      * left. rewrite total_words_app. unfold total_words at 2. cbn. lia.
      * split; [|split]; [|exact Hall|exact Hchunks].
        rewrite Hcat, <- !app_assoc. reflexivity.
Qed.


(** The chunks of a text, as groups of its paragraphs. *)
Lemma chunk_text_groups (text : string) (max_length : nat) :
  exists groups : list (list string),
    List.concat groups = split blank_line text
    /\ _chunk_text_with text max_length = map (join " ") groups
    /\ Forall (within_budget max_length) groups.
Proof.
  unfold _chunk_text_with.
  destruct (group_loop_spec max_length (split blank_line text) [] [] 0)
    as (Hcat & Hall & Hchunks); [reflexivity | left; cbn; lia |].
  eexists. split; [exact Hcat|]. split; [exact Hchunks|].
  apply Hall. constructor.
Qed.



Lemma chunk_text_nonempty (text : string) :
  exists chunk rest, _chunk_text text = chunk :: rest.
Proof.
  destruct (chunk_text_groups text 512) as (groups & Hcat & Hchunks & _).
  unfold _chunk_text. rewrite Hchunks.
  destruct groups as [|g groups]; [|cbn; eauto].
  exfalso. cbn in Hcat. unfold split in Hcat.
  destruct (split_from blank_line 0 text). discriminate.
Qed.

End ChunkFacts.

Module ParseFacts.
Import PyStr LLM Observers ChunkFacts.

(** One assignment after the other on a candidate record. *)
Section Stores.
Variable filename : option string.
Variables merchant ein doctype amount street city state zip phone email
          business revenue years volume : string.

Let d : Document :=
  candidate filename merchant ein doctype amount street city state zip
    phone email business revenue years volume.

Lemma initial_candidate :
  initial_data filename
  = candidate filename "" "" "application" "" "" "" "" "" "" "" "" "" "" "".
Proof. reflexivity. Qed.

Lemma store_merchant_name v :
  set_item "merchant_name" v d
  = candidate filename v ein doctype amount street city state zip
      phone email business revenue years volume.
Proof. reflexivity. Qed.

Lemma store_ein_or_ssn v :
  set_item "ein_or_ssn" v d
  = candidate filename merchant v doctype amount street city state zip
      phone email business revenue years volume.
Proof. reflexivity. Qed.

Lemma store_document_type v :
  set_item "document_type" v d
  = candidate filename merchant ein v amount street city state zip
      phone email business revenue years volume.
Proof. reflexivity. Qed.

Lemma store_requested_amount v :
  set_item "requested_amount" v d
  = candidate filename merchant ein doctype v street city state zip
      phone email business revenue years volume.
Proof. reflexivity. Qed.

Lemma store_street o :
  match o with
  | Some v => update_address (set_address_item "street" v) d
  | None => d
  end
  = candidate filename merchant ein doctype amount (get o street) city state
      zip phone email business revenue years volume.
Proof. destruct o; reflexivity. Qed.

Lemma store_city o :
  match o with
  | Some v => update_address (set_address_item "city" v) d
  | None => d
  end
  = candidate filename merchant ein doctype amount street (get o city) state
      zip phone email business revenue years volume.
Proof. destruct o; reflexivity. Qed.

Lemma store_state o :
  match o with
  | Some v => update_address (set_address_item "state" v) d
  | None => d
  end
  = candidate filename merchant ein doctype amount street city (get o state)
      zip phone email business revenue years volume.
Proof. destruct o; reflexivity. Qed.

Lemma store_zip o :
  match o with
  | Some v => update_address (set_address_item "zip" v) d
  | None => d
  end
  = candidate filename merchant ein doctype amount street city state
      (get o zip) phone email business revenue years volume.
Proof. destruct o; reflexivity. Qed.

Lemma store_phone o :
  match o with
  | Some v => update_contact_info (set_contact_item "phone" v) d
  | None => d
  end
  = candidate filename merchant ein doctype amount street city state zip
      (get o phone) email business revenue years volume.
Proof. destruct o; reflexivity. Qed.

Lemma store_email o :
  match o with
  | Some v => update_contact_info (set_contact_item "email" v) d
  | None => d
  end
  = candidate filename merchant ein doctype amount street city state zip
      phone (get o email) business revenue years volume.
Proof. destruct o; reflexivity. Qed.

Lemma store_business_type o :
  match o with
  | Some v => update_business_info (set_business_item "business_type" v) d
  | None => d
  end
  = candidate filename merchant ein doctype amount street city state zip
      phone email (get o business) revenue years volume.
Proof. destruct o; reflexivity. Qed.

Lemma store_annual_revenue o :
  match o with
  | Some v => update_business_info (set_business_item "annual_revenue" v) d
  | None => d
  end
  = candidate filename merchant ein doctype amount street city state zip
      phone email business (get o revenue) years volume.
Proof. destruct o; reflexivity. Qed.

Lemma store_years_in_business o :
  match o with
  | Some v => update_business_info (set_business_item "years_in_business" v) d
  | None => d
  end
  = candidate filename merchant ein doctype amount street city state zip
      phone email business revenue (get o years) volume.
Proof. destruct o; reflexivity. Qed.

Lemma store_processing_volume o :
  match o with
  | Some v => update_business_info (set_business_item "processing_volume" v) d
  | None => d
  end
  = candidate filename merchant ein doctype amount street city state zip
      phone email business revenue years (get o volume).
Proof. destruct o; reflexivity. Qed.
End Stores.

(** The next call of the generator in the goal: either it raises, and
    both sides stop there, or it returns and the run goes on. *)
Ltac next_call generator :=
  match goal with
  | |- context [generator ?prompt ?w] =>
      let r := fresh "r" in
      let e := fresh "e" in
      let w' := fresh "w" in
      destruct (generator prompt w) as [[r|e] w']; cbn beta iota;
      [|reflexivity]
  end.

(** Parsing is the fourteen calls in a row, on the prompts made from the
    first chunk; it raises what the first failing call raises, and
    otherwise returns the record made of the responses. *)
Lemma parse_document_runs {W} (generator : string -> M W Response)
    (text : string) (filename : option string) (w : W) :
  forall chunk rest,
    _chunk_text text = chunk :: rest ->
    parse_document generator text filename w
    = match ask_all generator
              (map (fun key => _get_field_prompt key chunk) prompt_keys) w with
      | (rs, None, w') => (Ok (assemble filename rs), w')
      | (_, Some e, w') => (Raise e, w')
      end.
Proof.
  intros chunk rest Hchunks.
  unfold parse_document. rewrite Hchunks.
  cbv [prompt_keys direct_fields address_fields contact_fields business_fields
       map app for_each ask_all first_chunk try_except bind ret raise].
  do 14 next_call generator.
  rewrite initial_candidate, store_merchant_name, store_ein_or_ssn,
    store_document_type, store_requested_amount, store_street, store_city,
    store_state, store_zip, store_phone, store_email, store_business_type,
    store_annual_revenue, store_years_in_business, store_processing_volume.
  reflexivity.
Qed.
End ParseFacts.

Module ExtractorFacts.
Import PyStr LLM Observers ChunkFacts ParseFacts Generators.

Lemma ask_all_returns {W} (generator : string -> M W Response)
    (prompts : list string) :
  (forall prompt, In prompt prompts ->
     forall w, exists r w', generator prompt w = (Ok r, w')) ->
  forall w, exists rs w',
    ask_all generator prompts w = (rs, None, w')
    /\ List.length rs = List.length prompts.
Proof.
  induction prompts as [|prompt rest IH]; intros Hall w.
  - exists [], w. split; reflexivity.
  - destruct (Hall prompt (or_introl eq_refl) w) as (r & w1 & Hcall).
    destruct (IH (fun p Hp => Hall p (or_intror Hp)) w1) as (rs & w2 & Hrest & Hlen).
    exists (r :: rs), w2. cbn [ask_all]. rewrite Hcall, Hrest.
    split; [reflexivity | cbn; now rewrite Hlen].
Qed.

Lemma ask_all_raises {W} (generator : string -> M W Response)
    (prompts : list string) (failing : string) :
  In failing prompts ->
  (forall w, exists e w', generator failing w = (Raise e, w')) ->
  forall w, exists rs e w', ask_all generator prompts w = (rs, Some e, w').
Proof.
  intros Hin Hfails.
  induction prompts as [|prompt rest IH]; intro w; [contradiction|].
  cbn [ask_all].
  destruct (generator prompt w) as [[r|e] w1] eqn:Hcall.
  - destruct Hin as [->|Hin].
    + destruct (Hfails w) as (e & w' & He). congruence.
    + destruct (IH Hin w1) as (rs & e & w2 & Hrest).
      rewrite Hrest. now exists (r :: rs), e, w2.
  - now exists [], e, w1.
Qed.

(** What a run of calls raises was raised by one of the calls. *)
Lemma ask_all_blames {W} (generator : string -> M W Response)
    (prompts : list string) :
  forall w rs e w',
    ask_all generator prompts w = (rs, Some e, w') ->
    exists prompt w1 w2, In prompt prompts /\ generator prompt w1 = (Raise e, w2).
Proof.
  induction prompts as [|prompt rest IH]; intros w rs e w' Hrun.
  - discriminate.
  - cbn [ask_all] in Hrun.
    destruct (generator prompt w) as [[r|e1] w1] eqn:Hcall.
    + destruct (ask_all generator rest w1) as [[rs1 err] w2] eqn:Hrest.
      inversion Hrun; subst.
      destruct (IH _ _ _ _ Hrest) as (p & wa & wb & Hin & Hp).
      exists p, wa, wb. split; [now right | exact Hp].
    + inversion Hrun; subst. exists prompt, w, w'. split; [now left | exact Hcall].
Qed.


Lemma complete_assemble (filename : option string) (rs : list Response) :
  complete (assemble filename rs).
Proof.
  unfold complete, assemble, candidate. cbn.
  repeat split; eauto 10.
Qed.

(** The calls stop at the first one that raises, in the world where it
    is made. *)
Lemma ask_all_stops {W} (generator : string -> M W Response)
    (before : list string) (failing : string) (after : list string) :
  forall (w : W) rs w1 e w2,
    ask_all generator before w = (rs, None, w1) ->
    generator failing w1 = (Raise e, w2) ->
    ask_all generator (before ++ failing :: after) w = (rs, Some e, w2).
Proof.
  induction before as [|prompt before IH]; intros w rs w1 e w2 Hbefore Hfails.
  - cbn in Hbefore. inversion Hbefore; subst.
    cbn [app ask_all]. now rewrite Hfails.
  - cbn [app ask_all] in *.
    destruct (generator prompt w) as [[r|e1] w'] eqn:Hcall; [|discriminate].
    destruct (ask_all generator before w') as [[rs1 err] w''] eqn:Hrest.
    inversion Hbefore; subst.
    now rewrite (IH _ _ _ _ _ Hrest Hfails).
Qed.

(** C3, as the code has it.  With [chunk] the first chunk of the text:
    - parsing is the fourteen calls of the generator, each made once, in
      the order of the fields, up to the first one that raises: it
      returns the record made of the fourteen responses, or raises what
      that call raised, in the world where it raised;
    - so parsing either returns a record with every key of the schema, or
      raises the very exception that the call for one of the fourteen
      fields raised;
    - when the call for every field returns, parsing returns the record
      made of the fourteen responses;
    - when the calls before that of a field have returned and the call
      for this field raises, be it only this once, parsing raises that
      exception and nothing more is asked: one failing field aborts the
      whole record;
    - a response with no text (an empty list, or no list) is recorded as
      the empty string. *)
Theorem C3_one_failing_call_aborts :
  forall (W : Type) (generator : string -> M W Response)
         (text : string) (filename : option string),
  exists chunk rest,
    _chunk_text text = chunk :: rest
    /\ let prompt key := _get_field_prompt key chunk in
       (forall w,
          parse_document generator text filename w
          = match ask_all generator (map prompt prompt_keys) w with
            | (rs, None, w') => (Ok (assemble filename rs), w')
            | (_, Some e, w') => (Raise e, w')
            end)
       /\ (forall w,
          match parse_document generator text filename w with
          | (Ok d, _) => complete d
          | (Raise e, _) =>
              exists key w1 w2,
                In key prompt_keys /\ generator (prompt key) w1 = (Raise e, w2)
          end)
       /\ ((forall key, In key prompt_keys ->
              forall w, exists r w', generator (prompt key) w = (Ok r, w')) ->
           forall w, exists rs w',
             ask_all generator (map prompt prompt_keys) w = (rs, None, w')
             /\ List.length rs = 14%nat
             /\ parse_document generator text filename w
                = (Ok (assemble filename rs), w'))
       /\ (forall before key after w rs w1 e w2,
             prompt_keys = (before ++ key :: after)%list ->
             ask_all generator (map prompt before) w = (rs, None, w1) ->
             generator (prompt key) w1 = (Raise e, w2) ->
             parse_document generator text filename w = (Raise e, w2))
       /\ (forall key, In key prompt_keys ->
             (forall w, exists e w', generator (prompt key) w = (Raise e, w')) ->
             forall w, exists e w',
               parse_document generator text filename w = (Raise e, w'))
       /\ recorded (Items []) = ""
       /\ recorded NotAList = "".
Proof.
  intros W generator text filename.
  destruct (chunk_text_nonempty text) as (chunk & rest & Hchunks).
  exists chunk, rest. split; [exact Hchunks|].
  intro prompt.
  split; [|split; [|split; [|split; [|split; [|split; reflexivity]]]]].
  - intro w. exact (parse_document_runs _ _ _ _ _ _ Hchunks).
  - intro w. rewrite (parse_document_runs _ _ _ _ _ _ Hchunks).
    fold prompt.
    destruct (ask_all generator (map prompt prompt_keys) w)
      as [[rs [e|]] w'] eqn:Hrun.
    + destruct (ask_all_blames _ _ _ _ _ _ Hrun) as (p & w1 & w2 & Hin & Hp).
      apply in_map_iff in Hin as (key & <- & Hkey).
      now exists key, w1, w2.
    + apply complete_assemble.
  - intros Hall w.
    destruct (ask_all_returns generator (map prompt prompt_keys)) with (w := w)
      as (rs & w' & Hrun & Hlen).
    { intros p Hin. apply in_map_iff in Hin as (key & <- & Hkey). now apply Hall. }
    exists rs, w'. split; [exact Hrun|]. split; [exact Hlen|].
    rewrite (parse_document_runs _ _ _ _ _ _ Hchunks). fold prompt.
    now rewrite Hrun.
  - intros before key after w rs w1 e w2 Hkeys Hbefore Hfails.
    rewrite (parse_document_runs _ _ _ _ _ _ Hchunks). fold prompt.
    rewrite Hkeys, map_app. cbn [map].
    now rewrite (ask_all_stops _ _ _ _ _ _ _ _ _ Hbefore Hfails).
  - intros key Hkey Hfails w.
    destruct (ask_all_raises generator (map prompt prompt_keys) (prompt key))
      with (w := w) as (rs & e & w' & Hrun).
    { now apply in_map. }
    { exact Hfails. }
    exists e, w'.
    rewrite (parse_document_runs _ _ _ _ _ _ Hchunks). fold prompt.
    now rewrite Hrun.
Qed.

(** C3 at two generators: one that answers every prompt, with which
    parsing returns a record, and one whose call for the merchant name
    fails, with which parsing raises the exception of that call. *)
Lemma C3_witness :
  (exists d, parse_document answering sample_text (Some "acme.pdf") tt = (Ok d, tt))
  /\ parse_document merchant_call_fails sample_text (Some "acme.pdf") tt
     = (Raise "backend unreachable", tt).
Proof.
  split.
  - destruct (C3_one_failing_call_aborts unit (@answering unit) sample_text (Some "acme.pdf"))
      as (chunk & rest & _ & _ & _ & Hall & _).
    destruct (Hall (fun key _ w => ex_intro _ _ (ex_intro _ w eq_refl)) tt)
      as (rs & w' & _ & _ & Hrun).
    destruct w'. now exists (assemble (Some "acme.pdf") rs).
  - destruct (C3_one_failing_call_aborts unit (@merchant_call_fails unit) sample_text
                (Some "acme.pdf"))
      as (chunk & rest & _ & _ & _ & _ & Hfirst & _).
    exact (Hfirst [] "merchant_name" (tl prompt_keys) tt [] tt
             "backend unreachable" tt eq_refl eq_refl eq_refl).
Defined.

(** C3, the claim as stated fails: with a generator whose call for the
    merchant name fails while the calls for the thirteen other fields
    answer, parsing does not record an empty merchant name; it raises
    the exception of that one call and returns no record. *)
Lemma C3_counterexample :
  _chunk_text sample_text = [sample_text]
  /\ Forall (fun key =>
               exists r,
                 merchant_call_fails (_get_field_prompt key sample_text) tt
                 = (Ok r, tt))
       (tl prompt_keys)
  /\ parse_document merchant_call_fails sample_text (Some "acme.pdf") tt
     = (Raise "backend unreachable", tt).
Proof.
  split; [reflexivity|]. split; [|reflexivity].
  repeat constructor; eexists; reflexivity.
Qed.

(** When the first paragraph is over the budget, the chunk closed before
    it is empty: the first chunk is the empty string and the paragraph
    is the second one. *)
Remark long_first_paragraph_after_empty_chunk (text para : string) :
  split blank_line text = [para] ->
  (512 < word_count para)%nat ->
  _chunk_text text = [EmptyString; para].
Proof.
  intros Hsplit Hlong. unfold _chunk_text, _chunk_text_with.
  rewrite Hsplit. cbn [chunk_loop]. fold (word_count para).
  apply Nat.ltb_lt in Hlong. cbn [Nat.add]. rewrite Hlong. reflexivity.
Qed.


End ExtractorFacts.

(** ** The submission adapter *)

Module SubmitFacts.
Import CRM Stubs Samples.

Section WithOutside.
Context {W : Type}.
Variable now : W -> Time * W.
Variable sleep : Q -> W -> W.
Variable random_uniform : Q -> Q -> W -> Q * W.
Variable random_randint : Z -> Z -> W -> Z * W.
Variable random_random : W -> Q * W.

(** The mock CRM always answers; it rejects exactly the records whose
    validation failed. *)
Lemma mock_crm_answers (parsed_data : Document) (w : W) :
  exists resp w',
    _mock_crm_submit now sleep random_uniform random_randint random_random
      parsed_data w = (Ok resp, w')
    /\ In (Response.status resp) crm_statuses
    /\ (validation_status parsed_data = Some failed
        /\ Response.status resp = "rejected"
        \/ validation_status parsed_data <> Some failed
           /\ In (Response.status resp) ["accepted"; "pending_review"; "failed"]).
Proof.
  unfold _mock_crm_submit, bind, total, effect, ret.
  destruct (random_uniform 0.5 1.5 w) as [delay w1].
  destruct (validation_status parsed_data) as [[|]|] eqn:Estatus;
    repeat first
      [ match goal with
        | |- context [if PrimFloat.ltb ?a ?b then _ else _] =>
            destruct (PrimFloat.ltb a b)
        end
      | match goal with
        | |- context [if lt ?a ?b then _ else _] => destruct (lt a b)
        end
      | match goal with
        | |- context [random_randint ?a ?b ?w] =>
            destruct (random_randint a b w) as [? ?]
        end
      | match goal with
        | |- context [random_random ?w] => destruct (random_random w) as [? ?]
        end
      | match goal with
        | |- context [now ?w] => destruct (now w) as [? ?]
        end ];
    eexists _, _; (split; [reflexivity|]); cbn;
    (split; [tauto|]);
    first [ left; split; [reflexivity|reflexivity]
          | right; split; [discriminate | tauto] ].
Qed.
End WithOutside.

(** C8, as the code has it: submission always returns and never raises.
    Its result has the status ["success"] or ["failed"], and which of the
    two is decided by the writing of the JSON file alone.  When the file is
    written, the result is the ["success"] one with the name of the file
    and the response of the mock CRM, which is then called once and
    logged; the status of the response is one of accepted, rejected,
    pending_review and failed, and is rejected exactly when the validation
    of the record had failed.  When writing the file raises, the result is
    the ["failed"] one with the message of that exception and no
    response, the CRM is not called and the failure is logged. *)
Theorem C8_submit_wraps_the_crm_response :
  forall (W : Type) (now : W -> Time * W) (sleep : Q -> W -> W)
         (random_uniform : Q -> Q -> W -> Q * W)
         (random_randint : Z -> Z -> W -> Z * W)
         (random_random : W -> Q * W)
         (_generate_json_file : Document -> M W string)
         (_log_submission : Document -> Response.t + string -> W -> W)
         (parsed_data : Document) (w : W),
  let run :=
    submit_document now sleep random_uniform random_randint random_random
      _generate_json_file _log_submission parsed_data w in
  (exists (r : SubmissionResult) (w' : W),
     run = (Ok r, w')
     /\ ((status r = "success"
          /\ error r = None
          /\ exists file resp,
               json_file r = Some file
               /\ crm_response r = Some resp
               /\ In (Response.status resp) crm_statuses
               /\ (validation_status parsed_data = Some failed
                   /\ Response.status resp = "rejected"
                   \/ validation_status parsed_data <> Some failed
                      /\ In (Response.status resp)
                           ["accepted"; "pending_review"; "failed"]))
         \/ (status r = "failed"
             /\ crm_response r = None
             /\ exists e w1,
                  _generate_json_file parsed_data w = (Raise e, w1)
                  /\ error r = Some e)))
  /\ match _generate_json_file parsed_data w with
     | (Ok file, w1) =>
         exists resp w2,
           _mock_crm_submit now sleep random_uniform random_randint
             random_random parsed_data w1 = (Ok resp, w2)
           /\ run = (Ok (mkSubmissionResult "success" (Some file) (Some resp)
                           None),
                     _log_submission parsed_data (inl resp) w2)
     | (Raise e, w1) =>
         run = (Ok (mkSubmissionResult "failed" None None (Some e)),
                _log_submission parsed_data (inr e) w1)
     end.
Proof.
  intros W now sleep random_uniform random_randint random_random
    _generate_json_file _log_submission parsed_data w run.
  subst run. unfold submit_document, try_except, bind, effect, ret.
  destruct (_generate_json_file parsed_data w) as [[file|e] w1] eqn:Ejson.
  - destruct (mock_crm_answers now sleep random_uniform random_randint
                random_random parsed_data w1) as (resp & w2 & Hrun & Hin & Hrej).
    rewrite Hrun. split.
    + eexists _, _. split; [reflexivity|]. left. cbn.
      split; [reflexivity|]. split; [reflexivity|].
      exists file, resp. auto.
    + exists resp, w2. split; reflexivity.
  - split; [|reflexivity].
    eexists _, _. split; [reflexivity|]. right. cbn.
    split; [reflexivity|]. split; [reflexivity|].
    exists e, w1. auto.
Qed.

(** C8, the claim as stated fails: the result of submitting a record that
    passed validation, with the file written and the CRM accepting, has
    the status ["success"], which is none of accepted, rejected,
    pending_review and failed; the accepted status is that of the
    response inside it. *)
Lemma C8_counterexample :
  exists (r : SubmissionResult) (resp : Response.t) (w' : Q),
    submit (Validator.validated acme 0) 0 = (Ok r, w')
    /\ status r = "success"
    /\ ~ In (status r) crm_statuses
    /\ crm_response r = Some resp
    /\ Response.status resp = "accepted".
Proof.
  eexists _, _, _. split; [reflexivity|].
  split; [reflexivity|]. split; [|split; reflexivity].
  cbn. intros [H|[H|[H|[H|[]]]]]; discriminate.
Qed.

End SubmitFacts.

(** ** The orchestrator *)

Module PipelineFacts.
Import PyStr Pipeline Worker Instrumented Stubs.

(** A call proper, and not a computation that still has calls inside. *)
Ltac is_call call :=
  lazymatch call with
  | context [match _ with (_, _) => _ end] => fail
  | _ => idtac
  end.

(** Running the next call in the goal, whatever it does. *)
Ltac run_call :=
  first
    [ match goal with
      | |- context [if negb (truthy ?s) then _ else _] => destruct (truthy s)
      end
    | match goal with
      | |- context [match ?call with (_, _) => _ end] =>
          is_call call;
          match type of call with
          | (Outcome _ * _)%type => destruct call as [[?|?] ?]
          | _ => destruct call as [? ?]
          end
      end ];
  cbn beta iota zeta delta [negb].

(** Running a call whose outcome is known. *)
Ltac step H := rewrite H; cbn beta iota zeta delta [negb].

Section OneDocument.
Context {W : Type}.
Variable self : Components W.
Variable now : W -> Time * W.

(** One document always gives one result, and a failed result is filed
    under the name of the document. *)
Lemma process_single_document_returns (file_path : string) (w : W) :
  exists r w',
    process_single_document self now file_path w = (Ok r, w')
    /\ filed_under file_path r.
Proof.
  unfold process_single_document, try_except, bind, total, ret, raise.
  repeat run_call; eexists _, _; split; reflexivity || exact I.
Qed.

(** A log carried beside the world is left as it was. *)
Lemma process_single_document_lift {L : Type} (file_path : string)
    (w : W) (log : L) :
  process_single_document (lift_components self) (lift_total now) file_path
    (w, log)
  = let (r, w') := process_single_document self now file_path w in
    (r, (w', log)).
Proof.
  unfold process_single_document, lift_components, lift, lift_total,
    try_except, bind, total, ret, raise.
  cbn [ocr_extract_text llm_parse_document validator_validate_document
       crm_submit_document].
  repeat run_call; reflexivity.
Qed.



(** One turn of the loop: the report, then the document; or the error
    record when the report raises. *)
Lemma process_one_file_step
    (callback : option (nat -> nat -> string -> M W unit))
    (count : nat) (processed : list DocumentResult)
    (i : nat) (file_path : string) (w : W) :
  let turn :=
    process_one_file self now callback count processed (i, file_path) w in
  match report callback i count file_path w with
  | (Ok _, w1) =>
      exists r w2,
        process_single_document self now file_path w1 = (Ok r, w2)
        /\ turn = (Ok (processed ++ [r])%list, w2)
  | (Raise e, w1) =>
      turn = (Ok (processed
                  ++ [Failed (basename file_path) e (fst (now w1)) None])%list,
              snd (now w1))
  end.
Proof.
  unfold process_one_file, report, try_except, bind, total, ret.
  destruct callback as [callback|].
  - destruct (callback i count ("Processing " ++ basename file_path) w)
      as [[[]|e] w1].
    + destruct (process_single_document_returns file_path w1)
        as (r & w2 & Hrun & _).
      rewrite Hrun. now exists r, w2.
    + destruct (now w1) as [t w2]. reflexivity.
  - destruct (process_single_document_returns file_path w)
      as (r & w2 & Hrun & _).
    rewrite Hrun. now exists r, w2.
Qed.

(** The loop takes the files in turn, whatever happens to each. *)
Lemma process_loop_in_turn
    (callback : option (nat -> nat -> string -> M W unit)) (count : nat) :
  forall (files : list string) (i : nat) (processed : list DocumentResult) (w : W),
  exists rs w',
    for_each (process_one_file self now callback count)
      (combine (seq i (List.length files)) files) processed w
    = (Ok (processed ++ rs)%list, w')
    /\ in_turn self now callback count i files w rs w'.
Proof.
  induction files as [|file_path files IH]; intros i processed w.
  - exists [], w. rewrite app_nil_r. split; [reflexivity | constructor].
  - cbn [List.length seq combine for_each]. unfold bind at 1.
    pose proof (process_one_file_step callback count processed i file_path w)
      as Hstep. cbv zeta in Hstep.
    destruct (report callback i count file_path w) as [[[]|e] w1] eqn:Hreport.
    + destruct Hstep as (r & w2 & Hrun & ->).
      destruct (IH (S i) (processed ++ [r])%list w2) as (rs & w3 & Hloop & Hturn).
      rewrite Hloop. exists (r :: rs), w3. rewrite <- app_assoc.
      split; [reflexivity|].
      exact (in_turn_processed self now callback count i file_path files
               w w1 w2 w3 r rs Hreport Hrun Hturn).
    + rewrite Hstep.
      destruct (IH (S i)
                  (processed
                   ++ [Failed (basename file_path) e (fst (now w1)) None])%list
                  (snd (now w1))) as (rs & w3 & Hloop & Hturn).
      rewrite Hloop. eexists (_ :: rs), w3. rewrite <- app_assoc.
      split; [reflexivity|].
      exact (in_turn_not_reported self now callback count i file_path files
               w w1 w3 e rs Hreport Hturn).
Qed.

(** The results of files taken in turn are one for each file. *)
Lemma in_turn_filed
    (callback : option (nat -> nat -> string -> M W unit)) (count : nat) :
  forall (files : list string) (i : nat) (w : W) rs w',
    in_turn self now callback count i files w rs w' ->
    Forall2 filed_under files rs.
Proof.
  intros files i w rs w' H.
  induction H as [| i file_path files w w1 w2 w3 r results Hreport Hrun _ IH
                  | i file_path files w w1 w3 e results Hreport _ IH].
  - constructor.
  - constructor; [|exact IH].
    destruct (process_single_document_returns file_path w1)
      as (r' & w2' & Hrun' & Hfiled).
    rewrite Hrun in Hrun'. inversion Hrun'; subst. exact Hfiled.
  - constructor; [reflexivity | exact IH].
Qed.
End OneDocument.



(** C1: whatever its four stages do, processing one document returns
    exactly one result and never raises.  With [start_time] the reading
    of the clock at the start: an exception raised by the OCR, by the
    parser, by the validator or by the submission, or an OCR text that is
    blank, gives the failed result of [failure], which carries the name
    of the file, the message of the exception and the time elapsed since
    [start_time]; when every stage returns, the result is the completed
    one.  And the loop over a batch takes the files in turn, whatever
    failed on the way: every file is processed as above, in the world
    left by the files before it, and its result is the next one of the
    batch; only a file whose progress report raises is not processed, and
    has the error record of that exception for its result.  So the batch
    returns one result for every file, in order. *)
Theorem C1_every_document_yields_one_result :
  forall (W : Type) (self : Components W) (now : W -> Time * W)
         (file_path : string) (w : W),
  let start_time := fst (now w) in
  let w0 := snd (now w) in
  let run := process_single_document self now file_path w in
  (exists r w', run = (Ok r, w'))
  /\ (forall e w1,
        ocr_extract_text self file_path w0 = (Raise e, w1) ->
        run = failure now file_path start_time e w1)
  /\ (forall text w1,
        ocr_extract_text self file_path w0 = (Ok text, w1) ->
        truthy (strip text) = false ->
        run = failure now file_path start_time
                "No text could be extracted from document" w1)
  /\ (forall text w1 e w2,
        ocr_extract_text self file_path w0 = (Ok text, w1) ->
        truthy (strip text) = true ->
        llm_parse_document self text (Some (basename file_path)) w1 = (Raise e, w2) ->
        run = failure now file_path start_time e w2)
  /\ (forall text w1 parsed w2 e w3,
        ocr_extract_text self file_path w0 = (Ok text, w1) ->
        truthy (strip text) = true ->
        llm_parse_document self text (Some (basename file_path)) w1 = (Ok parsed, w2) ->
        validator_validate_document self parsed w2 = (Raise e, w3) ->
        run = failure now file_path start_time e w3)
  /\ (forall text w1 parsed w2 validated w3 e w4,
        ocr_extract_text self file_path w0 = (Ok text, w1) ->
        truthy (strip text) = true ->
        llm_parse_document self text (Some (basename file_path)) w1 = (Ok parsed, w2) ->
        validator_validate_document self parsed w2 = (Ok validated, w3) ->
        crm_submit_document self validated w3 = (Raise e, w4) ->
        run = failure now file_path start_time e w4)
  /\ (forall text w1 parsed w2 validated w3 submitted w4,
        ocr_extract_text self file_path w0 = (Ok text, w1) ->
        truthy (strip text) = true ->
        llm_parse_document self text (Some (basename file_path)) w1 = (Ok parsed, w2) ->
        validator_validate_document self parsed w2 = (Ok validated, w3) ->
        crm_submit_document self validated w3 = (Ok submitted, w4) ->
        run = (Ok (Completed validated submitted (fst (now w4) - start_time)),
               snd (now w4)))
  /\ (forall callback files,
        exists results w',
          process_files self now callback files w = (Ok results, w')
          /\ in_turn self now callback (List.length files) 0 files w
               results w'
          /\ List.length results = List.length files
          /\ Forall2 filed_under files results).
Proof.
  intros W self now file_path w start_time w0 run.
  split.
  { destruct (process_single_document_returns self now file_path w)
      as (r & w' & Hrun & _). now exists r, w'. }
  subst run start_time w0.
  unfold process_single_document, failure, try_except, bind, total, ret, raise.
  destruct (now w) as [start_time w0]. cbn [fst snd].
  repeat split.
  - intros e w1 H1. step H1. repeat run_call; reflexivity.
  - intros text w1 H1 H2. step H1. step H2. repeat run_call; reflexivity.
  - intros text w1 e w2 H1 H2 H3. step H1. step H2. step H3.
    repeat run_call; reflexivity.
  - intros text w1 parsed w2 e w3 H1 H2 H3 H4. step H1. step H2. step H3.
    step H4. repeat run_call; reflexivity.
  - intros text w1 parsed w2 validated w3 e w4 H1 H2 H3 H4 H5.
    step H1. step H2. step H3. step H4. step H5.
    repeat run_call; reflexivity.
  - intros text w1 parsed w2 validated w3 submitted w4 H1 H2 H3 H4 H5.
    step H1. step H2. step H3. step H4. step H5.
    repeat run_call; reflexivity.
  - intros callback files. unfold process_files.
    destruct (process_loop_in_turn self now callback (List.length files)
                files 0 [] w) as (rs & w' & Hloop & Hturn).
    pose proof (in_turn_filed self now callback _ _ _ _ _ _ Hturn) as Hall.
    exists rs, w'. split; [exact Hloop|]. split; [exact Hturn|].
    split; [|exact Hall].
    symmetry. exact (Forall2_length Hall).
Qed.

(** C1 on the example pipeline, the clock starting at 0: each of its
    stages in turn fails on [in/scan.pdf], and then none does. *)
Lemma C1_witness :
  process_single_document (pipeline 0) ticking "in/scan.pdf" 0
  = failure ticking "in/scan.pdf" 0 "cannot read file" 1
  /\ process_single_document (pipeline 1) ticking "in/scan.pdf" 0
     = failure ticking "in/scan.pdf" 0 "No text could be extracted from document" 1
  /\ process_single_document (pipeline 2) ticking "in/scan.pdf" 0
     = failure ticking "in/scan.pdf" 0 "backend unreachable" 1
  /\ process_single_document (pipeline 3) ticking "in/scan.pdf" 0
     = failure ticking "in/scan.pdf" 0 "validator crashed" 1
  /\ process_single_document (pipeline 4) ticking "in/scan.pdf" 0
     = failure ticking "in/scan.pdf" 0 "submission crashed" 2
  /\ exists validated submitted end_time w',
       process_single_document (pipeline 5) ticking "in/scan.pdf" 0
       = (Ok (Completed validated submitted (end_time - 0)), w').
Proof.
  split; [|split; [|split; [|split; [|split]]]].
  - pose proof (C1_every_document_yields_one_result Q (pipeline 0) ticking
                  "in/scan.pdf" 0) as H.
    destruct H as (_ & Hocr & _).
    exact (Hocr "cannot read file" 1 eq_refl).
  - pose proof (C1_every_document_yields_one_result Q (pipeline 1) ticking
                  "in/scan.pdf" 0) as H.
    destruct H as (_ & _ & Hblank & _).
    exact (Hblank "   " 1 eq_refl eq_refl).
  - pose proof (C1_every_document_yields_one_result Q (pipeline 2) ticking
                  "in/scan.pdf" 0) as H.
    destruct H as (_ & _ & _ & Hllm & _).
    exact (Hllm Generators.sample_text 1 "backend unreachable" 1
             eq_refl eq_refl eq_refl).
  - pose proof (C1_every_document_yields_one_result Q (pipeline 3) ticking
                  "in/scan.pdf" 0) as H.
    destruct H as (_ & _ & _ & _ & Hvalidator & _).
    eapply (Hvalidator Generators.sample_text 1 _ 1 "validator crashed" 1);
      [reflexivity | reflexivity | vm_compute; reflexivity | reflexivity].
  - pose proof (C1_every_document_yields_one_result Q (pipeline 4) ticking
                  "in/scan.pdf" 0) as H.
    destruct H as (_ & _ & _ & _ & _ & Hcrm & _).
    eapply (Hcrm Generators.sample_text 1 _ 1 _ 2 "submission crashed" 2);
      [reflexivity | reflexivity | vm_compute; reflexivity
       | vm_compute; reflexivity | reflexivity].
  - pose proof (C1_every_document_yields_one_result Q (pipeline 5) ticking
                  "in/scan.pdf" 0) as H.
    destruct H as (_ & _ & _ & _ & _ & _ & Hdone & _).
    eexists _, _, _, _.
    eapply (Hdone Generators.sample_text 1 _ 1 _ 2 _ _);
      [reflexivity | reflexivity | vm_compute; reflexivity
       | vm_compute; reflexivity | vm_compute; reflexivity].
Defined.

(** *** Progress reports *)

Lemma reports_from_cons (count i : nat) (file_path : string) (files : list string) :
  reports_from count i (file_path :: files)
  = (i, count, "Processing " ++ basename file_path)
      :: reports_from count (S i) files.
Proof. reflexivity. Qed.

Lemma reports_from_length (count : nat) (files : list string) (i : nat) :
  List.length (reports_from count i files) = List.length files.
Proof.
  revert i. induction files as [|f files IH]; intro i; [reflexivity|].
  rewrite reports_from_cons. cbn [List.length]. now rewrite IH.
Qed.

Lemma reports_from_indices (count : nat) (files : list string) (i : nat) :
  map (fun c : ProgressCall => fst (fst c)) (reports_from count i files)
  = seq i (List.length files).
Proof.
  revert i. induction files as [|f files IH]; intro i; [reflexivity|].
  rewrite reports_from_cons. cbn [map fst List.length seq]. now rewrite IH.
Qed.

Lemma reports_from_count (count : nat) (files : list string) (i : nat) :
  Forall (fun c : ProgressCall => snd (fst c) = count) (reports_from count i files).
Proof.
  revert i. induction files as [|f files IH]; intro i; [constructor|].
  rewrite reports_from_cons. constructor; [reflexivity | apply IH].
Qed.

Section Reports.
Context {W : Type}.
Variable self : Components W.
Variable now : W -> Time * W.
Variable callback : nat -> nat -> string -> M W unit.
Variable signals : Signals W.

(** One turn of the loop: the callback is called first, in the world left
    by the documents before; if it returns, the document is processed in
    the world that the callback leaves; if it raises, the document is not
    processed and its result is the error record. *)
Lemma process_one_file_turn (count : nat) (processed : list DocumentResult)
    (i : nat) (file_path : string) (w : W) (calls : list ProgressCall) :
  let turn :=
    process_one_file (lift_components self) (lift_total now)
      (Some (recording_callback callback)) count processed (i, file_path)
      (w, calls) in
  let reported :=
    (calls ++ [(i, count, ("Processing " ++ basename file_path)%string)])%list in
  match callback i count ("Processing " ++ basename file_path) w with
  | (Ok _, w1) =>
      exists r w2,
        process_single_document self now file_path w1 = (Ok r, w2)
        /\ turn = (Ok (processed ++ [r])%list, (w2, reported))
  | (Raise e, w1) =>
      turn = (Ok (processed ++ [Failed (basename file_path) e (fst (now w1)) None])%list,
              (snd (now w1), reported))
  end.
Proof.
  unfold process_one_file, try_except, bind, recording_callback.
  destruct (callback i count ("Processing " ++ basename file_path) w)
    as [[[]|e] w1].
  - rewrite process_single_document_lift.
    destruct (process_single_document_returns self now file_path w1)
      as (r & w2 & Hrun & _).
    rewrite Hrun. now exists r, w2.
  - unfold total, lift_total, ret. destruct (now w1) as [t w2]. reflexivity.
Qed.

(** One turn of the loop reports once and adds one result, whatever the
    callback and the document do. *)
Lemma process_one_file_reports (count : nat) (processed : list DocumentResult)
    (i : nat) (file_path : string) (w : W) (calls : list ProgressCall) :
  exists r w',
    process_one_file (lift_components self) (lift_total now)
      (Some (recording_callback callback)) count processed (i, file_path)
      (w, calls)
    = (Ok (processed ++ [r])%list,
       (w', (calls ++ [(i, count, ("Processing " ++ basename file_path)%string)])%list)).
Proof.
  pose proof (process_one_file_turn count processed i file_path w calls) as Hturn.
  cbv zeta in Hturn.
  destruct (callback i count ("Processing " ++ basename file_path) w)
    as [[[]|e] w1].
  - destruct Hturn as (r & w2 & _ & Hturn). now exists r, w2.
  - eexists _, _. exact Hturn.
Qed.

Lemma process_loop_reports (count : nat) :
  forall (files : list string) (i : nat) (processed : list DocumentResult)
         (w : W) (calls : list ProgressCall),
  exists rs w',
    for_each (process_one_file (lift_components self) (lift_total now)
                (Some (recording_callback callback)) count)
      (combine (seq i (List.length files)) files) processed (w, calls)
    = (Ok (processed ++ rs)%list,
       (w', (calls ++ reports_from count i files)%list))
    /\ List.length rs = List.length files.
Proof.
  induction files as [|file_path files IH]; intros i processed w calls.
  - exists [], w. rewrite !app_nil_r. split; reflexivity.
  - cbn [List.length seq combine for_each]. unfold bind at 1.
    destruct (process_one_file_reports count processed i file_path w calls)
      as (r & w1 & Hstep).
    rewrite Hstep.
    destruct (IH (S i) (processed ++ [r])%list w1
                (calls ++ [(i, count, ("Processing " ++ basename file_path)%string)])%list)
      as (rs & w2 & Hloop & Hlen).
    rewrite Hloop. exists (r :: rs), w2.
    rewrite reports_from_cons, <- !app_assoc.
    split; [reflexivity | cbn; now rewrite Hlen].
Qed.

(** The worker reports once for every document it starts; it starts
    them all unless an interruption is requested. *)
Lemma run_loop_reports (count : nat) :
  forall (files : list string) (i : nat) (processed : list DocumentResult)
         (w : W) (calls : list ProgressCall),
  exists docs w',
    run_loop (recording_signals signals)
      (process_single_document (lift_components self) (lift_total now))
      count i files processed (w, calls)
    = ((processed ++ docs)%list, None,
       (w', (calls ++ firstn (List.length docs) (reports_from count i files))%list))
    /\ (List.length docs <= List.length files)%nat
    /\ (List.length docs = List.length files
        \/ exists w1, fst (isInterruptionRequested signals w1) = true).
Proof.
  induction files as [|file_path files IH]; intros i processed w calls.
  - exists [], w. rewrite !app_nil_r. split; [reflexivity|]. split; auto.
  - cbn [run_loop recording_signals progress_updated_emit
         document_processed_emit isInterruptionRequested].
    rewrite process_single_document_lift.
    destruct (process_single_document_returns self now file_path
                (progress_updated_emit signals i count
                   ("Processing " ++ basename file_path) w))
      as (r & w1 & Hrun & _).
    rewrite Hrun. cbn beta iota.
    change (lift_effect (document_processed_emit signals r) (w1, ?l))
      with (document_processed_emit signals r w1, l).
    change (lift_total (isInterruptionRequested signals) (?x, ?l))
      with (let (a, w') := isInterruptionRequested signals x in (a, (w', l))).
    destruct (isInterruptionRequested signals (document_processed_emit signals r w1))
      as [stop w2] eqn:Estop.
    rewrite reports_from_cons. destruct stop.
    + exists [r], w2. split; [reflexivity|]. split; [cbn; lia|].
      right. exists (document_processed_emit signals r w1). now rewrite Estop.
    + destruct (IH (S i) (processed ++ [r])%list w2
                  (calls ++ [(i, count, ("Processing " ++ basename file_path)%string)])%list)
        as (docs & w3 & Hloop & Hle & Hall).
      rewrite Hloop. exists (r :: docs), w3.
      rewrite <- !app_assoc. split; [reflexivity|].
      split; [cbn; lia|].
      destruct Hall as [Hall|Hall]; [left; cbn; now rewrite Hall | now right].
Qed.
End Reports.

(** C5, as the code has it.  For a batch of [n] files, whatever the
    pipeline and the callback do, the loop returns [n] results and calls
    the progress callback exactly [n] times, with the index of the
    document and [n]: the first arguments are 0, 1, ..., [n - 1], and the
    second is always [n].  In every turn the callback is called before the
    document is processed: it runs in the world left by the documents
    before, and the document is processed in the world that the callback
    leaves (or not at all, when the callback raises).  The worker thread
    of the window emits the same reports for the documents it starts: all
    of them, unless an interruption is requested. *)
Theorem C5_progress_reports_the_index :
  forall (W : Type) (self : Components W) (now : W -> Time * W)
         (callback : nat -> nat -> string -> M W unit)
         (signals : Signals W) (files : list string) (w : W),
  let n := List.length files in
  (exists results w',
     process_files (lift_components self) (lift_total now)
       (Some (recording_callback callback)) files (w, [])
     = (Ok results, (w', expected_reports files))
     /\ List.length results = n)
  /\ List.length (expected_reports files) = n
  /\ map (fun c : ProgressCall => fst (fst c)) (expected_reports files) = seq 0 n
  /\ Forall (fun c : ProgressCall => snd (fst c) = n) (expected_reports files)
  /\ (forall processed i file_path w_before calls,
        let turn :=
          process_one_file (lift_components self) (lift_total now)
            (Some (recording_callback callback)) n processed (i, file_path)
            (w_before, calls) in
        let reported :=
          (calls ++ [(i, n, ("Processing " ++ basename file_path)%string)])%list in
        match callback i n ("Processing " ++ basename file_path) w_before with
        | (Ok _, w1) =>
            exists r w2,
              process_single_document self now file_path w1 = (Ok r, w2)
              /\ turn = (Ok (processed ++ [r])%list, (w2, reported))
        | (Raise e, w1) =>
            turn = (Ok (processed
                        ++ [Failed (basename file_path) e (fst (now w1)) None])%list,
                    (snd (now w1), reported))
        end)
  /\ (exists docs w',
        run (recording_signals signals)
          (process_single_document (lift_components self) (lift_total now))
          files (w, [])
        = (docs, (w', firstn (List.length docs) (expected_reports files)))
        /\ (List.length docs <= n)%nat
        /\ (List.length docs = n
            \/ exists w1, fst (isInterruptionRequested signals w1) = true)).
Proof.
  intros W self now callback signals files w n.
  split; [|split; [|split; [|split; [|split]]]].
  - unfold process_files.
    destruct (process_loop_reports self now callback n files 0 [] w [])
      as (rs & w' & Hloop & Hlen).
    now exists rs, w'.
  - apply reports_from_length.
  - apply reports_from_indices.
  - apply reports_from_count.
  - intros processed i file_path w_before calls.
    apply process_one_file_turn.
  - unfold run.
    destruct (run_loop_reports self now signals n files 0 [] w [])
      as (docs & w' & Hloop & Hle & Hall).
    fold n. rewrite Hloop.
    exists docs, (processing_completed_emit signals docs w').
    split; [reflexivity|]. split; assumption.
Qed.

(** C5, the claim as stated fails: on a batch of three files whose second
    one cannot be read, the three results come (completed, failed,
    completed) and the callback is called three times, but with 0, 1 and
    2: the last call reports 2 of 3, and no call reports 3. *)
Lemma C5_counterexample :
  match process_files (lift_components picky_pipeline) (lift_total ticking)
          (Some (recording_callback silent_callback)) three_files (0, []) with
  | (Ok results, (_, calls)) =>
      map processing_status results = ["completed"; "failed"; "completed"]
      /\ calls = [ (0, 3, "Processing a.pdf"); (1, 3, "Processing bad.png");
                   (2, 3, "Processing c.jpg") ]%nat
      /\ fst (fst (List.last calls (0, 0, "")%nat)) <> List.length three_files
  | (Raise _, _) => False
  end.
Proof.
  vm_compute. split; [reflexivity|]. split; [reflexivity|]. discriminate.
Qed.

End PipelineFacts.

(** * Further properties *)

(** ** The rules of the validator *)

Module RuleFacts.
Import PyStr Validator Fields Samples.

Lemma forallb_keep (p : ascii -> bool) (s : string) :
  forallb_str p (keep p s) = true.
Proof.
  induction s as [|c s IH]; [reflexivity|].
  cbn [keep]. destruct (p c) eqn:E; [|exact IH].
  cbn [forallb_str]. now rewrite E, IH.
Qed.

Lemma isdigit_keep (s : string) :
  isdigit (keep is_digit s) = truthy (keep is_digit s).
Proof.
  unfold isdigit.
  assert (H : forallb_str
                (fun c => is_digit c || (code c =? 178)%nat
                          || (code c =? 179)%nat || (code c =? 185)%nat)
                (keep is_digit s) = true).
  { induction s as [|c s IH]; [reflexivity|].
    cbn [keep]. destruct (is_digit c) eqn:E; [|exact IH].
    cbn [forallb_str]. now rewrite E, IH. }
  rewrite H. apply andb_true_r.
Qed.

(** A check on the number of digits: the tests on the empty string and on
    [isdigit] add nothing to it. *)
Lemma digits_check (n : nat) (s : string) :
  (0 < n)%nat ->
  (if negb (truthy s) then false
   else (String.length (keep is_digit s) =? n)%nat && isdigit (keep is_digit s))
  = (digit_count s =? n)%nat.
Proof.
  intro Hn. unfold digit_count. rewrite isdigit_keep.
  destruct s as [|c s]; cbn [truthy negb].
  - cbn. destruct n; [lia | reflexivity].
  - destruct (String.length (keep is_digit (String c s)) =? n)%nat eqn:E;
      [|reflexivity].
    apply Nat.eqb_eq in E. cbn [andb].
    destruct (keep is_digit (String c s)); [cbn in E; lia | reflexivity].
Qed.

(** The EIN/SSN, the ZIP code and the phone number are accepted exactly
    when they hold 9, 5 and 10 decimal digits: every other character, and
    where it stands, is ignored. *)
Theorem digits_alone_decide :
  forall s : string,
    _validate_ein_ssn s = (digit_count s =? 9)%nat
    /\ _validate_zip s = (digit_count s =? 5)%nat
    /\ _validate_phone s = (digit_count s =? 10)%nat.
Proof.
  intro s. unfold _validate_ein_ssn, _validate_zip, _validate_phone.
  repeat split; apply digits_check; lia.
Qed.

End RuleFacts.

Module AmountFacts.
Import PyStr Validator Fields.

Lemma dot_is_no_digit (c : ascii) : is_digit c = true -> Ascii.eqb "." c = false.
Proof.
  intro H. destruct (Ascii.eqb_spec "." c) as [<-|]; [|reflexivity].
  discriminate H.
Qed.

Lemma keep_keep (p q : ascii -> bool) (s : string) :
  (forall c, p c = true -> q c = true) ->
  keep p (keep q s) = keep p s.
Proof.
  intro Hsub. induction s as [|c s IH]; [reflexivity|].
  cbn [keep]. destruct (q c) eqn:Eq.
  - cbn [keep]. now rewrite IH.
  - destruct (p c) eqn:Ep; [|exact IH].
    rewrite (Hsub c Ep) in Eq. discriminate.
Qed.

Lemma digit_count_clean (s : string) :
  digit_count (keep digit_or_dot s) = digit_count s.
Proof.
  unfold digit_count. f_equal. apply keep_keep.
  intros c H. unfold digit_or_dot. now rewrite H.
Qed.

Lemma dot_count_clean (s : string) :
  dot_count (keep digit_or_dot s) = dot_count s.
Proof.
  unfold dot_count. f_equal. apply keep_keep.
  intros c H. unfold digit_or_dot. rewrite Ascii.eqb_sym in H. rewrite H.
  apply orb_true_r.
Qed.

Lemma clean_alphabet (s : string) :
  forallb_str digit_or_dot (keep digit_or_dot s) = true.
Proof. apply RuleFacts.forallb_keep. Qed.

(** The leading digits: how many they are, and what is left. *)
Lemma span_digits_spec (t : string) :
  digit_count t = (fst (span_digits t) + digit_count (snd (span_digits t)))%nat
  /\ dot_count t = dot_count (snd (span_digits t))
  /\ (forallb_str digit_or_dot t = true ->
      forallb_str digit_or_dot (snd (span_digits t)) = true)
  /\ match snd (span_digits t) with
     | EmptyString => True
     | String c _ => is_digit c = false
     end.
Proof.
  induction t as [|c t IH]; [cbn; auto|].
  cbn [span_digits]. destruct (is_digit c) eqn:Ed.
  - destruct (span_digits t) as [n r]. cbn [fst snd] in *.
    destruct IH as (Hd & Hdot & Hall & Hhead).
    unfold digit_count, dot_count in *. cbn [keep]. rewrite Ed.
    rewrite (dot_is_no_digit c Ed). cbn [String.length].
    repeat split; try assumption; try lia.
    intro H. cbn [forallb_str] in H. apply andb_true_iff in H as [_ H]. auto.
  - cbn [fst snd]. repeat split; auto.
Qed.

(** On a string of digits and dots, [float] accepts exactly a string with
    a digit and at most one dot. *)
Lemma float_accepts_counts (t : string) :
  forallb_str digit_or_dot t = true ->
  float_accepts t = (1 <=? digit_count t)%nat && (dot_count t <=? 1)%nat.
Proof.
  intro Halpha. unfold float_accepts.
  destruct (span_digits_spec t) as (Hd & Hdot & Hall & Hhead).
  destruct (span_digits t) as [n1 r1]. cbn [fst snd] in *.
  specialize (Hall Halpha).
  destruct r1 as [|c r2].
  - rewrite Hd, Hdot. cbn. rewrite Nat.add_0_r, andb_true_r.
    destruct n1; reflexivity.
  - cbn [forallb_str] in Hall. apply andb_true_iff in Hall as [Hc Hr2].
    unfold digit_or_dot in Hc. rewrite Hhead in Hc. cbn [orb] in Hc.
    rewrite Hc. cbn [andb].
    apply Ascii.eqb_eq in Hc. subst c.
    destruct (span_digits_spec r2) as (Hd2 & Hdot2 & Hall2 & Hhead2).
    destruct (span_digits r2) as [n2 r3]. cbn [fst snd] in *.
    specialize (Hall2 Hr2).
    assert (Hd1 : digit_count (String "." r2) = digit_count r2) by reflexivity.
    assert (Hdot1 : dot_count (String "." r2) = S (dot_count r2)) by reflexivity.
    rewrite Hd, Hdot, Hd1, Hdot1, Hd2, Hdot2.
    destruct r3 as [|c3 r4].
    + cbn [truthy negb andb]. change (digit_count "") with 0%nat.
      change (dot_count "") with 0%nat. rewrite !Nat.add_0_r.
      cbn [Nat.leb]. rewrite andb_true_r.
      destruct (n1 + n2)%nat; reflexivity.
    + cbn [truthy negb andb].
      cbn [forallb_str] in Hall2. apply andb_true_iff in Hall2 as [Hc3 _].
      unfold digit_or_dot in Hc3. rewrite Hhead2 in Hc3. cbn [orb] in Hc3.
      apply Ascii.eqb_eq in Hc3. subst c3.
      assert (Hdot3 : dot_count (String "." r4) = S (dot_count r4)) by reflexivity.
      rewrite Hdot3. cbn [Nat.leb]. now rewrite andb_false_r.
Qed.

(** A requested amount is accepted exactly when it is empty, or holds at
    least one decimal digit and at most one dot: signs, letters, commas
    and currency marks are ignored. *)
Theorem amount_needs_a_digit_and_one_dot_at_most :
  forall s : string,
    _validate_amount s
    = negb (truthy s) || ((1 <=? digit_count s)%nat && (dot_count s <=? 1)%nat).
Proof.
  intro s. unfold _validate_amount.
  destruct (truthy s); cbn [negb orb]; [|reflexivity].
  change (fun c => is_digit c || Ascii.eqb c ".") with digit_or_dot.
  rewrite <- digit_count_clean, <- dot_count_clean.
  destruct (truthy (keep digit_or_dot s)) eqn:Et; cbn [negb].
  - apply float_accepts_counts, clean_alphabet.
  - destruct (keep digit_or_dot s); [reflexivity | discriminate].
Qed.

End AmountFacts.

Module RecordFacts.
Import PyStr Validator Fields Rules Samples.

Lemma present_get (field : option string) : present field = truthy (get field "").
Proof. destruct field; reflexivity. Qed.

(** The issues of a record are those of the ten fields that the rules
    read, an absent key reading as the empty string. *)
Lemma validation_issues_of_fields (d : Document) :
  validation_issues d
  = issues_of (ein_of d) (zip_of d) (amount_of d) (phone_of d) (email_of d)
      (state_of d) (merchant_of d) (doctype_of d) (street_of d) (city_of d).
Proof.
  unfold validation_issues, issues_of, any_value, all_values,
    ein_of, zip_of, amount_of, phone_of, email_of, state_of, merchant_of,
    doctype_of, street_of, city_of.
  rewrite !present_get. cbv zeta. do 6 (apply f_equal).
  cbn [flat_map fst snd]. rewrite app_nil_r, <- app_assoc. reflexivity.
Qed.

Lemma issue_if_nil (b : bool) (m : string) : issue_if b m = [] <-> b = false.
Proof. destruct b; cbn; split; congruence. Qed.

Lemma app_nil_iff {A} (l l' : list A) : (l ++ l')%list = [] <-> l = [] /\ l' = [].
Proof.
  split; [apply app_eq_nil|]. intros [-> ->]. reflexivity.
Qed.

Lemma truthy_iff (s : string) : truthy s = true <-> s <> "".
Proof. destruct s; cbn; split; congruence. Qed.

Lemma valid_zip_truthy (s : string) : _validate_zip s = true -> truthy s = true.
Proof. unfold _validate_zip. destruct (truthy s); [reflexivity | discriminate]. Qed.

Lemma valid_state_truthy (s : string) : _validate_state s = true -> truthy s = true.
Proof. unfold _validate_state. destruct (truthy s); [reflexivity | discriminate]. Qed.

Lemma valid_amount_empty : _validate_amount "" = true.
Proof. reflexivity. Qed.

(** A record passes validation exactly when: the EIN/SSN and the ZIP code
    are valid (they are required); the amount, the phone and the email are
    valid or empty; merchant name and document type are not blank; street
    and city are given; and the state is valid, which makes the state
    required too, since a ZIP code calls for a complete address. *)
Theorem passes_exactly_when :
  forall d : Document,
    validation_issues d = []
    <-> _validate_ein_ssn (ein_of d) = true
        /\ _validate_zip (zip_of d) = true
        /\ _validate_amount (amount_of d) = true
        /\ (phone_of d = "" \/ _validate_phone (phone_of d) = true)
        /\ (email_of d = "" \/ _validate_email (email_of d) = true)
        /\ _validate_state (state_of d) = true
        /\ strip (merchant_of d) <> ""
        /\ strip (doctype_of d) <> ""
        /\ street_of d <> ""
        /\ city_of d <> "".
Proof.
  intro d. rewrite validation_issues_of_fields. unfold issues_of.
  rewrite !app_nil_iff, !issue_if_nil.
  rewrite <- !truthy_iff.
  pose proof (valid_zip_truthy (zip_of d)) as Hzip.
  pose proof (valid_state_truthy (state_of d)) as Hstate.
  assert (Hphone : phone_of d = "" <-> truthy (phone_of d) = false)
    by (destruct (phone_of d); cbn; split; congruence).
  assert (Hemail : email_of d = "" <-> truthy (email_of d) = false)
    by (destruct (email_of d); cbn; split; congruence).
  assert (Hamount : truthy (amount_of d) = false ->
                    _validate_amount (amount_of d) = true)
    by (destruct (amount_of d); [reflexivity | discriminate]).
  rewrite Hphone, Hemail.
  split.
  - intros (H1 & H2 & H3 & H4 & H5 & H6 & H7 & H8 & H9).
    apply negb_false_iff in H1, H2, H7, H8.
    specialize (Hzip H2). rewrite Hzip in H9.
    rewrite !orb_true_r, !andb_true_r in H9. cbn [andb] in H9.
    apply negb_false_iff in H9.
    apply andb_true_iff in H9 as [H9 Hts]. apply andb_true_iff in H9 as [Hst Hc].
    rewrite Hts in H6. cbn [andb] in H6. apply negb_false_iff in H6.
    repeat split; try assumption.
    + destruct (truthy (amount_of d)); [|auto].
      cbn [andb] in H3. now apply negb_false_iff in H3.
    + destruct (truthy (phone_of d)); [|auto].
      cbn [andb] in H4. right. now apply negb_false_iff in H4.
    + destruct (truthy (email_of d)); [|auto].
      cbn [andb] in H5. right. now apply negb_false_iff in H5.
  - intros (H1 & H2 & H3 & H4 & H5 & H6 & H7 & H8 & H9 & H10).
    rewrite H1, H2, H3, H6, H7, H8, H9, H10, (Hzip H2), (Hstate H6).
    rewrite !andb_false_r. cbn [negb andb orb].
    repeat split; try reflexivity.
    + destruct H4 as [->| ->]; [reflexivity | apply andb_false_r].
    + destruct H5 as [->| ->]; [reflexivity | apply andb_false_r].
Qed.

(** Validation reads none of the keys that it writes. *)
Lemma validation_issues_validated (d : Document) (t : Time) :
  validation_issues (validated d t) = validation_issues d.
Proof. reflexivity. Qed.

(** Validation is not idempotent.  Validating the record returned by a
    first validation (the same dictionary, which is updated in place)
    raises the same issues again: they are appended a second time, the
    status stays as it was, and the confidence is penalised twice.  Only
    a record that raises no issue is left as it was. *)
Theorem validating_twice_doubles_the_issues :
  forall (W : Type) (now : W -> Time * W) (d : Document) (w : W),
  let existing := get (flagged_issues d) [] in
  let new := validation_issues d in
  exists (r1 r2 : Document) (w1 w2 : W),
    validate_document now d w = (Ok r1, w1)
    /\ validate_document now r1 w1 = (Ok r2, w2)
    /\ flagged_issues r1 = Some (existing ++ new)%list
    /\ flagged_issues r2 = Some (existing ++ new ++ new)%list
    /\ validation_status r2 = validation_status r1
    /\ confidence_score r2
       = match new with
         | [] => confidence_score d
         | _ :: _ =>
             Some (penalised
                     (penalised (get (confidence_score d) 0.5%float) new) new)
         end.
Proof.
  intros W now d w existing new.
  exists (validated d (fst (now w))),
    (validated (validated d (fst (now w))) (fst (now (snd (now w))))),
    (snd (now w)), (snd (now (snd (now w)))).
  split; [apply ValidatorFacts.validate_document_runs|].
  split; [apply ValidatorFacts.validate_document_runs|].
  subst existing new.
  cbn [validated flagged_issues validation_status confidence_score get].
  rewrite !validation_issues_validated, <- app_assoc.
  split; [reflexivity|]. split; [reflexivity|].
  destruct (validation_issues d); split; reflexivity.
Qed.

Lemma fields_with_defaults (d : Document) :
  ein_of (with_defaults d) = ein_of d
  /\ zip_of (with_defaults d) = zip_of d
  /\ amount_of (with_defaults d) = amount_of d
  /\ phone_of (with_defaults d) = phone_of d
  /\ email_of (with_defaults d) = email_of d
  /\ state_of (with_defaults d) = state_of d
  /\ merchant_of (with_defaults d) = merchant_of d
  /\ doctype_of (with_defaults d) = doctype_of d
  /\ street_of (with_defaults d) = street_of d
  /\ city_of (with_defaults d) = city_of d.
Proof. repeat split. Qed.

(** A missing key is its empty default.  A record with absent keys raises
    the same issues as the record where each absent key holds the empty
    string (and each absent nested dictionary the empty strings): filling
    in the defaults and validating commute. *)
Theorem missing_keys_read_as_empty :
  forall (d : Document) (t : Time),
    validation_issues (with_defaults d) = validation_issues d
    /\ validated (with_defaults d) t = with_defaults (validated d t).
Proof.
  intros d t.
  assert (H : validation_issues (with_defaults d) = validation_issues d).
  { rewrite !validation_issues_of_fields.
    destruct (fields_with_defaults d)
      as (-> & -> & -> & -> & -> & -> & -> & -> & -> & ->).
    reflexivity. }
  split; [exact H|].
  unfold validated at 1. rewrite H.
  unfold with_defaults at 2. unfold validated.
  cbn [merchant_name ein_or_ssn document_type address contact_info business_info
       requested_amount source_file confidence_score flagged_issues
       validation_status requires_human_review validation_timestamp get
       with_defaults].
  reflexivity.
Qed.

End RecordFacts.

Module StringFacts.

Lemma append_assoc (a b c : string) : (a ++ b) ++ c = a ++ (b ++ c).
Proof. induction a as [|x a IH]; [reflexivity|]. cbn. now rewrite IH. Qed.

Lemma append_nil_r (a : string) : a ++ "" = a.
Proof. induction a as [|x a IH]; [reflexivity|]. cbn. now rewrite IH. Qed.

Lemma length_append (a b : string) :
  String.length (a ++ b) = (String.length a + String.length b)%nat.
Proof. induction a as [|x a IH]; [reflexivity|]. cbn. now rewrite IH. Qed.

End StringFacts.

Module StateFacts.
Import PyStr Validator Fields StringFacts.

Lemma upper_app (a b : string) : upper (a ++ b) = upper a ++ upper b.
Proof.
  induction a as [|c a IH]; [reflexivity|].
  cbn [append upper]. rewrite IH. symmetry. apply append_assoc.
Qed.

(** On ASCII characters, where [upper] and [lower] only move the letters
    a-z and A-Z. *)
Lemma upper_char_idem (c : ascii) :
  is_ascii c = true -> upper (upper_char c) = upper_char c.
Proof.
  destruct c as [[] [] [] [] [] [] [] []]; intro H;
    first [reflexivity | discriminate H].
Qed.

Lemma upper_lower_char (c : ascii) :
  is_ascii c = true -> upper_char (lower_char c) = upper_char c.
Proof.
  destruct c as [[] [] [] [] [] [] [] []]; intro H;
    first [reflexivity | discriminate H].
Qed.

Lemma upper_idem (s : string) : isascii s = true -> upper (upper s) = upper s.
Proof.
  unfold isascii. induction s as [|c s IH]; [reflexivity|].
  cbn [forallb_str upper]. intro H. apply andb_true_iff in H as [Hc Hs].
  now rewrite upper_app, upper_char_idem, IH.
Qed.

Lemma upper_lower (s : string) : isascii s = true -> upper (lower s) = upper s.
Proof.
  unfold isascii. induction s as [|c s IH]; [reflexivity|].
  cbn [forallb_str lower upper]. intro H. apply andb_true_iff in H as [Hc Hs].
  now rewrite upper_lower_char, IH.
Qed.

Lemma truthy_upper (s : string) : truthy (upper s) = truthy s.
Proof.
  destruct s as [|c s]; [reflexivity|].
  cbn [upper]. destruct c as [[] [] [] [] [] [] [] []]; reflexivity.
Qed.

Lemma truthy_lower (s : string) : truthy (lower s) = truthy s.
Proof. destruct s; reflexivity. Qed.

(** On a state written in ASCII, the check has no regard to the case of
    the letters: the upper-case and the lower-case forms of the state get
    the verdict of the state as it was written. *)
Theorem state_check_ignores_case :
  forall s : string,
    isascii s = true ->
    _validate_state (upper s) = _validate_state s
    /\ _validate_state (lower s) = _validate_state s.
Proof.
  intros s Hascii. unfold _validate_state.
  rewrite truthy_upper, truthy_lower, upper_idem, upper_lower by exact Hascii.
  split; reflexivity.
Qed.

Lemma state_check_ignores_case_witness :
  _validate_state (upper " tX ") = _validate_state " tX "
  /\ _validate_state (lower " tX ") = _validate_state " tX ".
Proof. apply (state_check_ignores_case " tX "). reflexivity. Defined.

(** An accepted state is, once in upper case and trimmed, one of the 51
    two-letter codes. *)
Theorem accepted_state_is_two_letters :
  forall s : string,
    _validate_state s = true ->
    In (strip (upper s)) valid_states /\ String.length (strip (upper s)) = 2%nat.
Proof.
  intros s H. unfold _validate_state in H.
  destruct (truthy s); [|discriminate]. cbn [negb] in H.
  apply existsb_exists in H as (code & Hin & Heq).
  apply String.eqb_eq in Heq. rewrite Heq.
  split; [exact Hin|].
  clear Heq. unfold valid_states in Hin. cbn [In] in Hin.
  repeat (destruct Hin as [<-|Hin]; [reflexivity|]). contradiction.
Qed.

Lemma accepted_state_is_two_letters_witness :
  In (strip (upper " ma ")) valid_states
  /\ String.length (strip (upper " ma ")) = 2%nat.
Proof. apply accepted_state_is_two_letters. reflexivity. Defined.

End StateFacts.

Module RegexFacts.
Import PyStr Regex RegexLanguage StringFacts.

Lemma append_eq_nil (s t : string) : s ++ t = "" -> s = "" /\ t = "".
Proof. destruct s; cbn; [auto | discriminate]. Qed.

Lemma nullable_matches (r : re) : nullable r = true <-> matches r "".
Proof.
  induction r as [| |p|a IHa b IHb|a IHa b IHb|a IHa]; cbn [nullable].
  - split; [discriminate | intro H; inversion H].
  - split; [constructor | reflexivity].
  - split; [discriminate | intro H; inversion H].
  - rewrite andb_true_iff, IHa, IHb. split.
    + intros [Ha Hb]. exact (MSeq a b "" "" Ha Hb).
    + intro H. inversion H as [| |a' b' s t Ha Hb Hab Hst| | | |]; subst.
      apply append_eq_nil in Hst as [-> ->]. auto.
  - rewrite orb_true_iff, IHa, IHb. split.
    + intros [H|H]; [now apply MAltL | now apply MAltR].
    + intro H. inversion H; subst; auto.
  - split; [constructor | reflexivity].
Qed.

(** A match of a starred expression that starts with [c] starts with a
    match of the expression that starts with [c]. *)
Lemma star_cons (a : re) (c : ascii) (s : string) :
  matches (Star a) (String c s) ->
  exists s1 s2, s = s1 ++ s2 /\ matches a (String c s1) /\ matches (Star a) s2.
Proof.
  intro H. remember (Star a) as r eqn:Er. remember (String c s) as cs eqn:Ecs.
  revert a c s Er Ecs.
  induction H as [| | | | | |a' u t Hu _ Ht IHt]; intros a0 c0 s0 Er Ecs;
    try discriminate.
  inversion Er; subst a'. destruct u as [|x u].
  - cbn in Ecs. exact (IHt a0 c0 s0 eq_refl Ecs).
  - cbn in Ecs. inversion Ecs; subst x s0. exists u, t. auto.
Qed.

Lemma deriv_matches (r : re) : forall (c : ascii) (s : string),
  matches (deriv c r) s <-> matches r (String c s).
Proof.
  induction r as [| |p|a IHa b IHb|a IHa b IHb|a IHa]; intros c s; cbn [deriv].
  - split; intro H; inversion H.
  - split; intro H; inversion H.
  - destruct (p c) eqn:Ep; split; intro H; inversion H; subst.
    + now constructor.
    + constructor.
    + congruence.
  - assert (Hseq : matches (Seq (deriv c a) b) s ->
                   matches (Seq a b) (String c s)).
    { intro H. inversion H as [| |a' b' u t Hu Ht| | | |]; subst.
      apply IHa in Hu. exact (MSeq a b (String c u) t Hu Ht). }
    assert (Hinv : matches (Seq a b) (String c s) ->
                   matches (Seq (deriv c a) b) s
                   \/ (matches a "" /\ matches b (String c s))).
    { intro H. inversion H as [| |a' b' u t Hu Ht Hab Hst| | | |]; subst.
      destruct u as [|x u]; cbn in Hst.
      - right. subst t. auto.
      - inversion Hst; subst x s. left. apply MSeq; [now apply IHa | exact Ht]. }
    destruct (nullable a) eqn:En.
    + split.
      * intro H. inversion H; subst; [auto|].
        apply nullable_matches in En.
        match goal with Hb : matches (deriv c b) s |- _ => apply IHb in Hb;
          exact (MSeq a b "" (String c s) En Hb) end.
      * intro H. destruct (Hinv H) as [H1|[_ H2]];
          [now apply MAltL | apply MAltR; now apply IHb].
    + split; [exact Hseq|].
      intro H. destruct (Hinv H) as [H1|[H2 _]]; [exact H1|].
      apply nullable_matches in H2. congruence.
  - split; intro H.
    + inversion H; subst; [apply MAltL; now apply IHa | apply MAltR; now apply IHb].
    + inversion H; subst; [apply MAltL; now apply IHa | apply MAltR; now apply IHb].
  - split; intro H.
    + inversion H as [| |a' b' u t Hu Ht| | | |]; subst.
      apply IHa in Hu. exact (MStarApp a (String c u) t Hu Ht).
    + apply star_cons in H as (s1 & s2 & -> & H1 & H2).
      apply MSeq; [now apply IHa | exact H2].
Qed.

(** The matcher by derivatives decides the language. *)
Lemma fullmatch_matches (r : re) (s : string) :
  fullmatch r s = true <-> matches r s.
Proof.
  revert r. induction s as [|c s IH]; intro r; cbn [fullmatch].
  - apply nullable_matches.
  - rewrite IH. apply deriv_matches.
Qed.

Lemma class_matches (p : ascii -> bool) (s : string) :
  matches (Class p) s <-> exists c, s = String c "" /\ p c = true.
Proof.
  split.
  - intro H. inversion H; subst. eauto.
  - intros (c & -> & Hc). now constructor.
Qed.

Lemma seq_matches (a b : re) (s : string) :
  matches (Seq a b) s <-> exists u t, s = u ++ t /\ matches a u /\ matches b t.
Proof.
  split.
  - intro H. inversion H; subst. eauto.
  - intros (u & t & -> & Hu & Ht). now constructor.
Qed.

Lemma forallb_append (p : ascii -> bool) (a b : string) :
  forallb_str p (a ++ b) = forallb_str p a && forallb_str p b.
Proof.
  induction a as [|c a IH]; [reflexivity|].
  cbn. now rewrite IH, andb_assoc.
Qed.

Lemma star_class_matches (p : ascii -> bool) (s : string) :
  matches (Star (Class p)) s <-> forallb_str p s = true.
Proof.
  split.
  - intro H. remember (Star (Class p)) as r eqn:Er.
    induction H as [| | | | | |a u t Hu _ Ht IHt]; try discriminate;
      [reflexivity|].
    inversion Er; subst a.
    apply class_matches in Hu as (c & -> & Hc).
    cbn. rewrite Hc. now apply IHt.
  - induction s as [|c s IH]; intro H; [constructor|].
    cbn in H. apply andb_true_iff in H as [Hc Hs].
    change (String c s) with (String c "" ++ s).
    apply MStarApp; [now constructor | auto].
Qed.

Lemma plus_class_matches (p : ascii -> bool) (s : string) :
  matches (plus (Class p)) s <-> s <> "" /\ forallb_str p s = true.
Proof.
  unfold plus. rewrite seq_matches. split.
  - intros (u & t & -> & Hu & Ht).
    apply class_matches in Hu as (c & -> & Hc).
    apply star_class_matches in Ht.
    split; [discriminate|]. cbn. now rewrite Hc.
  - intros [Hne H]. destruct s as [|c s]; [congruence|].
    cbn in H. apply andb_true_iff in H as [Hc Hs].
    exists (String c ""), s. split; [reflexivity|].
    split; [now constructor | now apply star_class_matches].
Qed.

Lemma lit_matches (c : ascii) (s : string) :
  matches (lit c) s <-> s = String c "".
Proof.
  unfold lit. rewrite class_matches. split.
  - intros (x & -> & Hx). apply Ascii.eqb_eq in Hx. now subst.
  - intros ->. exists c. split; [reflexivity | apply Ascii.eqb_refl].
Qed.

Lemma at_least_2_matches (p : ascii -> bool) (s : string) :
  matches (at_least_2 (Class p)) s
  <-> (2 <= String.length s)%nat /\ forallb_str p s = true.
Proof.
  unfold at_least_2. rewrite seq_matches. split.
  - intros (u & t & -> & Hu & Ht).
    apply class_matches in Hu as (c & -> & Hc).
    apply seq_matches in Ht as (u2 & t2 & -> & Hu2 & Ht2).
    apply class_matches in Hu2 as (c2 & -> & Hc2).
    apply star_class_matches in Ht2.
    cbn. rewrite Hc, Hc2, Ht2. split; [lia | reflexivity].
  - intros [Hlen H]. destruct s as [|c [|c2 s]]; cbn in Hlen; try lia.
    cbn in H. apply andb_true_iff in H as [Hc H].
    apply andb_true_iff in H as [Hc2 Hs].
    exists (String c ""), (String c2 s). split; [reflexivity|].
    split; [now constructor|].
    apply seq_matches. exists (String c2 ""), s. split; [reflexivity|].
    split; [now constructor | now apply star_class_matches].
Qed.

End RegexFacts.

Module EmailFacts.
Import PyStr Regex RegexLanguage RegexFacts Validator EmailShape StringFacts.

Lemma email_pattern_matches (s : string) :
  matches email_pattern s <-> exists local domain tld, well_formed s local domain tld.
Proof.
  unfold email_pattern, well_formed. split.
  - intro H.
    apply seq_matches in H as (local & r1 & -> & Hlocal & H).
    apply seq_matches in H as (at_sign & r2 & -> & Hat & H).
    apply seq_matches in H as (domain & r3 & -> & Hdomain & H).
    apply seq_matches in H as (dot & tld & -> & Hdot & Htld).
    apply lit_matches in Hat, Hdot. subst at_sign dot.
    apply plus_class_matches in Hlocal as [? ?], Hdomain as [? ?].
    apply at_least_2_matches in Htld as [? ?].
    exists local, domain, tld. repeat split; assumption.
  - intros (local & domain & tld & -> & H1 & H2 & H3 & H4 & H5 & H6).
    apply seq_matches. exists local, ("@" ++ domain ++ "." ++ tld).
    split; [reflexivity|]. split; [now apply plus_class_matches|].
    apply seq_matches. exists "@", (domain ++ "." ++ tld).
    split; [reflexivity|]. split; [now apply lit_matches|].
    apply seq_matches. exists domain, ("." ++ tld).
    split; [reflexivity|]. split; [now apply plus_class_matches|].
    apply seq_matches. exists ".", tld.
    split; [reflexivity|]. split; [now apply lit_matches|].
    now apply at_least_2_matches.
Qed.

(** An email is accepted exactly when, once trimmed, it reads
    [local@domain.tld]: a non-empty local part of letters, digits and
    [._%+-], a non-empty domain of letters, digits, dots and hyphens, and
    after the last dot at least two letters. *)
Theorem email_is_local_at_domain_tld :
  forall email : string,
    _validate_email email = true
    <-> exists local domain tld, well_formed (strip email) local domain tld.
Proof.
  intro email. unfold _validate_email.
  rewrite <- email_pattern_matches, <- fullmatch_matches.
  destruct email as [|c email]; cbn [truthy negb]; [|reflexivity].
  split; [discriminate|]. intro H. exact H.
Qed.

End EmailFacts.

Module SummaryFacts.
Import Summary Issues.

Lemma count_if_le {A} (test : A -> bool) (l : list A) :
  (count_if test l <= List.length l)%nat.
Proof. unfold count_if. apply filter_length_le. Qed.

Lemma ratio_bounds (p t : nat) :
  (0 < t)%nat -> (p <= t)%nat ->
  (0 <= ratio (of_nat p) t)%Q /\ (ratio (of_nat p) t <= 1)%Q.
Proof.
  intros Ht Hp. unfold ratio, of_nat.
  assert (Hpos : (0 < inject_Z (Z.of_nat t))%Q).
  { change 0%Q with (inject_Z 0). rewrite <- Zlt_Qlt. lia. }
  split.
  - apply Qle_shift_div_l; [exact Hpos|].
    rewrite Qmult_0_l. change 0%Q with (inject_Z 0). rewrite <- Zle_Qle. lia.
  - apply Qle_shift_div_r; [exact Hpos|].
    rewrite Qmult_1_l. rewrite <- Zle_Qle. lia.
Qed.

(** The summary of an empty list is empty.  Otherwise every document is
    counted as passed or as failed, a document without status as failed;
    the documents to review are among them; and the pass rate is the
    share of the passed ones, between 0 and 1. *)
Theorem summary_counts_every_document :
  forall (sum_floats : list float -> float) (docs : list Document),
    match get_validation_summary sum_floats docs with
    | None => docs = []
    | Some s =>
        docs <> []
        /\ total_documents s = List.length docs
        /\ (validation_passed s + validation_failed s)%nat = total_documents s
        /\ (needs_review s <= total_documents s)%nat
        /\ pass_rate s = ratio (of_nat (validation_passed s)) (total_documents s)
        /\ (0 <= pass_rate s)%Q /\ (pass_rate s <= 1)%Q
    end.
Proof.
  intros sum_floats docs. unfold get_validation_summary.
  destruct docs as [|doc docs]; [reflexivity|].
  set (all := doc :: docs).
  assert (Hlen : (0 < List.length all)%nat) by (cbn; lia).
  destruct (List.length all =? 0)%nat eqn:E; [apply Nat.eqb_eq in E; lia|].
  cbn [total_documents validation_passed validation_failed needs_review pass_rate].
  set (passed_count := count_if _ all).
  assert (Hp : (passed_count <= List.length all)%nat) by apply count_if_le.
  assert (Hpos : (0 <? List.length all)%nat = true) by now apply Nat.ltb_lt.
  rewrite Hpos.
  split; [discriminate|]. split; [reflexivity|]. split; [lia|].
  split; [apply count_if_le|]. split; [reflexivity|].
  apply ratio_bounds; assumption.
Qed.

(** *** The dictionary of counts *)

Lemma count_for_cons (key k : string) (n : nat) (counts : list (string * nat)) :
  count_for key ((k, n) :: counts)
  = ((if String.eqb k key then n else 0) + count_for key counts)%nat.
Proof.
  unfold count_for. cbn [filter fst]. destruct (String.eqb k key); reflexivity.
Qed.

Lemma bump_count (issue key : string) (counts : list (string * nat)) :
  count_for key (bump issue counts)
  = (count_for key counts + (if String.eqb issue key then 1 else 0))%nat.
Proof.
  induction counts as [|[k n] counts IH].
  - cbn [bump]. rewrite count_for_cons. unfold count_for. cbn.
    destruct (String.eqb issue key); reflexivity.
  - cbn [bump]. destruct (String.eqb_spec k issue) as [->|Hk].
    + rewrite !count_for_cons. destruct (String.eqb issue key); lia.
    + rewrite !count_for_cons, IH. lia.
Qed.

Lemma bump_keys (issue : string) (counts : list (string * nat)) :
  map fst (bump issue counts)
  = if existsb (String.eqb issue) (map fst counts) then map fst counts
    else (map fst counts ++ [issue])%list.
Proof.
  induction counts as [|[k n] counts IH]; [reflexivity|].
  cbn [bump map fst existsb]. rewrite (String.eqb_sym issue k).
  destruct (String.eqb k issue); cbn [orb map fst]; [reflexivity|].
  rewrite IH. destruct (existsb (String.eqb issue) (map fst counts)); reflexivity.
Qed.

Lemma bump_nodup (issue : string) (counts : list (string * nat)) :
  NoDup (map fst counts) -> NoDup (map fst (bump issue counts)).
Proof.
  intro H. rewrite bump_keys.
  destruct (existsb (String.eqb issue) (map fst counts)) eqn:E; [exact H|].
  apply NoDup_app; [exact H | repeat constructor; intros [] |].
  intros k Hk [<-|[]].
  assert (existsb (String.eqb issue) (map fst counts) = true).
  { apply existsb_exists. exists issue. split; [exact Hk | apply String.eqb_refl]. }
  congruence.
Qed.

Lemma bump_positive (issue : string) (counts : list (string * nat)) :
  Forall (fun e => (1 <= snd e)%nat) counts ->
  Forall (fun e => (1 <= snd e)%nat) (bump issue counts).
Proof.
  induction counts as [|[k n] counts IH]; intro H.
  - repeat constructor.
  - inversion H as [|? ? Hn Hrest]; subst. cbn [bump].
    destruct (String.eqb k issue).
    + constructor; [cbn; lia | exact Hrest].
    + constructor; [exact Hn | auto].
Qed.

Lemma count_for_absent (key : string) (counts : list (string * nat)) :
  ~ In key (map fst counts) -> count_for key counts = 0%nat.
Proof.
  induction counts as [|[k n] counts IH]; intro H; [reflexivity|].
  rewrite count_for_cons. cbn [map fst In] in H.
  destruct (String.eqb_spec k key) as [->|Hk]; [tauto|].
  rewrite IH; tauto.
Qed.

(** With distinct keys, the count held for a key is that of its entry. *)
Lemma count_for_entry (key : string) (n : nat) (counts : list (string * nat)) :
  NoDup (map fst counts) -> In (key, n) counts -> count_for key counts = n.
Proof.
  induction counts as [|[k m] counts IH]; intros Hnd Hin; [contradiction|].
  cbn [map fst] in Hnd. inversion Hnd as [|? ? Hk Hrest]; subst.
  rewrite count_for_cons. destruct Hin as [Heq|Hin].
  - inversion Heq; subst. rewrite String.eqb_refl.
    rewrite count_for_absent; [lia | exact Hk].
  - destruct (String.eqb_spec k key) as [->|Hne].
    + exfalso. apply Hk. change key with (fst (key, n)). now apply in_map.
    + cbn. auto.
Qed.

Lemma count_for_present (key : string) (counts : list (string * nat)) :
  (1 <= count_for key counts)%nat -> exists n, In (key, n) counts.
Proof.
  induction counts as [|[k m] counts IH]; intro H.
  - cbn in H. lia.
  - rewrite count_for_cons in H.
    destruct (String.eqb_spec k key) as [->|Hne].
    + exists m. now left.
    + destruct IH as [n Hn]; [cbn in H; lia|]. exists n. now right.
Qed.

Lemma count_if_app {A} (test : A -> bool) (l l' : list A) :
  count_if test (l ++ l') = (count_if test l + count_if test l')%nat.
Proof. unfold count_if. now rewrite filter_app, length_app. Qed.

(** The loop keeps distinct keys and positive counts, and counts every
    issue it has seen. *)
Lemma tally_loop (issues : list string) :
  forall (seen : list string) (counts : list (string * nat)),
    NoDup (map fst counts) ->
    Forall (fun e => (1 <= snd e)%nat) counts ->
    (forall key, count_for key counts = count_if (String.eqb key) seen) ->
    let final := fold_left (fun counts issue => bump issue counts) issues counts in
    NoDup (map fst final)
    /\ Forall (fun e => (1 <= snd e)%nat) final
    /\ (forall key,
          count_for key final = count_if (String.eqb key) (seen ++ issues)).
Proof.
  induction issues as [|issue issues IH]; intros seen counts Hnd Hpos Hcount.
  - cbn. rewrite app_nil_r. auto.
  - cbn [fold_left].
    replace (seen ++ issue :: issues)%list with ((seen ++ [issue]) ++ issues)%list
      by (rewrite <- app_assoc; reflexivity).
    apply IH.
    + now apply bump_nodup.
    + now apply bump_positive.
    + intro key. rewrite bump_count, Hcount, count_if_app.
      unfold count_if at 3. cbn [filter]. rewrite (String.eqb_sym key issue).
      destruct (String.eqb issue key); reflexivity.
Qed.

Lemma tally_spec (docs : list Document) :
  NoDup (map fst (tally docs))
  /\ (forall issue n,
        In (issue, n) (tally docs) <-> n = occurrences issue docs /\ (1 <= n)%nat).
Proof.
  destruct (tally_loop (all_issues docs) [] []) as (Hnd & Hpos & Hcount);
    [constructor | constructor | reflexivity |].
  cbn [app] in Hcount. fold (tally docs) in Hnd, Hpos, Hcount.
  split; [exact Hnd|].
  intros issue n. unfold occurrences. rewrite <- Hcount. split.
  - intro Hin. split.
    + symmetry. now apply count_for_entry.
    + rewrite Forall_forall in Hpos. exact (Hpos _ Hin).
  - intros [-> Hn]. destruct (count_for_present _ _ Hn) as [m Hm].
    rewrite (count_for_entry _ _ _ Hnd Hm) in *. exact Hm.
Qed.

(** *** The sorted listing *)

Lemma insert_by_count_perm (item : string * nat) (l : list (string * nat)) :
  Permutation (item :: l) (insert_by_count item l).
Proof.
  induction l as [|other l IH]; [reflexivity|].
  cbn [insert_by_count]. destruct (snd item <? snd other)%nat; [|reflexivity].
  rewrite perm_swap. now constructor.
Qed.

Lemma sorted_by_count_perm (l : list (string * nat)) :
  Permutation l (sorted_by_count l).
Proof.
  induction l as [|item l IH]; [reflexivity|].
  cbn [sorted_by_count fold_right]. fold (sorted_by_count l).
  rewrite <- insert_by_count_perm. now constructor.
Qed.

Lemma insert_by_count_sorted (item : string * nat) (l : list (string * nat)) :
  StronglySorted by_count l -> StronglySorted by_count (insert_by_count item l).
Proof.
  induction l as [|other l IH]; intro H; [repeat constructor|].
  inversion H as [|? ? Hl Hall]; subst. cbn [insert_by_count].
  destruct (snd item <? snd other)%nat eqn:E.
  - apply Nat.ltb_lt in E. constructor; [auto|].
    rewrite <- insert_by_count_perm. constructor; [unfold by_count; lia | exact Hall].
  - apply Nat.ltb_ge in E. constructor; [exact H|].
    constructor; [exact E|].
    rewrite Forall_forall in *. intros x Hx. specialize (Hall x Hx).
    unfold by_count in *. lia.
Qed.

Lemma sorted_by_count_sorted (l : list (string * nat)) :
  StronglySorted by_count (sorted_by_count l).
Proof.
  induction l as [|item l IH]; [constructor|].
  cbn [sorted_by_count fold_right]. now apply insert_by_count_sorted.
Qed.

Lemma sorted_firstn (n : nat) (l : list (string * nat)) :
  StronglySorted by_count l ->
  StronglySorted by_count (firstn n l)
  /\ (forall a b, In a (firstn n l) -> In b (skipn n l) -> by_count a b).
Proof.
  revert n. induction l as [|x l IH]; intros n H.
  - rewrite firstn_nil, skipn_nil. split; [constructor | contradiction].
  - destruct n as [|n]; [split; [constructor | contradiction]|].
    inversion H as [|? ? Hl Hall]; subst. cbn [firstn skipn].
    destruct (IH n Hl) as [Hs Hsep]. split.
    + constructor; [exact Hs|].
      rewrite Forall_forall in *. intros y Hy. apply Hall.
      rewrite <- (firstn_skipn n l). apply in_or_app. now left.
    + intros a b [<-|Ha] Hb; [|now apply Hsep].
      rewrite Forall_forall in Hall. apply Hall.
      rewrite <- (firstn_skipn n l). apply in_or_app. now right.
Qed.

(** The common issues of a summary are at most five, each with the number
    of times it is flagged on the documents, the most frequent first; an
    issue that is flagged and not listed is no more frequent than any of
    the five that are. *)
Theorem common_issues_are_the_most_frequent :
  forall (sum_floats : list float -> float) (docs : list Document),
    match get_validation_summary sum_floats docs with
    | None => True
    | Some s =>
        let top := common_issues s in
        (List.length top <= 5)%nat
        /\ NoDup (map fst top)
        /\ StronglySorted by_count top
        /\ (forall issue n,
              In (issue, n) top -> n = occurrences issue docs /\ (1 <= n)%nat)
        /\ (forall issue,
              (1 <= occurrences issue docs)%nat ->
              In (issue, occurrences issue docs) top
              \/ (List.length top = 5%nat
                  /\ forall e, In e top -> (occurrences issue docs <= snd e)%nat))
    end.
Proof.
  intros sum_floats docs. unfold get_validation_summary.
  destruct (List.length docs =? 0)%nat; [exact I|].
  cbn [common_issues]. cbv zeta.
  destruct (tally_spec docs) as [Hnd Hin].
  pose proof (sorted_by_count_perm (tally docs)) as Hperm.
  pose proof (sorted_by_count_sorted (tally docs)) as Hsorted.
  set (listing := sorted_by_count (tally docs)) in *.
  destruct (sorted_firstn 5 listing Hsorted) as [Htop Hsep].
  assert (Hsub : forall e, In e (firstn 5 listing) -> In e (tally docs)).
  { intros e He. apply (Permutation_in e (Permutation_sym Hperm)).
    rewrite <- (firstn_skipn 5 listing). apply in_or_app. now left. }
  split; [apply firstn_le_length|].
  split.
  { assert (Hnd' : NoDup (map fst listing))
      by (eapply Permutation_NoDup; [apply Permutation_map, Hperm | exact Hnd]).
    rewrite <- (firstn_skipn 5 listing), map_app in Hnd'.
    now apply NoDup_app_remove_r in Hnd'. }
  split; [exact Htop|].
  split.
  { intros issue n He. apply Hin, Hsub, He. }
  intros issue Hocc.
  assert (He : In (issue, occurrences issue docs) listing).
  { apply (Permutation_in _ Hperm). apply Hin. auto. }
  rewrite <- (firstn_skipn 5 listing) in He. apply in_app_or in He as [He|He].
  - now left.
  - right. split.
    + apply firstn_length_le.
      destruct (Nat.le_gt_cases 5 (List.length listing)) as [Hle|Hgt]; [exact Hle|].
      rewrite skipn_all2 in He by lia. contradiction.
    + intros e Hin_top. exact (Hsep e _ Hin_top He).
Qed.

End SummaryFacts.

(** ** [crm_submit.py]: [get_submission_stats] *)

Module LogFacts.
Import SubmissionLog.

(** The sum of the four counters of the statuses. *)
Lemma filed_counted (status : string) (s : Stats) :
  total (filed status (counted s)) = S (total s)
  /\ (accepted (filed status (counted s)) + rejected (filed status (counted s))
      + pending (filed status (counted s)) + failed (filed status (counted s)))%nat
     = S (accepted s + rejected s + pending s + failed s).
Proof.
  unfold filed, counted.
  destruct (String.eqb status "accepted"); [cbn; lia|].
  destruct (String.eqb status "rejected"); [cbn; lia|].
  destruct (String.eqb status "pending_review"); cbn; lia.
Qed.

Lemma read_lines_counts (lines : list LogLine) :
  forall s : Stats,
    let sum (s : Stats) := (accepted s + rejected s + pending s + failed s)%nat in
    let r := read_lines lines s in
    ((total r - total s = sum r - sum s)%nat
     \/ (In Unexpected lines /\ (total r - total s = S (sum r - sum s))%nat))
    /\ (total s <= total r)%nat /\ (sum s <= sum r)%nat
    /\ (total r - total s <= List.length lines)%nat.
Proof.
  induction lines as [|line lines IH]; intro s; cbv zeta.
  - cbn. split; [left|]; lia.
  - destruct line as [|status| |]; cbn [read_lines List.length].
    + specialize (IH s). cbv zeta in IH.
      destruct IH as ([IH|[Hin IH]] & H1 & H2 & H3).
      * split; [left; exact IH | lia].
      * split; [right; split; [now right | exact IH] | lia].
    + specialize (IH (filed status (counted s))). cbv zeta in IH.
      destruct (filed_counted status s) as [Ht Hs].
      destruct IH as ([IH|[Hin IH]] & H1 & H2 & H3).
      * split; [left; lia | lia].
      * split; [right; split; [now right | lia] | lia].
    + unfold counted; cbn [total accepted rejected pending failed].
      split; [right; split; [now left | lia] | lia].
    + split; [left; lia | lia].
Qed.

(** Every entry counted in the total is counted under one of the four
    statuses, except at most one: the total is the sum of the four counters,
    or one more, which takes a line that is JSON without being an object.
    The total is at most the number of lines of the log, and all counters
    are zero when there is no log file. *)
Theorem log_counters_add_up :
  forall log : option (list LogLine),
    let stats := get_submission_stats log in
    let sum := (accepted stats + rejected stats + pending stats + failed stats)%nat in
    (total stats = sum
     \/ (total stats = S sum /\ exists lines, log = Some lines /\ In Unexpected lines))
    /\ match log with
       | None => stats = no_stats
       | Some lines => (total stats <= List.length lines)%nat
       end.
Proof.
  intros [lines|]; cbv zeta; cbn [get_submission_stats].
  - pose proof (read_lines_counts lines no_stats) as H. cbv zeta in H. cbn in H.
    rewrite !Nat.sub_0_r in H.
    destruct H as ([H|[Hin H]] & _ & _ & Hlen).
    + split; [left; exact H | exact Hlen].
    + split; [right; split; [exact H | now exists lines] | exact Hlen].
  - split; [left; reflexivity | reflexivity].
Qed.

(** A status other than the three that are counted apart, such as
    ["failed"], ["unknown"] or a misspelt one, is counted as failed. *)
Lemma filed_other (status : string) (s : Stats) :
  status <> "accepted" -> status <> "rejected" -> status <> "pending_review" ->
  filed status s
  = mkStats (total s) (accepted s) (rejected s) (S (failed s)) (pending s).
Proof.
  intros H1 H2 H3. unfold filed.
  destruct (String.eqb_spec status "accepted"); [contradiction|].
  destruct (String.eqb_spec status "rejected"); [contradiction|].
  destruct (String.eqb_spec status "pending_review"); [contradiction|].
  reflexivity.
Qed.

End LogFacts.

(** ** [pipeline.py]: [get_processing_statistics] *)

Module StatisticsFacts.
Import Pipeline Statistics.

Lemma completed_data_length (docs : list DocumentResult) :
  List.length (completed_data docs) = Summary.count_if is_completed docs.
Proof.
  unfold completed_data, Summary.count_if.
  induction docs as [|doc docs IH]; [reflexivity|].
  cbn [filter]. destruct doc as [data submission seconds|name error stamp seconds].
  - change (is_completed (Completed data submission seconds)) with true.
    cbn [flat_map app List.length]. now rewrite IH.
  - change (is_completed (Failed name error stamp seconds)) with false.
    exact IH.
Qed.

Section WithLog.
Context {W : Type}.
Variable sum_floats : list float -> float.
Variable crm_get_submission_stats : W -> SubmissionLog.Stats * W.

(** The statistics of no document are empty, and the log is not read.
    Otherwise the call returns: every document is counted as successful or
    as failed, the validation summary covers the completed documents only
    (there is none when no document completed), the success rate lies
    between 0 and 1, and the submission counters are those read from the
    log, whatever the documents. *)
Theorem statistics_split_the_documents :
  forall (docs : list DocumentResult) (w : W),
    match docs with
    | [] => get_processing_statistics sum_floats crm_get_submission_stats docs w = (Ok None, w)
    | _ :: _ =>
        exists report,
          get_processing_statistics sum_floats crm_get_submission_stats docs w
          = (Ok (Some report), snd (crm_get_submission_stats w))
          /\ total_documents (processing report) = List.length docs
          /\ (successful (processing report) + failed (processing report))%nat
             = List.length docs
          /\ successful (processing report) = List.length (completed_data docs)
          /\ validation report = Summary.get_validation_summary sum_floats
                                   (completed_data docs)
          /\ (validation report = None <-> successful (processing report) = 0%nat)
          /\ (forall summary, validation report = Some summary ->
                Summary.total_documents summary = successful (processing report))
          /\ (0 <= success_rate (processing report))%Q
          /\ (success_rate (processing report) <= 1)%Q
          /\ submission report = fst (crm_get_submission_stats w)
    end.
Proof.
  intros [|doc docs] w; [reflexivity|].
  unfold get_processing_statistics, bind, total, ret.
  destruct (crm_get_submission_stats w) as [stats w'].
  cbn [fst snd]. set (all := doc :: docs).
  assert (Hlen : (0 < List.length all)%nat) by (cbn; lia).
  assert (Hle : (Summary.count_if is_completed all <= List.length all)%nat)
    by apply SummaryFacts.count_if_le.
  eexists. split; [reflexivity|]. cbn [processing validation submission
    total_documents successful failed success_rate].
  split; [reflexivity|]. split; [lia|].
  split; [symmetry; apply completed_data_length|].
  split; [reflexivity|].
  rewrite <- completed_data_length.
  split.
  { unfold Summary.get_validation_summary.
    destruct (completed_data all) as [|d ds]; cbn [List.length Nat.eqb];
      split; intro H; try reflexivity; discriminate. }
  split.
  { intros summary H. unfold Summary.get_validation_summary in H.
    destruct (List.length (completed_data all) =? 0)%nat; [discriminate|].
    inversion H; subst. reflexivity. }
  rewrite completed_data_length.
  destruct (0 <? List.length all)%nat eqn:E; [|apply Nat.ltb_ge in E; lia].
  split; [apply SummaryFacts.ratio_bounds | split; [apply SummaryFacts.ratio_bounds | reflexivity]]; assumption.
Qed.

End WithLog.

End StatisticsFacts.

(** ** [crm_submit.py]: the decision of the mock CRM *)

Module CrmFacts.
Import CRM Decision.

Section WithOutside.
Context {W : Type}.
Variable now : W -> Time * W.
Variable sleep : Q -> W -> W.
Variable random_uniform : Q -> Q -> W -> Q * W.
Variable random_randint : Z -> Z -> W -> Z * W.
Variable random_random : W -> Q * W.
Variable _generate_json_file : Document -> M W string.
Variable _log_submission : Document -> Response.t + string -> W -> W.

Lemma mock_crm_decides (parsed_data : Document) (w : W) :
  exists resp w',
    _mock_crm_submit now sleep random_uniform random_randint random_random
      parsed_data w = (Ok resp, w')
    /\ decided parsed_data resp.
Proof.
  unfold _mock_crm_submit, bind, total, effect, ret, decided.
  destruct (random_uniform 0.5 1.5 w) as [delay w1].
  cbv zeta.
  destruct (PrimFloat.ltb (get (confidence_score parsed_data) 0.5%float)
              0.3%float) eqn:Hlow;
  destruct (validation_status parsed_data) as [[|]|] eqn:Estatus;
    repeat first
      [ match goal with
        | |- context [if lt ?a ?b then _ else _] => destruct (lt a b) eqn:?
        end
      | match goal with
        | |- context [random_randint ?a ?b ?w] =>
            destruct (random_randint a b w) as [? ?]
        end
      | match goal with
        | |- context [random_random ?w] => destruct (random_random w) as [? ?]
        end
      | match goal with
        | |- context [now ?w] => destruct (now w) as [? ?]
        end ];
    eexists _, _; (split; [reflexivity|]);
    cbn [Response.status Response.crm_id Response.retry_suggested Response.reason];
    repeat split; intros;
    repeat match goal with
           | H : _ /\ _ |- _ => destruct H
           | H : _ \/ _ |- _ => destruct H
           end;
    try discriminate; try congruence; try reflexivity; try assumption;
    try contradiction;
    try (left; reflexivity); try (right; reflexivity);
    try (split; congruence).
Qed.
End WithOutside.

(** Submission returns a result that carries a response of the CRM unless
    the JSON file could not be written.  The response is decided by the
    record alone, but for the draw between accepted and failed: rejected
    exactly when validation failed; otherwise pending review exactly when
    the confidence (0.5 when the record has none) is below 0.3; otherwise
    accepted or failed.  It has a CRM identifier exactly when accepted or
    pending review, suggests a retry exactly when failed, and gives a reason
    unless accepted. *)
Theorem response_follows_status_and_confidence :
  forall (W : Type) (now : W -> Time * W) (sleep : Q -> W -> W)
         (random_uniform : Q -> Q -> W -> Q * W)
         (random_randint : Z -> Z -> W -> Z * W)
         (random_random : W -> Q * W)
         (_generate_json_file : Document -> M W string)
         (_log_submission : Document -> Response.t + string -> W -> W)
         (parsed_data : Document) (w : W),
  exists (r : SubmissionResult) (w' : W),
    submit_document now sleep random_uniform random_randint random_random
      _generate_json_file _log_submission parsed_data w = (Ok r, w')
    /\ match crm_response r with
       | Some resp =>
           status r = "success"
           /\ (exists file w1, _generate_json_file parsed_data w = (Ok file, w1))
           /\ decided parsed_data resp
       | None =>
           status r = "failed"
           /\ exists e w1, _generate_json_file parsed_data w = (Raise e, w1)
       end.
Proof.
  intros W now sleep random_uniform random_randint random_random
    _generate_json_file _log_submission parsed_data w.
  unfold submit_document, try_except, bind.
  destruct (_generate_json_file parsed_data w) as [[file|e] w1] eqn:Ejson.
  - destruct (mock_crm_decides now sleep random_uniform random_randint
                random_random parsed_data w1) as (resp & w2 & Hrun & Hdecided).
    rewrite Hrun. cbn.
    eexists _, _. split; [reflexivity|]. cbn.
    split; [reflexivity|]. split; [eauto | exact Hdecided].
  - cbn. eexists _, _. split; [reflexivity|]. cbn.
    split; [reflexivity | eauto].
Qed.

End CrmFacts.

(** ** The stages put together *)

Module AssemblyFacts.
Import PyStr Pipeline Assembly Decision Observers.

(** A completed result is made of the values that the four stages
    returned, in a row. *)
Lemma completed_inversion {W} (self : Components W) (now : W -> Time * W)
    (file_path : string) (w w' : W) validated_data submission seconds :
  process_single_document self now file_path w
  = (Ok (Completed validated_data submission seconds), w') ->
  exists text w1 parsed w2 w3 w4,
    ocr_extract_text self file_path (snd (now w)) = (Ok text, w1)
    /\ truthy (strip text) = true
    /\ llm_parse_document self text (Some (basename file_path)) w1 = (Ok parsed, w2)
    /\ validator_validate_document self parsed w2 = (Ok validated_data, w3)
    /\ crm_submit_document self validated_data w3 = (Ok submission, w4).
Proof.
  unfold process_single_document, try_except, bind, total, ret, raise.
  destruct (now w) as [start_time w0]. cbn [snd].
  destruct (ocr_extract_text self file_path w0) as [[text|e] w1] eqn:E1;
    [|destruct (now w1) as [? ?]; destruct (now _) as [? ?]; discriminate].
  destruct (truthy (strip text)) eqn:Etext; cbn [negb];
    [|destruct (now w1) as [? ?]; destruct (now _) as [? ?]; discriminate].
  destruct (llm_parse_document self text (Some (basename file_path)) w1)
    as [[parsed|e] w2] eqn:E2;
    [|destruct (now w2) as [? ?]; destruct (now _) as [? ?]; discriminate].
  destruct (validator_validate_document self parsed w2) as [[validated|e] w3] eqn:E3;
    [|destruct (now w3) as [? ?]; destruct (now _) as [? ?]; discriminate].
  destruct (crm_submit_document self validated w3) as [[submitted|e] w4] eqn:E4;
    [|destruct (now w4) as [? ?]; destruct (now _) as [? ?]; discriminate].
  destruct (now w4) as [end_time w5]. intro H. inversion H; subst.
  now exists text, w1, parsed, w2, w3, w4.
Qed.

(** What the parser returns has every key of the schema, the confidence
    0.7, no issue and no validation status. *)
Lemma parsed_is_complete {W} (generator : string -> M W LLM.Response)
    (text : string) (filename : option string) (w w' : W) (parsed : Document) :
  LLM.parse_document generator text filename w = (Ok parsed, w') ->
  complete parsed /\ validation_status parsed = None.
Proof.
  destruct (ChunkFacts.chunk_text_nonempty text) as (chunk & rest & Hchunks).
  rewrite (ParseFacts.parse_document_runs _ _ _ _ _ _ Hchunks).
  destruct (ask_all generator _ w) as [[rs [e|]] w1]; [discriminate|].
  intro H. inversion H; subst.
  split; [apply ExtractorFacts.complete_assemble | reflexivity].
Qed.

Lemma submitted_response_decided {W} (now : W -> Time * W) sleep random_uniform
    random_randint random_random _generate_json_file _log_submission
    (parsed_data : Document) (w w' : W) (r : CRM.SubmissionResult)
    (resp : CRM.Response.t) :
  CRM.submit_document now sleep random_uniform random_randint random_random
    _generate_json_file _log_submission parsed_data w = (Ok r, w') ->
  CRM.crm_response r = Some resp ->
  decided parsed_data resp.
Proof.
  unfold CRM.submit_document, try_except, bind.
  destruct (_generate_json_file parsed_data w) as [[file|e] w1].
  - destruct (CrmFacts.mock_crm_decides now sleep random_uniform random_randint
                random_random parsed_data w1) as (resp' & w2 & Hrun & Hdecided).
    rewrite Hrun. cbn. intros H Hresp. inversion H; subst.
    cbn in Hresp. inversion Hresp; subst. exact Hdecided.
  - cbn. intros H Hresp. inversion H; subst. discriminate.
Qed.

(** In the pipeline made of the parser, the validator and the submitter of
    the program, every document gives a result, and a completed one holds
    the validated form of a complete record from the parser.  A record that
    passed has kept the confidence 0.7 of the parser and has no issue; one
    that failed is marked for review.  The CRM rejects exactly the records
    that failed, and never answers "pending review": the confidence of a
    record that passed is never below 0.3. *)
Theorem pipeline_never_defers_to_review :
  forall (W : Type) (extract_text : string -> M W string)
         (generator : string -> M W LLM.Response)
         (now : W -> Time * W) (sleep : Q -> W -> W)
         (random_uniform : Q -> Q -> W -> Q * W)
         (random_randint : Z -> Z -> W -> Z * W)
         (random_random : W -> Q * W)
         (_generate_json_file : Document -> M W string)
         (_log_submission : Document -> CRM.Response.t + string -> W -> W)
         (generate_csv_summary : list DocumentResult -> M W string)
         (file_path : string) (w : W),
  exists (r : DocumentResult) (w' : W),
    process_single_document
      (components extract_text generator now sleep random_uniform random_randint
         random_random _generate_json_file _log_submission generate_csv_summary)
      now file_path w = (Ok r, w')
    /\ match r with
       | Failed _ _ _ _ => True
       | Completed validated_data submission _ =>
           (exists parsed timestamp,
              complete parsed
              /\ validated_data = Validator.validated parsed timestamp)
           /\ match validation_status validated_data with
              | Some passed =>
                  confidence_score validated_data = Some 0.7%float
                  /\ flagged_issues validated_data = Some []
                  /\ requires_human_review validated_data = Some false
              | Some failed =>
                  flagged_issues validated_data <> Some []
                  /\ requires_human_review validated_data = Some true
              | None => False
              end
           /\ forall resp,
                CRM.crm_response submission = Some resp ->
                CRM.Response.status resp <> "pending_review"
                /\ (CRM.Response.status resp = "rejected"
                    <-> validation_status validated_data = Some failed)
       end.
Proof.
  intros.
  set (self := components _ _ _ _ _ _ _ _ _ _).
  destruct (PipelineFacts.process_single_document_returns self now file_path w)
    as (r & w' & Hrun & _).
  exists r, w'. split; [exact Hrun|].
  destruct r as [validated_data submission seconds|]; [|exact I].
  apply completed_inversion in Hrun
    as (text & w1 & parsed & w2 & w3 & w4 & _ & _ & Hparse & Hvalidate & Hsubmit).
  cbn [self components llm_parse_document validator_validate_document
       crm_submit_document] in Hparse, Hvalidate, Hsubmit.
  apply parsed_is_complete in Hparse as [Hcomplete Hstatus].
  unfold Validator.validate_document, bind, total, ret in Hvalidate.
  destruct (now w2) as [timestamp w2']. inversion Hvalidate; subst w3.
  clear Hvalidate. subst validated_data.
  assert (Hparts := Hcomplete).
  destruct Hparts as (_ & _ & _ & _ & _ & Hconfidence & Hissues).
  split; [exists parsed, timestamp; split; [exact Hcomplete | reflexivity]|].
  set (validated_data := Validator.validated parsed timestamp) in *.
  assert (Hcases :
    match validation_status validated_data with
    | Some passed =>
        confidence_score validated_data = Some 0.7%float
        /\ flagged_issues validated_data = Some []
        /\ requires_human_review validated_data = Some false
    | Some failed =>
        flagged_issues validated_data <> Some []
        /\ requires_human_review validated_data = Some true
    | None => False
    end).
  { subst validated_data. unfold Validator.validated.
    cbn [validation_status confidence_score flagged_issues requires_human_review].
    rewrite Hissues. cbn [get app].
    destruct (Validator.validation_issues parsed) as [|issue issues].
    - rewrite Hconfidence. repeat split.
    - split; [discriminate | reflexivity]. }
  split; [exact Hcases|].
  intros resp Hresp.
  pose proof (submitted_response_decided _ _ _ _ _ _ _ _ _ _ _ _ Hsubmit Hresp)
    as (Hrejected & Hpending & _).
  split; [|exact Hrejected].
  intro Hp. apply Hpending in Hp as [Hnot Hlow].
  destruct (validation_status validated_data) as [[|]|] eqn:Ev.
  - destruct Hcases as (Hc & _). rewrite Hc in Hlow. cbn [get] in Hlow.
    discriminate.
  - now apply Hnot.
  - exact Hcases.
Qed.

End AssemblyFacts.

(** ** Paths *)

Module PathFacts.
Import PyStr.

Lemma contains_app (c : ascii) (a b : string) :
  contains c (a ++ b) = contains c a || contains c b.
Proof.
  unfold contains. induction a as [|x a IH]; [reflexivity|].
  cbn [append existsb_str]. now rewrite IH, orb_assoc.
Qed.

Lemma basename_plain (name : string) :
  contains "/" name = false -> basename name = name.
Proof.
  destruct name as [|c name]; [reflexivity|].
  unfold contains. cbn [existsb_str basename]. intro H.
  apply orb_false_iff in H as [Hc Hname].
  fold (contains "/" name). unfold contains. rewrite Hname.
  rewrite Ascii.eqb_sym, Hc. reflexivity.
Qed.

Lemma basename_after_slash (dir name : string) :
  contains "/" name = false -> basename (dir ++ "/" ++ name) = name.
Proof.
  intro Hname. induction dir as [|c dir IH].
  - cbn [append basename]. rewrite Hname. reflexivity.
  - cbn [append basename]. change (String "/" name) with ("/" ++ name).
    rewrite contains_app.
    replace (contains "/" ("/" ++ name)) with true by reflexivity.
    rewrite orb_true_r. exact IH.
Qed.

Lemma endswith_app (s suffix : string) :
  endswith s suffix = true -> exists a, s = a ++ suffix.
Proof.
  induction s as [|c s IH]; cbn [endswith]; intro H.
  - rewrite orb_false_r in H. apply String.eqb_eq in H. subst.
    now exists "".
  - apply orb_true_iff in H as [H|H].
    + apply String.eqb_eq in H. rewrite H. now exists "".
    + destruct (IH H) as [a ->]. now exists (String c a).
Qed.

(** The name of a file of a directory is found again at the end of its
    path: [basename] undoes [os.path.join] on a name without a slash. *)
Theorem basename_of_joined_path :
  forall dir name : string,
    contains "/" name = false -> basename (path_join dir name) = name.
Proof.
  intros dir name Hname. unfold path_join.
  assert (Hprefix : prefix "/" name = false).
  { destruct name as [|c name]; [reflexivity|].
    unfold contains in Hname. cbn [existsb_str] in Hname.
    apply orb_false_iff in Hname as [Hc _]. cbn [prefix].
    destruct (ascii_dec "/" c) as [Heq|Hne]; [|reflexivity].
    rewrite <- Heq, Ascii.eqb_refl in Hc. discriminate. }
  rewrite Hprefix.
  destruct dir as [|c dir]; [now apply basename_plain|].
  cbn [truthy negb orb].
  destruct (endswith (String c dir) "/") eqn:E.
  - apply endswith_app in E as [a ->].
    rewrite StringFacts.append_assoc. now apply basename_after_slash.
  - now apply basename_after_slash.
Qed.

Lemma basename_of_joined_path_witness :
  basename (path_join "inbox" "scan.pdf") = "scan.pdf"
  /\ basename (path_join "inbox/" "scan.pdf") = "scan.pdf".
Proof.
  split; [apply (basename_of_joined_path "inbox" "scan.pdf") |
          apply (basename_of_joined_path "inbox/" "scan.pdf")]; reflexivity.
Defined.

End PathFacts.

(** ** Batches *)

Module BatchFacts.
Import PyStr Pipeline Worker Instrumented Named.




(** *** The worker thread *)

Section WithPipeline.
Context {W : Type}.
Variable signals : Signals W.
Variable self : Components W.
Variable now : W -> Time * W.


End WithPipeline.

End BatchFacts.

(** ** Chunks and prompts *)

Module ChunkingFacts.
Import PyStr PyStrFacts LLM Observers ChunkFacts.

(** *** The words of the chunks *)

Lemma prefix_blank_line (s : string) :
  prefix blank_line s = true ->
  exists rest, s = String LF (String LF rest).
Proof.
  destruct s as [|a [|b rest]]; cbn [prefix blank_line]; try discriminate.
  - destruct (ascii_dec LF a); discriminate.
  - destruct (ascii_dec LF a) as [<-|]; [|discriminate].
    destruct (ascii_dec LF b) as [<-|]; [|discriminate].
    intros _. now exists rest.
Qed.

(** The words of a text are the words of its paragraphs, in a row. *)
Lemma words_of_paragraphs (n : nat) :
  forall s : string,
    (String.length s <= n)%nat ->
    let (p, ps) := split_from blank_line 0 s in
    words_from s
    = (fst (words_from p), (snd (words_from p) ++ flat_map split_ws ps)%list).
Proof.
  induction n as [|n IH]; intros s Hlen.
  - destruct s; [|cbn in Hlen; lia]. reflexivity.
  - destruct s as [|c s]; [reflexivity|].
    cbn [split_from].
    destruct (prefix blank_line (String c s)) eqn:Epre.
    + apply prefix_blank_line in Epre as [rest Hrest].
      inversion Hrest; subst c s.
      change (split_from blank_line (String.length blank_line - 1)
                (String LF rest)) with (split_from blank_line 0 rest).
      cbn [String.length] in Hlen.
      specialize (IH rest ltac:(lia)). revert IH.
      destruct (split_from blank_line 0 rest) as [p ps]. intro IH.
      cbn [words_from]. rewrite IH.
      replace (is_space LF) with true by reflexivity.
      cbn [fst snd flat_map app]. unfold cons_word at 1 2. cbn [truthy].
      unfold split_ws. destruct (words_from p) as [w ws]. cbn [fst snd].
      now rewrite cons_word_app.
    + cbn [String.length] in Hlen.
      specialize (IH s ltac:(lia)). revert IH.
      destruct (split_from blank_line 0 s) as [p ps]. intro IH.
      cbn [words_from]. rewrite IH.
      destruct (words_from p) as [w ws]. cbn [fst snd].
      destruct (is_space c); cbn [fst snd]; [|reflexivity].
      now rewrite cons_word_app.
Qed.

Lemma split_ws_paragraphs (text : string) :
  split_ws text = flat_map split_ws (split blank_line text).
Proof.
  pose proof (words_of_paragraphs (String.length text) text (Nat.le_refl _)) as H.
  unfold split. destruct (split_from blank_line 0 text) as [p ps].
  assert (Hp : split_ws p = cons_word (fst (words_from p)) (snd (words_from p)))
    by (unfold split_ws; destruct (words_from p); reflexivity).
  cbn [flat_map]. rewrite Hp, cons_word_app.
  unfold split_ws at 1. rewrite H. reflexivity.
Qed.

Lemma split_ws_join (group : list string) :
  split_ws (join " " group) = flat_map split_ws group.
Proof.
  unfold join. induction group as [|p group IH]; [reflexivity|].
  destruct group as [|q group].
  - cbn. now rewrite app_nil_r.
  - change (String.concat " " (p :: q :: group))
      with (p ++ String " " (String.concat " " (q :: group))).
    rewrite split_ws_space, IH. reflexivity.
Qed.

Lemma flat_map_split_ws_length (paragraphs : list string) :
  List.length (flat_map split_ws paragraphs) = total_words paragraphs.
Proof.
  unfold total_words. induction paragraphs as [|p ps IH]; [reflexivity|].
  cbn [flat_map map list_sum]. rewrite length_app, IH. reflexivity.
Qed.

Lemma word_count_paragraphs (text : string) :
  word_count text = total_words (split blank_line text).
Proof.
  unfold word_count. now rewrite split_ws_paragraphs, flat_map_split_ws_length.
Qed.

(** Chunking changes the white space between words and nothing else: the
    words of the chunks, read in a row, are the words of the text, whatever
    the budget of a chunk. *)
Theorem chunks_keep_every_word :
  forall (text : string) (max_length : nat),
    flat_map split_ws (_chunk_text_with text max_length) = split_ws text
    /\ total_words (_chunk_text_with text max_length) = word_count text.
Proof.
  intros text max_length.
  assert (Hwords : flat_map split_ws (_chunk_text_with text max_length)
                   = split_ws text).
  { destruct (chunk_text_groups text max_length) as (groups & Hcat & Hchunks & _).
    rewrite Hchunks, split_ws_paragraphs, <- Hcat.
    clear. induction groups as [|g groups IH]; [reflexivity|].
    cbn [map flat_map List.concat]. rewrite split_ws_join, IH.
    now rewrite flat_map_app. }
  split; [exact Hwords|].
  rewrite <- flat_map_split_ws_length, Hwords. reflexivity.
Qed.

(** *** One chunk, or an empty first chunk *)

Lemma chunk_loop_within (max_length : nat) (paragraphs : list string) :
  forall (chunks current : list string) (len : nat),
    (len + total_words paragraphs <= max_length)%nat ->
    (current ++ paragraphs)%list <> [] ->
    chunk_loop max_length paragraphs chunks current len
    = (chunks ++ [join " " (current ++ paragraphs)])%list.
Proof.
  induction paragraphs as [|para rest IH]; intros chunks current len Hfit Hsome.
  - rewrite app_nil_r in *. cbn [chunk_loop].
    destruct current; [contradiction | reflexivity].
  - cbn [chunk_loop]. fold (word_count para).
    change (total_words (para :: rest))
      with (word_count para + total_words rest)%nat in Hfit.
    destruct (max_length <? len + word_count para)%nat eqn:E.
    + apply Nat.ltb_lt in E. lia.
    + rewrite IH.
      * now rewrite <- app_assoc.
      * lia.
      * rewrite <- app_assoc. destruct current; discriminate.
Qed.

Lemma split_nonempty (sep s : string) : split sep s <> [].
Proof. unfold split. destruct (split_from sep 0 s). discriminate. Qed.

(** A text of at most 512 words is sent whole: it makes one chunk, which is
    the text with every blank line between paragraphs turned into one
    space. *)
Theorem short_text_is_one_chunk :
  forall text : string,
    (word_count text <= 512)%nat ->
    _chunk_text text = [join " " (split blank_line text)].
Proof.
  intros text Hshort. unfold _chunk_text, _chunk_text_with.
  rewrite chunk_loop_within; [reflexivity | |].
  - rewrite <- word_count_paragraphs. exact Hshort.
  - apply split_nonempty.
Qed.

Lemma short_text_is_one_chunk_witness :
  _chunk_text Generators.sample_text = ["Acme Corp merchant application"].
Proof.
  apply (short_text_is_one_chunk Generators.sample_text).
  apply Nat.leb_le. vm_compute. reflexivity.
Defined.

Lemma chunk_loop_keeps (max_length : nat) (paragraphs : list string) :
  forall (chunks current : list string) (len : nat),
  exists later,
    chunk_loop max_length paragraphs chunks current len = (chunks ++ later)%list
    /\ (current <> [] -> later <> []).
Proof.
  induction paragraphs as [|para rest IH]; intros chunks current len.
  - cbn [chunk_loop]. destruct current.
    + exists []. rewrite app_nil_r. split; [reflexivity | tauto].
    + eexists. split; [reflexivity | discriminate].
  - cbn [chunk_loop].
    destruct (max_length <? len + List.length (split_ws para))%nat.
    + destruct (IH (chunks ++ [join " " current])%list [para]
                  (List.length (split_ws para))) as (later & -> & _).
      rewrite <- app_assoc. eexists. split; [reflexivity | discriminate].
    + destruct (IH chunks (current ++ [para])%list
                  (len + List.length (split_ws para))%nat) as (later & -> & Hsome).
      exists later. split; [reflexivity|].
      intros _. apply Hsome. destruct current; discriminate.
Qed.

(** When the first paragraph of a text has more than 512 words, the first
    chunk is the empty string: the loop closes the chunk that is still
    empty before it starts one for the paragraph.  The text is in the chunks
    that follow, and every prompt is made from the first one: parsing asks
    the generator the fourteen questions about an empty text. *)
Theorem long_opening_paragraph_leaves_an_empty_first_chunk :
  forall (text para : string) (rest : list string),
    split blank_line text = para :: rest ->
    (512 < word_count para)%nat ->
    (exists later, _chunk_text text = "" :: later /\ later <> [])
    /\ forall (W : Type) (generator : string -> M W Response)
              (filename : option string) (w : W),
         parse_document generator text filename w
         = match ask_all generator
                   (map (fun key => _get_field_prompt key "") prompt_keys) w with
           | (rs, None, w') => (Ok (assemble filename rs), w')
           | (_, Some e, w') => (Raise e, w')
           end.
Proof.
  intros text para rest Hsplit Hlong.
  assert (Hchunks : exists later, _chunk_text text = "" :: later /\ later <> []).
  { unfold _chunk_text, _chunk_text_with. rewrite Hsplit.
    cbn [chunk_loop]. fold (word_count para). cbn [Nat.add].
    apply Nat.ltb_lt in Hlong. rewrite Hlong.
    destruct (chunk_loop_keeps 512 rest ([] ++ [join " " []])%list [para]
                (word_count para)) as (later & -> & Hsome).
    exists later. split; [reflexivity | apply Hsome; discriminate]. }
  split; [exact Hchunks|].
  destruct Hchunks as (later & Hfirst & _).
  intros W generator filename w.
  exact (ParseFacts.parse_document_runs generator text filename w "" later Hfirst).
Qed.

Lemma long_opening_paragraph_leaves_an_empty_first_chunk_witness :
  exists later,
    _chunk_text LongText.long_then_short = "" :: later /\ later <> [].
Proof.
  refine (proj1 (long_opening_paragraph_leaves_an_empty_first_chunk
                   LongText.long_then_short LongText.long_paragraph ["Acme Corp"]
                   _ _)).
  - vm_compute. reflexivity.
  - apply Nat.ltb_lt. vm_compute. reflexivity.
Defined.

(** *** The prompt in the response *)

Lemma prompt_shape (field text : string) :
  exists head, _get_field_prompt field text = head ++ ":" ++ " " ++ text.
Proof.
  unfold _get_field_prompt, prompts, lookup.
  repeat match goal with
         | |- context [if String.eqb ?k field then _ else _] =>
             destruct (String.eqb k field);
             [cbn [get];
              match goal with
              | |- exists head, ?instruction ++ text = _ =>
                  exists (substring 0 (String.length instruction - 2) instruction);
                  reflexivity
              end|]
         end.
  cbn [get].
  exists ("Extract the " ++ replace_char "_" " " field ++ " from this text").
  rewrite !StringFacts.append_assoc. reflexivity.
Qed.

Lemma prefix_nil (s : string) : prefix "" s = true.
Proof. destruct s; reflexivity. Qed.

Lemma last_default {A} (l : list A) (d d' : A) :
  l <> [] -> List.last l d = List.last l d'.
Proof.
  induction l as [|a l IH]; [contradiction|]. intros _.
  destruct l as [|b l]; [reflexivity|].
  change (List.last (b :: l) d = List.last (b :: l) d'). apply IH. discriminate.
Qed.

(** The pieces that follow a colon are those of the text after it. *)
Lemma split_after_colon (head rest : string) :
  forall d,
    List.last (split ":" (head ++ ":" ++ rest)) d = List.last (split ":" rest) d.
Proof.
  intro d. unfold split at 1.
  change (head ++ ":" ++ rest) with (head ++ String ":" rest).
  assert (H : let (p, ps) := split_from ":" 0 (head ++ String ":" rest) in
              ps <> [] /\ List.last ps d = List.last (split ":" rest) d).
  { induction head as [|c head IH].
    - cbn [append split_from prefix String.length Nat.sub].
      destruct (ascii_dec ":" ":") as [_|Hne]; [|contradiction].
      rewrite prefix_nil. unfold split.
      destruct (split_from ":" 0 rest) as [p ps].
      split; [discriminate | reflexivity].
    - cbn [append split_from prefix String.length Nat.sub].
      destruct (split_from ":" 0 (head ++ String ":" rest)) as [p ps].
      destruct IH as [Hsome Hlast].
      destruct (ascii_dec ":" c) as [_|_]; [rewrite prefix_nil|].
      + split; [discriminate|]. rewrite <- Hlast.
        destruct ps; [contradiction | reflexivity].
      + split; assumption. }
  destruct (split_from ":" 0 (head ++ String ":" rest)) as [p ps].
  destruct H as [Hsome <-]. destruct ps; [contradiction | reflexivity].
Qed.

Lemma split_plain (s : string) : contains ":" s = false -> split ":" s = [s].
Proof.
  intro Hs. unfold split. pose proof (split_colon s) as H.
  destruct (split_from ":" 0 s) as [p ps]. destruct H as [_ H].
  destruct ps as [|q qs]; [now subst|].
  destruct (H "") as (before & Heq & _).
  rewrite Heq, !PathFacts.contains_app in Hs.
  replace (contains ":" ":") with true in Hs by reflexivity.
  rewrite orb_true_r in Hs. discriminate.
Qed.

Lemma clean_after_colon (head rest : string) :
  _clean_response (head ++ ":" ++ rest) = _clean_response rest.
Proof.
  unfold _clean_response.
  assert (Hcolon : contains ":" (head ++ ":" ++ rest) = true).
  { rewrite !PathFacts.contains_app.
    replace (contains ":" ":") with true by reflexivity.
    now rewrite orb_true_r. }
  rewrite Hcolon, split_after_colon.
  destruct (contains ":" rest) eqn:E.
  - rewrite (last_default _ _ rest); [reflexivity|]. apply split_nonempty.
  - rewrite (split_plain rest E). reflexivity.
Qed.

Lemma clean_after_space (rest : string) :
  _clean_response (" " ++ rest) = _clean_response rest.
Proof.
  unfold _clean_response.
  change (contains ":" (" " ++ rest)) with (contains ":" rest).
  destruct (contains ":" rest) eqn:E; [|reflexivity].
  unfold split. cbn [append split_from prefix].
  destruct (ascii_dec ":" " ") as [H|_]; [discriminate|].
  pose proof (split_colon rest) as H.
  destruct (split_from ":" 0 rest) as [p ps]. destruct H as [Hp H].
  destruct ps as [|q qs]; [subst; congruence|].
  change (List.last (String " " p :: q :: qs) (String " " rest))
    with (List.last (q :: qs) (String " " rest)).
  change (List.last (p :: q :: qs) rest) with (List.last (q :: qs) rest).
  rewrite (last_default _ _ rest); [reflexivity | discriminate].
Qed.

(** A generator that repeats the prompt before its answer does not put the
    instruction into the field: cleaning the prompt of any field followed
    by a continuation gives the same as cleaning the text of the chunk
    followed by that continuation.  Without a colon in the two, the field
    then holds the text of the chunk itself before the answer. *)
Theorem prompt_echo_leaves_the_chunk_in_the_field :
  forall field chunk continuation : string,
    _clean_response (_get_field_prompt field chunk ++ continuation)
    = _clean_response (chunk ++ continuation)
    /\ (contains ":" (chunk ++ continuation) = false ->
        _clean_response (_get_field_prompt field chunk ++ continuation)
        = collapse_ws (strip (chunk ++ continuation))).
Proof.
  intros field chunk continuation.
  assert (H : _clean_response (_get_field_prompt field chunk ++ continuation)
              = _clean_response (chunk ++ continuation)).
  { destruct (prompt_shape field chunk) as [head ->].
    rewrite !StringFacts.append_assoc.
    rewrite clean_after_colon. apply clean_after_space. }
  split; [exact H|].
  intro Hplain. rewrite H. unfold _clean_response. now rewrite Hplain.
Qed.

End ChunkingFacts.

(** ** The mock CRM beside a log *)

Module MockCrmFacts.
Import CRM Instrumented.

Section WithOutside.
Context {W : Type}.
Variable now : W -> Time * W.
Variable sleep : Q -> W -> W.
Variable random_uniform : Q -> Q -> W -> Q * W.
Variable random_randint : Z -> Z -> W -> Z * W.
Variable random_random : W -> Q * W.

(** The mock CRM leaves alone what is carried beside its world. *)
Lemma mock_crm_lift {L : Type} (parsed_data : Document) (w : W) (log : L) :
  _mock_crm_submit (lift_total now)
    (fun seconds => lift_effect (sleep seconds))
    (fun a b => lift_total (random_uniform a b))
    (fun a b => lift_total (random_randint a b))
    (lift_total random_random) parsed_data (w, log)
  = let (r, w') := _mock_crm_submit now sleep random_uniform random_randint
                     random_random parsed_data w in
    (r, (w', log)).
Proof.
  unfold _mock_crm_submit, lift_total, lift_effect, bind, total, effect, ret.
  destruct (random_uniform 0.5 1.5 w) as [delay w1].
  destruct (validation_status parsed_data) as [[|]|];
    repeat first
      [ match goal with
        | |- context [if PrimFloat.ltb ?a ?b then _ else _] =>
            destruct (PrimFloat.ltb a b)
        end
      | match goal with
        | |- context [if lt ?a ?b then _ else _] => destruct (lt a b)
        end
      | match goal with
        | |- context [random_randint ?a ?b ?w] =>
            destruct (random_randint a b w) as [? ?]
        end
      | match goal with
        | |- context [random_random ?w] => destruct (random_random w) as [? ?]
        end
      | match goal with
        | |- context [now ?w] => destruct (now w) as [? ?]
        end ];
    reflexivity.
Qed.

End WithOutside.

End MockCrmFacts.

(** ** Submissions and the counters of the log *)

Module LogFileFacts.
Import CRM SubmissionLog Instrumented LogFile.

Lemma read_lines_app (lines more : list LogLine) :
  forallb (fun line => match line with
                       | Unexpected | ReadError => false
                       | Malformed | Entry _ => true
                       end) lines = true ->
  forall stats,
    read_lines (lines ++ more) stats = read_lines more (read_lines lines stats).
Proof.
  induction lines as [|line lines IH]; intros Hlines stats; [reflexivity|].
  cbn [forallb] in Hlines. apply andb_true_iff in Hlines as [Hline Hlines].
  destruct line; try discriminate; cbn [app read_lines]; apply IH, Hlines.
Qed.

Lemma stats_after_entry (file : File) (status : string) :
  read_through file = true ->
  get_submission_stats (Some (get file [] ++ [Entry status])%list)
  = filed status (counted (get_submission_stats file)).
Proof.
  intro Hread. unfold get_submission_stats at 1.
  rewrite read_lines_app by exact Hread. cbn [read_lines].
  destruct file; reflexivity.
Qed.

Section WithOutside.
Context {W : Type}.
Variable now : W -> Time * W.
Variable sleep : Q -> W -> W.
Variable random_uniform : Q -> Q -> W -> Q * W.
Variable random_randint : Z -> Z -> W -> Z * W.
Variable random_random : W -> Q * W.
Variable _generate_json_file : Document -> M W string.
Variable writable : W -> bool.

(** Every submission writes one entry to the log, whether the CRM answered
    or the JSON file could not be written; the entry is lost only when the
    log itself cannot be written.  Read back from a log that is read to its
    end, the entry adds one to the total and one to the counter of its
    status: that of the response of the CRM, and "failed" when there is no
    response. *)
Theorem each_submission_is_counted_once :
  forall (parsed_data : Document) (w : W) (file : File),
    read_through file = true ->
    exists (r : SubmissionResult) (w' : W) (file' : File),
      submit_and_log now sleep random_uniform random_randint random_random
        _generate_json_file writable parsed_data (w, file)
      = (Ok r, (w', file'))
      /\ (if writable w'
          then file' = Some (get file [] ++ [Entry (counted_status r)])%list
               /\ get_submission_stats file'
                  = filed (counted_status r) (counted (get_submission_stats file))
          else file' = file).
Proof.
  intros parsed_data w file Hread.
  unfold submit_and_log, CRM.submit_document, try_except, bind, effect, ret.
  unfold lift at 1.
  destruct (_generate_json_file parsed_data w) as [[name|e] w1].
  - rewrite MockCrmFacts.mock_crm_lift.
    destruct (CrmFacts.mock_crm_decides now sleep random_uniform random_randint
                random_random parsed_data w1) as (resp & w2 & Hrun & _).
    rewrite Hrun. unfold _log_submission.
    destruct (now w2) as [timestamp w3].
    destruct (writable w3) eqn:Ewrite;
      eexists _, w3, _; (split; [reflexivity|]); rewrite Ewrite.
    + split; [reflexivity|]. now apply stats_after_entry.
    + reflexivity.
  - unfold _log_submission.
    destruct (now w1) as [timestamp w2].
    destruct (writable w2) eqn:Ewrite;
      eexists _, w2, _; (split; [reflexivity|]); rewrite Ewrite.
    + split; [reflexivity|]. now apply stats_after_entry.
    + reflexivity.
Qed.
End WithOutside.

Lemma each_submission_is_counted_once_witness :
  exists r w',
    sample_submit (Validator.validated Samples.acme 0) (0, sample_log)
    = (Ok r, (w', Some [Entry "accepted"; Malformed; Entry "rejected";
                        Entry "accepted"]))
    /\ get_submission_stats
         (Some [Entry "accepted"; Malformed; Entry "rejected"; Entry "accepted"])
       = mkStats 3 2 1 0 0.
Proof.
  destruct (each_submission_is_counted_once Stubs.ticking Stubs.no_sleep
              Stubs.uniform_low Stubs.randint_low Stubs.random_half
              Stubs.json_written (fun _ => true)
              (Validator.validated Samples.acme 0) 0 sample_log eq_refl)
    as (r & w' & file' & Hrun & Hfile).
  exists r, w'. cbn beta iota in Hfile. destruct Hfile as [Hfile _].
  split; [|reflexivity].
  unfold sample_submit. rewrite Hrun.
  assert (Hstatus : counted_status r = "accepted").
  { unfold submit_and_log in Hrun. vm_compute in Hrun.
    inversion Hrun; subst. reflexivity. }
  rewrite Hfile, Hstatus. reflexivity.
Defined.

End LogFileFacts.

(** ** The summary of a validated batch *)

Module ReviewFacts.
Import Summary Issues Batch.

Lemma count_if_map {A B} (f : A -> B) (test : B -> bool) (l : list A) :
  count_if test (map f l) = count_if (fun a => test (f a)) l.
Proof.
  unfold count_if. induction l as [|a l IH]; [reflexivity|].
  cbn [map filter]. destruct (test (f a)); cbn [List.length]; now rewrite IH.
Qed.

Lemma count_if_split {A} (test : A -> bool) (l : list A) :
  (count_if test l + count_if (fun a => negb (test a)) l)%nat = List.length l.
Proof.
  unfold count_if. induction l as [|a l IH]; [reflexivity|].
  cbn [filter]. destruct (test a); cbn [negb List.length]; lia.
Qed.

Lemma count_if_le_pointwise {A} (p q : A -> bool) (l : list A) :
  (forall a, p a = true -> q a = true) ->
  (count_if p l <= count_if q l)%nat.
Proof.
  intro Hpq. unfold count_if. induction l as [|a l IH]; [reflexivity|].
  cbn [filter]. destruct (p a) eqn:Ep.
  - rewrite (Hpq a Ep). cbn [List.length]. lia.
  - destruct (q a); cbn [List.length]; lia.
Qed.

Lemma count_if_ext {A} (p q : A -> bool) (l : list A) :
  (forall a, In a l -> p a = q a) -> count_if p l = count_if q l.
Proof.
  unfold count_if. induction l as [|a l IH]; intro H; [reflexivity|].
  cbn [filter]. rewrite (H a (or_introl eq_refl)).
  specialize (IH (fun b Hb => H b (or_intror Hb))).
  destruct (q a); cbn [List.length]; now rewrite IH.
Qed.

Lemma count_if_zero {A} (p : A -> bool) (l : list A) :
  count_if p l = 0%nat <-> forall a, In a l -> p a = false.
Proof.
  unfold count_if. induction l as [|a l IH]; [cbn; tauto|].
  cbn [filter]. destruct (p a) eqn:Ep; cbn [List.length].
  - split; [discriminate|]. intro H. specialize (H a (or_introl eq_refl)).
    congruence.
  - rewrite IH. split.
    + intros H b [<-|Hb]; auto.
    + intros H b Hb. apply H. now right.
Qed.

Lemma tally_nil (docs : list Document) :
  tally docs = [] <-> all_issues docs = [].
Proof.
  destruct (SummaryFacts.tally_spec docs) as [_ Hin]. split.
  - intro Hnil. destruct (all_issues docs) as [|issue issues] eqn:E; [reflexivity|].
    assert (H : In (issue, occurrences issue docs) (tally docs)).
    { apply Hin. split; [reflexivity|]. unfold occurrences, count_if.
      rewrite E. cbn [filter]. rewrite String.eqb_refl. cbn. lia. }
    rewrite Hnil in H. contradiction.
  - intro Hnil. unfold tally. fold (all_issues docs). now rewrite Hnil.
Qed.

Lemma listing_nil (counts : list (string * nat)) :
  firstn 5 (sorted_by_count counts) = [] <-> counts = [].
Proof.
  split.
  - intro H. pose proof (SummaryFacts.sorted_by_count_perm counts) as Hperm.
    destruct (sorted_by_count counts) as [|e rest]; [|discriminate].
    now apply Permutation_sym, Permutation_nil in Hperm.
  - intros ->. reflexivity.
Qed.

Lemma all_issues_nil (docs : list Document) :
  all_issues docs = []
  <-> forall d, In d docs -> get (flagged_issues d) [] = [].
Proof.
  unfold all_issues. induction docs as [|d docs IH]; [cbn; tauto|].
  cbn [flat_map]. split.
  - intros H. apply app_eq_nil in H as [Hd Hrest].
    intros e [<-|He]; [exact Hd | now apply IH].
  - intro H. rewrite (H d (or_introl eq_refl)). cbn [app].
    apply IH. intros e He. apply H. now right.
Qed.

(** In the summary of a batch of validated records, a record that failed
    is also one that needs review, so the failed ones are no more than
    those for review, and the two numbers are equal when every record came
    without issues; the list of common issues is empty exactly when no
    record needs review, and then every record passed. *)
Theorem failed_records_are_for_review :
  forall (sum_floats : list float -> float) (batch : list (Document * Time)),
    match get_validation_summary sum_floats (validated_all batch) with
    | None => batch = []
    | Some s =>
        total_documents s = List.length batch
        /\ (validation_failed s <= needs_review s)%nat
        /\ (common_issues s = [] <-> needs_review s = 0%nat)
        /\ (needs_review s = 0%nat -> validation_passed s = total_documents s)
        /\ (forallb (fun item => fresh (fst item)) batch = true ->
            validation_failed s = needs_review s)
    end.
Proof.
  intros sum_floats batch. unfold get_validation_summary.
  destruct (List.length (validated_all batch) =? 0)%nat eqn:Elen.
  { apply Nat.eqb_eq in Elen. unfold validated_all in Elen.
    rewrite length_map in Elen. now apply length_zero_iff_nil. }
  cbn [total_documents validation_failed needs_review common_issues
       validation_passed]. cbv zeta.
  rewrite listing_nil, tally_nil, all_issues_nil.
  unfold validated_all. rewrite !count_if_map, length_map.
  set (is_passed := fun item : Document * Time =>
         match validation_status (Validator.validated (fst item) (snd item)) with
         | Some passed => true
         | _ => false
         end).
  set (for_review := fun item : Document * Time =>
         get (requires_human_review (Validator.validated (fst item) (snd item)))
           false).
  pose proof (count_if_split is_passed batch) as Hsplit.
  assert (Hfailed : (List.length batch - count_if is_passed batch)%nat
                    = count_if (fun item => negb (is_passed item)) batch) by lia.
  rewrite Hfailed.
  assert (Hreview : forall item,
            for_review item
            = match (get (flagged_issues (fst item)) []
                     ++ Validator.validation_issues (fst item))%list with
              | [] => false
              | _ :: _ => true
              end).
  { intros [d t]. unfold for_review, Validator.validated.
    cbn [requires_human_review get fst snd].
    destruct (get (flagged_issues d) [] ++ Validator.validation_issues d)%list;
      reflexivity. }
  assert (Hpassed : forall item,
            is_passed item
            = match Validator.validation_issues (fst item) with
              | [] => true
              | _ :: _ => false
              end).
  { intros [d t]. unfold is_passed, Validator.validated.
    cbn [validation_status fst snd].
    destruct (Validator.validation_issues d); reflexivity. }
  split; [reflexivity|].
  split.
  { apply count_if_le_pointwise. intro item. rewrite Hpassed, Hreview.
    destruct (Validator.validation_issues (fst item)); [discriminate|].
    destruct (get (flagged_issues (fst item)) []); reflexivity. }
  split.
  { rewrite count_if_zero. split.
    - intros Hnone item Hitem.
      specialize (Hnone (Validator.validated (fst item) (snd item))
                    (in_map _ _ _ Hitem)).
      rewrite Hreview. unfold Validator.validated in Hnone.
      cbn [flagged_issues get] in Hnone. now rewrite Hnone.
    - intros Hnone v Hv. apply in_map_iff in Hv as (item & <- & Hitem).
      specialize (Hnone item Hitem). rewrite Hreview in Hnone.
      unfold Validator.validated. cbn [flagged_issues get].
      destruct (get (flagged_issues (fst item)) []
                ++ Validator.validation_issues (fst item))%list;
        [reflexivity | discriminate]. }
  split.
  { intro Hnone. rewrite count_if_zero in Hnone.
    assert (Hall : count_if (fun item => negb (is_passed item)) batch = 0%nat).
    { apply count_if_zero. intros item Hitem. specialize (Hnone item Hitem).
      rewrite Hreview in Hnone. rewrite Hpassed.
      destruct (Validator.validation_issues (fst item)); [reflexivity|].
      destruct (get (flagged_issues (fst item)) []); discriminate. }
    lia. }
  intro Hfresh. apply count_if_ext. intros item Hitem.
  rewrite forallb_forall in Hfresh. specialize (Hfresh item Hitem).
  unfold fresh in Hfresh. rewrite Hpassed, Hreview.
  destruct (get (flagged_issues (fst item)) []); [|discriminate].
  destruct (Validator.validation_issues (fst item)); reflexivity.
Qed.

End ReviewFacts.
